(** * AniList Smart Recommendations: the recommendation pipeline of popup.js

    A shallow embedding of [AuthManager.gqlRequest] and of
    [RecommendationEngine] (fetchAllFavourites, fetchUserList,
    computeRecommendations), followed by the properties of the scoring
    pipeline.

    Conventions of the embedding.
    - JS numbers.  Identifiers, list scores (POINT_10), tag ranks, weights
      and HTTP statuses are integers and are modelled by [Z].  The bonuses
      0.5 and 0.3 and the final score are modelled by exact rationals [Q]:
      every intermediate value of step 6 is a multiple of 1/10 far below
      2^53, [toFixed(1)] re-rounds the double sum to the nearest tenth, and
      [Math.round] of a quotient of two small integers is decided exactly, so
      the rational computation and the double computation name the same
      decimal.
    - [null]/[undefined] are [None]; [a || b] on strings treats [None] and
      the empty string as falsy.
    - A JS [Map] is an association list in insertion order with unique keys
      ([Map.set] on a present key keeps its position); a JS [Set] is used
      through [has] only and is modelled by the list it was built from.
    - [Array.prototype.sort] is stable and all comparators here are
      differences of numbers, so its result is the unique stable ordering,
      computed below by a stable insertion sort.
    - Effects: the token/viewer/storage of [AuthManager], the delays passed
      to [sleep], the number of [fetch] calls and the console warnings are
      fields of an explicit [World]; effectful code lives in a state and
      exception monad [M].  The remote service is a function from the query
      and the attempt number to an HTTP response.  [console.log] output and
      the [onProgress] callback (default: no-op) are not modelled.
    - [Promise.all]: the two reads of a run are both started and both run
      to their end, also when the other one is rejected.  The world of a
      run is the world once its requests have settled, and which of two
      rejections arrives first is a parameter of the remote side.

    Beyond the pipeline the file embeds [RecommendationEngine.addToPlanning],
    the controller [App] ([_filter], the chips of [_show], the result cache
    and [_run], with the value stored under [recoCache] next to the world)
    and the debug page of debug.js ([gql], [runAll] and the lists behind
    the tables of [renderAll]), whose effects are recorded as a trace of
    events.  The DOM ([UIRenderer], the HTML text of [renderAll]) and the
    OAuth flow of [AuthManager.login] are outside the embedding. *)

From Stdlib Require Import ZArith QArith Qround List String Ascii Bool Lia.
From Stdlib Require Import Permutation Sorted DecimalString.
Import ListNotations.

Local Open Scope string_scope.
Local Open Scope list_scope.
Local Open Scope Z_scope.

(* ===================================================================== *)
(** ** Constants (popup.js, "Constants") *)
(* ===================================================================== *)

Definition WEIGHT_FAVOURITE : Z := 2.
Definition WEIGHT_TOP_RATED : Z := 1.
Definition TAG_BONUS : Q := 5 # 10.
Definition GENRE_BONUS : Q := 3 # 10.
Definition DIVERSITY_CAP : Z := 5.
Definition MAX_RETRIES : nat := 4.
Definition MAX_FAV_SOURCES : nat := 15.
Definition MAX_TOP_SOURCES : nat := 10.
Definition CHUNK : nat := 12.

(* ===================================================================== *)
(** ** JavaScript primitives *)
(* ===================================================================== *)

Module Js.

(** Truthiness of a possibly-null string. *)
Definition truthy (s : option string) : bool :=
  match s with
  | Some "" => false
  | Some _ => true
  | None => false
  end.

(** [a || b]. *)
Definition or (a b : option string) : option string :=
  if truthy a then a else b.

(** [a || d] for a string default [d]. *)
Definition orDefault (a : option string) (d : string) : string :=
  match a with
  | Some "" => d
  | Some s => s
  | None => d
  end.

(** [a || []] and [a || 0]. *)
Definition orElse {A : Type} (a : option A) (d : A) : A :=
  match a with Some x => x | None => d end.

(** Template-literal rendering of an integer. *)
Definition numberToString (z : Z) : string :=
  NilZero.string_of_int (Z.to_int z).

(** [Array.prototype.slice(0, n)] and [slice(c, c + n)]. *)
Definition slice0 {A : Type} (n : nat) (l : list A) : list A := firstn n l.
Definition slice {A : Type} (c n : nat) (l : list A) : list A :=
  firstn n (skipn c l).

(** [String.prototype.toLowerCase] on strings of ASCII characters: the
    letters A-Z are lowered.  A character outside ASCII is left as it is,
    where JavaScript lowers the letters among them too; what is stated
    about the letter case of user names is stated for ASCII names. *)
Definition lowerAscii (c : ascii) : ascii :=
  let n := nat_of_ascii c in
  if (65 <=? n)%nat && (n <=? 90)%nat then ascii_of_nat (n + 32) else c.

Fixpoint toLowerCase (s : string) : string :=
  match s with
  | EmptyString => EmptyString
  | String c r => String (lowerAscii c) (toLowerCase r)
  end.

(** [hay.includes(needle)]. *)
Fixpoint includes (hay needle : string) : bool :=
  String.prefix needle hay
  || match hay with
     | EmptyString => false
     | String _ r => includes r needle
     end.

(** [msgs.join(", ")]. *)
Definition join (sep : string) (l : list string) : string :=
  String.concat sep l.

(** [Math.round(n / d)] for integers [n] and [d > 0]: floor (n/d + 1/2). *)
Definition roundDiv (n d : Z) : Z := (2 * n + d) / (2 * d).

(** [+(x.toFixed(1))] for [x >= 0]: the nearest tenth, ties upwards. *)
Definition toFixed1 (x : Q) : Q :=
  Qfloor (x * inject_Z 10 + (1 # 2)) # 10.

(** [Array.prototype.sort(cmp)]: stable insertion sort.  [cmp a b] is the
    sign of the comparator; [Gt] means [a] goes after [b]. *)
Section Sort.
Context {A : Type} (cmp : A -> A -> comparison).

Fixpoint insert (x : A) (l : list A) : list A :=
  match l with
  | [] => [x]
  | y :: r =>
      match cmp x y with
      | Gt => y :: insert x r
      | _ => x :: y :: r
      end
  end.

Fixpoint sort (l : list A) : list A :=
  match l with
  | [] => []
  | x :: r => insert x (sort r)
  end.
End Sort.

(** A [Map] in insertion order. *)
Section Map.
Context {K V : Type} (eqb : K -> K -> bool).

Fixpoint get (k : K) (m : list (K * V)) : option V :=
  match m with
  | [] => None
  | (k', v) :: r => if eqb k k' then Some v else get k r
  end.

Definition has (k : K) (m : list (K * V)) : bool :=
  match get k m with Some _ => true | None => false end.

Fixpoint set (k : K) (v : V) (m : list (K * V)) : list (K * V) :=
  match m with
  | [] => [(k, v)]
  | (k', v') :: r =>
      if eqb k k' then (k', v) :: r else (k', v') :: set k v r
  end.
End Map.

(** [Set.prototype.has] on a set built from a list. *)
Definition setHas {K : Type} (eqb : K -> K -> bool) (k : K) (s : list K)
  : bool :=
  existsb (eqb k) s.

End Js.

(* ===================================================================== *)
(** ** Data model *)
(* ===================================================================== *)

(** [title { romaji english }]. *)
Record Title := { romaji : option string; english : option string }.

(** [tags { name rank }]. *)
Record Tag := { tag_name : string; tag_rank : Z }.

(** One node of [User.favourites.anime.nodes]. *)
Record FavNode := { node_id : Z; node_title : Title }.

(** [User.favourites.anime]: one page of favourites. *)
Record FavPage := { nodes : list FavNode; hasNextPage : bool }.

(** What [fetchAllFavourites] pushes: [{ id, title }]. *)
Record Favourite := { fav_id : Z; fav_title : string }.

(** [entry.media] of the list query. *)
Record EntryMedia :=
  { em_title : Title;
    em_genres : option (list string);
    em_tags : option (list Tag) }.

(** One entry of [MediaListCollection.lists[k].entries]. *)
Record RawEntry :=
  { raw_mediaId : Z;
    raw_score : Z;
    raw_status : option string;
    raw_media : EntryMedia }.

(** One status bucket of [MediaListCollection.lists]. *)
Record RawList := { list_status : option string; entries : list RawEntry }.

(** What [fetchUserList] pushes. *)
Record ListEntry :=
  { mediaId : Z;
    score : Z;
    status : option string;
    title : option string;
    genres : list string;
    tags : list Tag }.

(** [mediaRecommendation]: the payload of a recommended title.  The cover,
    episode, season and URL fields are carried for display only and are
    never read by the pipeline; [format] and [meanScore] stand for them. *)
Record Media :=
  { id : Z;
    m_title : Title;
    m_format : option string;
    m_meanScore : option Z;
    m_genres : option (list string);
    m_tags : option (list Tag) }.

(** The compound answer: [data.m0], [data.m1], ...; an alias is [None] when
    [mediaData?.recommendations?.nodes] is missing, and a node is [None]
    when its [mediaRecommendation] is null. *)
Definition BatchData := list (option (list (option Media))).

(** A fan-out task (a seed). *)
Record Task :=
  { task_mediaId : Z;
    task_weight : Z;
    task_sourceTitle : option string;
    task_type : string }.

(** [{ sourceTitle, type, weight }]. *)
Record Reason :=
  { sourceTitle : option string; type : string; weight : Z }.

(** A value of [scoreMap]: [{ media, baseScore, reasons }]. *)
Record Candidate :=
  { media : Media; baseScore : Z; reasons : list Reason }.

(** [{ name, strength }]. *)
Record CommonTag := { name : string; strength : Z }.

(** A candidate after steps 5 and 6 added [isPlanning], [commonTags],
    [tagBonus] and [score] to it. *)
Record Result :=
  { candidate : Candidate;
    isPlanning : bool;
    commonTags : list CommonTag;
    tagBonus : Q;
    finalScore : Q }.

(** A value of [userTagMap]. *)
Record TagStat := { totalRank : Z; count : Z }.

(* ===================================================================== *)
(** ** The world and the effect monad *)
(* ===================================================================== *)

Inductive Error :=
| TooManyRequests                (* "AniList API: Too Many Requests." *)
| NonJson (status : Z)           (* "AniList API <status>: reponse non-JSON" *)
| TokenExpired                   (* "TOKEN_EXPIRED" *)
| ApiError (msg : string)        (* "AniList API: <msg>" *)
| ApiStatus (status : Z)         (* "AniList API <status>" *)
| UserNotFound (username : string)
| TypeError.                     (* property access on null *)

Record World :=
  { w_token : option string;        (* AuthManager._token *)
    w_viewer : option string;       (* AuthManager._viewer *)
    w_storage : list string;        (* keys held by chrome.storage.local *)
    w_slept : list Z;               (* delays passed to sleep, oldest first *)
    w_fetches : nat;                (* number of fetch calls *)
    w_warned : list Error }.        (* console.warn of the fan-out *)

Definition freshWorld : World :=
  {| w_token := None; w_viewer := None; w_storage := [];
     w_slept := []; w_fetches := 0; w_warned := [] |}.

Inductive Outcome (A : Type) :=
| Ok (a : A)
| Throw (e : Error)
| OutOfFuel.
Arguments Ok {A} a.
Arguments Throw {A} e.
Arguments OutOfFuel {A}.

Definition M (A : Type) : Type := World -> Outcome A * World.

Definition ret {A} (a : A) : M A := fun w => (Ok a, w).

Definition bind {A B} (m : M A) (k : A -> M B) : M B :=
  fun w =>
    match m w with
    | (Ok a, w') => k a w'
    | (Throw e, w') => (Throw e, w')
    | (OutOfFuel, w') => (OutOfFuel, w')
    end.

Definition throw {A} (e : Error) : M A := fun w => (Throw e, w).

Definition diverge {A} : M A := fun w => (OutOfFuel, w).

(** [try { m } catch (err) { h err }]. *)
Definition tryCatch {A} (m : M A) (h : Error -> M A) : M A :=
  fun w =>
    match m w with
    | (Throw e, w') => h e w'
    | r => r
    end.

Declare Scope js_scope.
Delimit Scope js_scope with js.
Notation "x <- m ;; k" := (bind m (fun x => k))
  (at level 61, m at next level, right associativity) : js_scope.
Notation "m ;; k" := (bind m (fun _ => k))
  (at level 61, right associativity) : js_scope.
Local Open Scope js_scope.

(** [await sleep(ms)]. *)
Definition sleep (ms : Z) : M unit :=
  fun w =>
    (Ok tt,
     {| w_token := w_token w; w_viewer := w_viewer w;
        w_storage := w_storage w; w_slept := w_slept w ++ [ms];
        w_fetches := w_fetches w; w_warned := w_warned w |}).

(** [console.warn("[Engine] Echec batch compound:", err)]. *)
Definition warn (e : Error) : M unit :=
  fun w =>
    (Ok tt,
     {| w_token := w_token w; w_viewer := w_viewer w;
        w_storage := w_storage w; w_slept := w_slept w;
        w_fetches := w_fetches w; w_warned := w_warned w ++ [e] |}).

(** [AuthManager.logout]. *)
Definition logout : M unit :=
  fun w =>
    (Ok tt,
     {| w_token := None; w_viewer := None;
        w_storage :=
          filter (fun k => negb (existsb (String.eqb k)
                                   ["anilistToken"; "anilistViewer"; "recoCache"]))
                 (w_storage w);
        w_slept := w_slept w;
        w_fetches := w_fetches w; w_warned := w_warned w |}).

(* ===================================================================== *)
(** ** AuthManager.gqlRequest *)
(* ===================================================================== *)

(** The [Retry-After] header as [parseInt] sees it. *)
Inductive Header := Absent | Numeric (seconds : Z) | NonNumeric.

(** A parsed JSON body: the messages of [json.errors] and [json.data]. *)
Record Json (A : Type) := { errors : list string; data : option A }.
Arguments errors {A} _.
Arguments data {A} _.

(** An HTTP response; [body = None] when [res.json()] throws. *)
Record Response (A : Type) :=
  { res_status : Z; retryAfterHeader : Header; body : option (Json A) }.
Arguments res_status {A} _.
Arguments retryAfterHeader {A} _.
Arguments body {A} _.

(** The remote side of one query: the response to its n-th attempt. *)
Definition Server (A : Type) : Type := nat -> Response A.

(** [await fetch(ANILIST_API, ...)] for the given attempt. *)
Definition fetch {A} (srv : Server A) (attempt : nat) : M (Response A) :=
  fun w =>
    (Ok (srv attempt),
     {| w_token := w_token w; w_viewer := w_viewer w;
        w_storage := w_storage w; w_slept := w_slept w;
        w_fetches := S (w_fetches w); w_warned := w_warned w |}).

(** [parseInt(res.headers.get("Retry-After") || "0", 10)]; [None] is NaN. *)
Definition parseRetryAfter (h : Header) : option Z :=
  match h with
  | Absent => Some 0
  | Numeric z => Some z
  | NonNumeric => None
  end.

(** [retryAfter > 0 ? retryAfter * 1000 : (2 ** _attempt) * 1500]. *)
Definition backoff (h : Header) (_attempt : nat) : Z :=
  match parseRetryAfter h with
  | Some retryAfter =>
      if 0 <? retryAfter then retryAfter * 1000
      else 2 ^ Z.of_nat _attempt * 1500
  | None => 2 ^ Z.of_nat _attempt * 1500
  end.

(** [res.ok]. *)
Definition res_ok {A} (res : Response A) : bool :=
  (200 <=? res_status res) && (res_status res <=? 299).

(** What follows the rate-limit test in [gqlRequest]. *)
Definition handleResponse {A} (res : Response A) : M (option A) :=
  match body res with
  | None => throw (NonJson (res_status res))
  | Some json =>
      match errors json with
      | _ :: _ =>
          let msg := Js.join ", " (errors json) in
          if Js.includes (Js.toLowerCase msg) "invalid token"
             || (res_status res =? 401)
          then logout ;; throw TokenExpired
          else throw (ApiError msg)
      | [] =>
          match data json with
          | None => if res_ok res then ret None
                    else throw (ApiStatus (res_status res))
          | Some d => ret (Some d)
          end
      end
  end.

(** The recursive self-call of [gqlRequest]; [fuel] bounds the recursion
    depth and is never exhausted from [gqlRequest] (see [gqlRequest_total]). *)
Fixpoint gqlRequestFrom {A} (fuel : nat) (srv : Server A) (_attempt : nat)
  : M (option A) :=
  match fuel with
  | O => diverge
  | S fuel' =>
      res <- fetch srv _attempt ;;
      if res_status res =? 429 then
        if (MAX_RETRIES <=? _attempt)%nat then throw TooManyRequests
        else
          sleep (backoff (retryAfterHeader res) _attempt) ;;
          gqlRequestFrom fuel' srv (S _attempt)
      else handleResponse res
  end.

Definition gqlRequest {A} (srv : Server A) : M (option A) :=
  gqlRequestFrom (S MAX_RETRIES) srv 0.

(* ===================================================================== *)
(** ** RecommendationEngine: the remote reads *)
(* ===================================================================== *)

(** The remote catalogue, one server per query: [USER_FAVOURITES] by user
    name and page (the [User] field of the answer, null for an unknown
    user), [USER_LIST] by user name (the [MediaListCollection.lists] field)
    and the compound recommendation query by the media ids of its
    fragments.  The two reads of a run are in flight together, and when
    both are rejected the order of the rejections is a matter of the
    remote side's timing: [listRejectsFirst] tells, by user name, whether
    the rejection of the list read arrives before that of the favourites
    read. *)
Record Remote :=
  { favouritesServer : string -> nat -> Server (option FavPage);
    listServer : string -> Server (option (list RawList));
    recommendationsServer : list Z -> Server BatchData;
    listRejectsFirst : string -> bool }.

(** [`#${n.id}`]. *)
Definition hashId (n : Z) : string := "#" ++ Js.numberToString n.

(** [{ id: n.id, title: n.title.english || n.title.romaji || `#${n.id}` }]. *)
Definition favouriteOfNode (n : FavNode) : Favourite :=
  {| fav_id := node_id n;
     fav_title :=
       Js.orDefault (Js.or (english (node_title n)) (romaji (node_title n)))
                    (hashId (node_id n)) |}.

(** The [while (hasNext)] loop of [fetchAllFavourites]; [fuel] bounds the
    number of pages read. *)
Fixpoint favouritesLoop (fuel : nat) (remote : Remote) (username : string)
    (page : nat) (results : list Favourite) : M (list Favourite) :=
  match fuel with
  | O => diverge
  | S fuel' =>
      data <- gqlRequest (favouritesServer remote username page) ;;
      match data with
      | None => throw TypeError
      | Some None => throw (UserNotFound username)
      | Some (Some anime) =>
          let results' := results ++ map favouriteOfNode (nodes anime) in
          if hasNextPage anime
          then favouritesLoop fuel' remote username (S page) results'
          else ret results'
      end
  end.

Definition fetchAllFavourites (fuel : nat) (remote : Remote)
    (username : string) : M (list Favourite) :=
  favouritesLoop fuel remote username 1%nat [].

(** The object pushed by [fetchUserList] for one entry of one bucket. *)
Definition listEntryOf (list : RawList) (entry : RawEntry) : ListEntry :=
  {| mediaId := raw_mediaId entry;
     score := raw_score entry;
     status := Js.or (raw_status entry) (list_status list);
     title := Js.or (english (em_title (raw_media entry)))
                    (romaji (em_title (raw_media entry)));
     genres := Js.orElse (em_genres (raw_media entry)) [];
     tags := map (fun t => {| tag_name := tag_name t; tag_rank := tag_rank t |})
                 (Js.orElse (em_tags (raw_media entry)) []) |}.

(** [(a, b) => b.score - a.score] on list entries. *)
Definition byScoreDesc (a b : ListEntry) : comparison :=
  Z.compare (score b) (score a).

(** The entries in fetch order, before [all.sort]. *)
Definition flattenLists (lists : list RawList) : list ListEntry :=
  flat_map (fun list => map (listEntryOf list) (entries list)) lists.

Definition fetchUserList (remote : Remote) (username : string)
  : M (list ListEntry) :=
  data <- gqlRequest (listServer remote username) ;;
  match data with
  | None => throw TypeError
  | Some None => throw TypeError
  | Some (Some lists) => ret (Js.sort byScoreDesc (flattenLists lists))
  end.

(* ===================================================================== *)
(** ** computeRecommendations, step 2: sets, seeds and profile *)
(* ===================================================================== *)

(** [e.status === "PLANNING"]. *)
Definition isPlanningEntry (e : ListEntry) : bool :=
  match status e with
  | Some s => String.eqb s "PLANNING"
  | None => false
  end.

Definition planningIds (userList : list ListEntry) : list Z :=
  map mediaId (filter isPlanningEntry userList).

Definition seenIds (userList : list ListEntry) : list Z :=
  map mediaId (filter (fun e => negb (isPlanningEntry e)) userList).

Definition topRated (userList : list ListEntry) : list ListEntry :=
  Js.slice0 (MAX_TOP_SOURCES + MAX_FAV_SOURCES)
    (filter (fun e => negb (isPlanningEntry e) && (0 <? score e)) userList).

Definition favouriteSet (favourites : list Favourite) : list Z :=
  map fav_id favourites.

Definition topOnly (favourites : list Favourite) (userList : list ListEntry)
  : list ListEntry :=
  Js.slice0 MAX_TOP_SOURCES
    (filter (fun e => negb (Js.setHas Z.eqb (mediaId e) (favouriteSet favourites)))
            (topRated userList)).

(** One step of the [userTagMap] loop. *)
Definition addTag (m : list (string * TagStat)) (tag : Tag)
  : list (string * TagStat) :=
  match Js.get String.eqb (tag_name tag) m with
  | Some ex =>
      Js.set String.eqb (tag_name tag)
        {| totalRank := totalRank ex + tag_rank tag; count := count ex + 1 |} m
  | None =>
      Js.set String.eqb (tag_name tag)
        {| totalRank := tag_rank tag; count := 1 |} m
  end.

Definition userTagMap (userList : list ListEntry) : list (string * TagStat) :=
  fold_left (fun m entry => fold_left addTag (tags entry) m) userList [].

(** [userGenreMap.set(g, (userGenreMap.get(g) || 0) + 1)]. *)
Definition addGenre (m : list (string * Z)) (g : string) : list (string * Z) :=
  Js.set String.eqb g (Js.orElse (Js.get String.eqb g m) 0 + 1) m.

Definition userGenreMap (userList : list ListEntry) : list (string * Z) :=
  fold_left (fun m entry => fold_left addGenre (genres entry) m) userList [].

(** The ten most frequent genres. *)
Definition topGenres (userList : list ListEntry) : list string :=
  map fst
    (Js.slice0 10
       (Js.sort (fun a b : string * Z => Z.compare (snd b) (snd a))
                (userGenreMap userList))).

(* ===================================================================== *)
(** ** Step 3: the tasks *)
(* ===================================================================== *)

Definition favouriteTask (fav : Favourite) : Task :=
  {| task_mediaId := fav_id fav; task_weight := WEIGHT_FAVOURITE;
     task_sourceTitle := Some (fav_title fav); task_type := "favori" |}.

Definition topRatedTask (entry : ListEntry) : Task :=
  {| task_mediaId := mediaId entry; task_weight := WEIGHT_TOP_RATED;
     task_sourceTitle := title entry; task_type := "top noté" |}.

Definition usedFavs (favourites : list Favourite) : list Favourite :=
  Js.slice0 MAX_FAV_SOURCES favourites.

Definition buildTasks (favourites : list Favourite) (userList : list ListEntry)
  : list Task :=
  map favouriteTask (usedFavs favourites)
  ++ map topRatedTask (topOnly favourites userList).

(* ===================================================================== *)
(** ** Step 4: fan-out and aggregation *)
(* ===================================================================== *)

Definition ScoreMap : Type := list (Z * Candidate).

Definition reasonOf (task : Task) : Reason :=
  {| sourceTitle := task_sourceTitle task; type := task_type task;
     weight := task_weight task |}.

(** The body of [for (const node of ...nodes)] for a non-null [media]. *)
Definition addHit (scoreMap : ScoreMap) (task : Task) (m : Media) : ScoreMap :=
  match Js.get Z.eqb (id m) scoreMap with
  | Some existing =>
      Js.set Z.eqb (id m)
        {| media := media existing;
           baseScore := baseScore existing + task_weight task;
           reasons := reasons existing ++ [reasonOf task] |} scoreMap
  | None =>
      Js.set Z.eqb (id m)
        {| media := m; baseScore := task_weight task;
           reasons := [reasonOf task] |} scoreMap
  end.

(** The [for ... of nodes] loop; [if (!media) continue]. *)
Definition addNodes (scoreMap : ScoreMap) (task : Task)
    (nodes : list (option Media)) : ScoreMap :=
  fold_left
    (fun sm node =>
       match node with
       | Some m => addHit sm task m
       | None => sm
       end)
    nodes scoreMap.

(** [chunk.forEach((task, i) => ...)], from index [i]:
    [if (!mediaData?.recommendations?.nodes) return]. *)
Fixpoint parseChunk (data : BatchData) (i : nat) (chunk : list Task)
    (scoreMap : ScoreMap) : ScoreMap :=
  match chunk with
  | [] => scoreMap
  | task :: rest =>
      let scoreMap' :=
        match nth_error data i with
        | Some (Some nodes) => addNodes scoreMap task nodes
        | _ => scoreMap
        end in
      parseChunk data (S i) rest scoreMap'
  end.

(** The [try { ... } catch (err) { console.warn(...) }] of one chunk.  A
    null [data] makes [data[`m0`]] throw before anything is written. *)
Definition processChunk (remote : Remote) (chunk : list Task)
    (scoreMap : ScoreMap) : M ScoreMap :=
  tryCatch
    (data <- gqlRequest (recommendationsServer remote (map task_mediaId chunk)) ;;
     match data, chunk with
     | None, _ :: _ => throw TypeError
     | None, [] => ret scoreMap
     | Some d, _ => ret (parseChunk d 0 chunk scoreMap)
     end)
    (fun err => warn err ;; ret scoreMap).

(** The chunks visited by [for (let c = 0; c < tasks.length; c += CHUNK)],
    [tasks.slice(c, c + CHUNK)] each; [fuel] bounds the iterations. *)
Fixpoint chunksFrom (fuel c : nat) (tasks : list Task) : list (list Task) :=
  match fuel with
  | O => []
  | S fuel' =>
      if (c <? List.length tasks)%nat
      then Js.slice c CHUNK tasks :: chunksFrom fuel' (c + CHUNK) tasks
      else []
  end.

Definition chunks (tasks : list Task) : list (list Task) :=
  chunksFrom (List.length tasks) 0 tasks.

Fixpoint forEachChunk (remote : Remote) (cs : list (list Task))
    (scoreMap : ScoreMap) : M ScoreMap :=
  match cs with
  | [] => ret scoreMap
  | chunk :: rest =>
      scoreMap' <- processChunk remote chunk scoreMap ;;
      forEachChunk remote rest scoreMap'
  end.

Definition fanout (remote : Remote) (tasks : list Task) : M ScoreMap :=
  forEachChunk remote (chunks tasks) [].

(* ===================================================================== *)
(** ** Step 5: filtering *)
(* ===================================================================== *)

(** [for (const [mediaId, entry] of scoreMap)]: skip the seen titles, flag
    the planned ones. *)
Fixpoint filterSeen (seen planning : list Z) (scoreMap : ScoreMap)
  : list (Candidate * bool) :=
  match scoreMap with
  | [] => []
  | (mediaId, entry) :: rest =>
      if Js.setHas Z.eqb mediaId seen
      then filterSeen seen planning rest
      else (entry, Js.setHas Z.eqb mediaId planning)
             :: filterSeen seen planning rest
  end.

(* ===================================================================== *)
(** ** Step 6: common tags, common genres and the bonus *)
(* ===================================================================== *)

(** The [common] array of one entry, before it is sorted. *)
Definition commonOf (tagMap : list (string * TagStat)) (m : Media)
  : list CommonTag :=
  flat_map
    (fun tag =>
       match Js.get String.eqb (tag_name tag) tagMap with
       | Some u =>
           [{| name := tag_name tag;
               strength := Js.roundDiv (totalRank u) (count u) |}]
       | None => []
       end)
    (Js.orElse (m_tags m) []).

(** [(a, b) => b.strength - a.strength]. *)
Definition byStrengthDesc (a b : CommonTag) : comparison :=
  Z.compare (strength b) (strength a).

Definition matchedGenres (top : list string) (m : Media) : list string :=
  filter (fun g => Js.setHas String.eqb g top) (Js.orElse (m_genres m) []).

(** The local [tagBonus]: [Math.min(common.length, 3) * TAG_BONUS]. *)
Definition tagPart (common : list CommonTag) : Q :=
  inject_Z (Z.min (Z.of_nat (List.length common)) 3) * TAG_BONUS.

(** The local [genreBonus]: [Math.min(matchedGenres.length, 3) * GENRE_BONUS]. *)
Definition genrePart (matched : list string) : Q :=
  inject_Z (Z.min (Z.of_nat (List.length matched)) 3) * GENRE_BONUS.

Definition refine (tagMap : list (string * TagStat)) (top : list string)
    (entry : Candidate * bool) : Result :=
  let common := Js.sort byStrengthDesc (commonOf tagMap (media (fst entry))) in
  let matched := matchedGenres top (media (fst entry)) in
  {| candidate := fst entry;
     isPlanning := snd entry;
     commonTags := Js.slice0 5 common;
     tagBonus := Js.toFixed1 (tagPart common + genrePart matched);
     finalScore :=
       Js.toFixed1 (inject_Z (baseScore (fst entry))
                    + tagPart common + genrePart matched) |}.

(* ===================================================================== *)
(** ** Step 7: sort and genre diversity *)
(* ===================================================================== *)

(** [(a, b) => b.score - a.score] on results. *)
Definition byFinalScoreDesc (a b : Result) : comparison :=
  Qcompare (finalScore b) (finalScore a).

(** [(entry.media.genres || [])[0] || "Unknown"]. *)
Definition primaryGenre (entry : Result) : string :=
  Js.orDefault (hd_error (Js.orElse (m_genres (media (candidate entry))) []))
               "Unknown".

(** The three accumulators of the re-rank loop. *)
Record Diversity :=
  { diversified : list Result;
    genreCount : list (string * Z);
    deferred : list Result }.

Definition diversityStep (st : Diversity) (entry : Result) : Diversity :=
  let g := primaryGenre entry in
  let count := Js.orElse (Js.get String.eqb g (genreCount st)) 0 in
  if count <? DIVERSITY_CAP then
    {| diversified := diversified st ++ [entry];
       genreCount := Js.set String.eqb g (count + 1) (genreCount st);
       deferred := deferred st |}
  else
    {| diversified := diversified st;
       genreCount := genreCount st;
       deferred := deferred st ++ [entry] |}.

Definition diversityPass (filtered : list Result) : Diversity :=
  fold_left diversityStep filtered
    {| diversified := []; genreCount := []; deferred := [] |}.

(** [[...diversified, ...deferred]]. *)
Definition diversify (filtered : list Result) : list Result :=
  diversified (diversityPass filtered) ++ deferred (diversityPass filtered).

(* ===================================================================== *)
(** ** The pipeline *)
(* ===================================================================== *)

(** Steps 5 and 6: the [filtered] array once every entry has its score. *)
Definition refined (userList : list ListEntry) (scoreMap : ScoreMap)
  : list Result :=
  map (refine (userTagMap userList) (topGenres userList))
      (filterSeen (seenIds userList) (planningIds userList) scoreMap).

(** Steps 5 to 7. *)
Definition finalResults (userList : list ListEntry) (scoreMap : ScoreMap)
  : list Result :=
  diversify (Js.sort byFinalScoreDesc (refined userList scoreMap)).

(** [await Promise.all([a, b])].  Both computations are started and both
    run to their end, whatever the other does: a rejection of one does not
    stop the requests of the other.  The result is the pair of the two
    values when both return, and the rejection that arrives first otherwise
    ([secondRejectsFirst] decides when both reject).  A computation that has
    not settled within its fuel leaves the outcome open.  The world holds
    the effects of both, those of [a] before those of [b]: the fetch count,
    the logout and the warnings do not depend on how the two interleave;
    only the order of the delays in [w_slept] does, and it is recorded as
    the delays of [a] followed by those of [b]. *)
Definition promiseAll {A B} (secondRejectsFirst : bool) (a : M A) (b : M B)
  : M (A * B) :=
  fun w =>
    (match fst (a w), fst (b (snd (a w))) with
     | Ok x, Ok y => Ok (x, y)
     | Throw e, Ok _ => Throw e
     | Ok _, Throw e => Throw e
     | Throw ea, Throw eb => Throw (if secondRejectsFirst then eb else ea)
     | _, _ => OutOfFuel
     end,
     snd (b (snd (a w)))).

(** [computeRecommendations(username)]. *)
Definition computeRecommendations (fuel : nat) (remote : Remote)
    (username : string) : M (list Result) :=
  reads <- promiseAll (listRejectsFirst remote username)
             (fetchAllFavourites fuel remote username)
             (fetchUserList remote username) ;;
  let favourites := fst reads in
  let userList := snd reads in
  scoreMap <- fanout remote (buildTasks favourites userList) ;;
  ret (finalResults userList scoreMap).

(* ===================================================================== *)
(** ** A sample remote catalogue *)
(* ===================================================================== *)

Module Sample.

Definition ok200 {A} (d : A) : Response A :=
  {| res_status := 200; retryAfterHeader := Absent;
     body := Some {| errors := []; data := Some d |} |}.

Definition limited {A} (h : Header) : Response A :=
  {| res_status := 429; retryAfterHeader := h; body := None |}.

Definition mkMedia (i : Z) (t : string) (gs : list string)
    (ts : list Tag) : Media :=
  {| id := i; m_title := {| romaji := Some t; english := None |};
     m_format := Some "TV"; m_meanScore := Some 80;
     m_genres := Some gs; m_tags := Some ts |}.

Definition tag (n : string) (r : Z) : Tag := {| tag_name := n; tag_rank := r |}.

(** Titles 1 and 2 are favourites; 1 and 3 are rated, 20 is planned. *)
Definition favPage : FavPage :=
  {| nodes :=
       [ {| node_id := 1;
            node_title := {| romaji := Some "Arufa"; english := Some "Alpha" |} |};
         {| node_id := 2;
            node_title := {| romaji := Some "Beta"; english := None |} |} ];
     hasNextPage := false |}.

Definition rawEntry (i s : Z) (gs : list string) (ts : list Tag) : RawEntry :=
  {| raw_mediaId := i; raw_score := s; raw_status := None;
     raw_media :=
       {| em_title := {| romaji := Some "r"; english := Some "Gamma" |};
          em_genres := Some gs; em_tags := Some ts |} |}.

Definition lists : list RawList :=
  [ {| list_status := Some "COMPLETED";
       entries :=
         [ rawEntry 1 10 ["Action"; "Drama"] [tag "Mecha" 90; tag "Space" 80];
           rawEntry 3 9 ["Action"] [tag "Mecha" 81; tag "Idol" 60] ] |};
    {| list_status := Some "PLANNING";
       entries := [ rawEntry 20 0 ["Comedy"] [tag "School" 70] ] |} ].

Definition X : Media := mkMedia 10 "X" ["Action"] [tag "Mecha" 50; tag "Idol" 10].
Definition Y : Media := mkMedia 20 "Y" ["Comedy"; "Drama"] [tag "Other" 50].
Definition B : Media := mkMedia 2 "Beta" [] [].
Definition Seen : Media := mkMedia 3 "Gamma" ["Action"] [].

(** Favourite 1 recommends X, favourite 2 and the seen title 3;
    favourite 2 recommends X and Y; the rated title 3 recommends Y. *)
Definition batch : BatchData :=
  [ Some [Some X; Some B; None; Some Seen];
    Some [Some X; Some Y];
    Some [Some Y] ].

Definition remote : Remote :=
  {| favouritesServer := fun _ _ _ => ok200 (Some favPage);
     listServer := fun _ _ => ok200 (Some lists);
     recommendationsServer := fun _ _ => ok200 batch;
     listRejectsFirst := fun _ => false |}.

(** The same catalogue behind a server that rate-limits every
    recommendation query for good. *)
Definition remoteLimited : Remote :=
  {| favouritesServer := fun _ _ _ => ok200 (Some favPage);
     listServer := fun _ _ => ok200 (Some lists);
     recommendationsServer := fun _ _ => limited Absent;
     listRejectsFirst := fun _ => false |}.

(** The stages of the run on [remote], evaluated. *)
Definition favourites : list Favourite :=
  Eval vm_compute in
    match fetchAllFavourites 5 remote "alice" freshWorld with
    | (Ok f, _) => f
    | _ => []
    end.

Definition userList : list ListEntry :=
  Eval vm_compute in
    match fetchUserList remote "alice" freshWorld with
    | (Ok l, _) => l
    | _ => []
    end.

Definition scoreMap : ScoreMap :=
  Eval vm_compute in
    match fanout remote (buildTasks favourites userList) freshWorld with
    | (Ok sm, _) => sm
    | _ => []
    end.

Definition world (n : nat) : World :=
  {| w_token := None; w_viewer := None; w_storage := [];
     w_slept := []; w_fetches := n; w_warned := [] |}.

(** A server that rate-limits every attempt, and one that answers the
    third attempt after two rate-limited ones carrying [Retry-After: 3]. *)
Definition alwaysLimited : Server Z := fun _ => limited Absent.

Definition hinted : Server Z :=
  fun k => if (k <? 2)%nat then limited (Numeric 3) else ok200 7.

(** A catalogue that does not know the user. *)
Definition remoteUnknown : Remote :=
  {| favouritesServer := fun _ _ _ => ok200 None;
     listServer := fun _ _ => ok200 (Some lists);
     recommendationsServer := fun _ _ => ok200 batch;
     listRejectsFirst := fun _ => false |}.

End Sample.

(* ===================================================================== *)
(** ** Vocabulary of the properties *)
(* ===================================================================== *)

(** [m] returns the same outcome from every world. *)
Definition oblivious {A} (m : M A) : Prop :=
  forall w1 w2, fst (m w1) = fst (m w2).

(** The outcome of a computation started in the fresh world. *)
Definition outcome {A} (m : M A) : Outcome A := fst (m freshWorld).

(** The delay slept after the rate-limited attempt [k]. *)
Definition delayOf {A} (srv : Server A) (k : nat) : Z :=
  backoff (retryAfterHeader (srv k)) k.

(** The world after [m] rate-limited attempts numbered [a], [a+1], ... *)
Definition afterRetries {A} (srv : Server A) (a m : nat) (w : World) : World :=
  {| w_token := w_token w; w_viewer := w_viewer w; w_storage := w_storage w;
     w_slept := w_slept w ++ map (delayOf srv) (seq a m);
     w_fetches := w_fetches w + m; w_warned := w_warned w |}.

(** The world after one more [fetch]. *)
Definition fetched (w : World) : World :=
  {| w_token := w_token w; w_viewer := w_viewer w; w_storage := w_storage w;
     w_slept := w_slept w; w_fetches := S (w_fetches w);
     w_warned := w_warned w |}.

(** The world after [console.warn(err)]. *)
Definition warned (e : Error) (w : World) : World :=
  {| w_token := w_token w; w_viewer := w_viewer w; w_storage := w_storage w;
     w_slept := w_slept w; w_fetches := w_fetches w;
     w_warned := w_warned w ++ [e] |}.

(** The non-null recommendations among the nodes of one seed. *)
Definition present (nodes : list (option Media)) : list Media :=
  flat_map (fun node => match node with Some m => [m] | None => [] end) nodes.

(** What the answer [data] lists for each seed of a chunk, the seed at
    position [i] of the chunk being answered under the alias [m<i>]. *)
Fixpoint listedFrom (data : BatchData) (i : nat) (chunk : list Task)
  : list (Task * list Media) :=
  match chunk with
  | [] => []
  | task :: rest =>
      (task,
       match nth_error data i with
       | Some (Some nodes) => present nodes
       | _ => []
       end) :: listedFrom data (S i) rest
  end.

(** The recommendation batch of each seed of a chunk: what the remote listed
    for it, and nothing when the chunk's call failed. *)
Definition listedChunk (remote : Remote) (chunk : list Task)
  : list (Task * list Media) :=
  match outcome (gqlRequest (recommendationsServer remote (map task_mediaId chunk))) with
  | Ok (Some data) => listedFrom data 0 chunk
  | _ => map (fun task => (task, [])) chunk
  end.

(** Every seed with its recommendation batch, in task order. *)
Definition listed (remote : Remote) (tasks : list Task)
  : list (Task * list Media) :=
  flat_map (listedChunk remote) (chunks tasks).

(** The (seed, recommended title) pairs, in processing order. *)
Definition hitsOf (batches : list (Task * list Media)) : list (Task * Media) :=
  flat_map (fun b => map (pair (fst b)) (snd b)) batches.

(** The score map obtained by processing the hits in the given order. *)
Definition aggregate (hits : list (Task * Media)) (scoreMap : ScoreMap)
  : ScoreMap :=
  fold_left (fun sm h => addHit sm (fst h) (snd h)) hits scoreMap.

(** The hits that name the title [k]. *)
Definition hitsFor (k : Z) (hits : list (Task * Media)) : list (Task * Media) :=
  filter (fun h => id (snd h) =? k) hits.

(** The sum of the weights of the seeds of the given hits. *)
Definition sumWeights (hits : list (Task * Media)) : Z :=
  fold_right (fun h acc => task_weight (fst h) + acc) 0 hits.

(** The seeds whose batch lists the title [k]. *)
Definition seedsListing (k : Z) (batches : list (Task * list Media))
  : list Task :=
  map fst (filter (fun b => existsb (fun m => id m =? k) (snd b)) batches).


(** [x] may stand before [y] in an array sorted by [cmp]. *)
Definition notAfter {A : Type} (cmp : A -> A -> comparison) (x y : A) : Prop :=
  cmp x y <> Gt.

(** The sum of the weights of a list of seeds. *)
Definition totalWeight (seeds : list Task) : Z :=
  fold_right (fun task acc => task_weight task + acc) 0 seeds.

(** Every entry of the score map is stored under the id of its payload. *)
Definition keyed (scoreMap : ScoreMap) : Prop :=
  forall k c, In (k, c) scoreMap -> id (media c) = k.


(** [l] splits into [a] and [b], each keeping its relative order. *)
Inductive Interleave {A : Type} : list A -> list A -> list A -> Prop :=
| Interleave_nil : Interleave [] [] []
| Interleave_left x a b l : Interleave a b l -> Interleave (x :: a) b (x :: l)
| Interleave_right x a b l : Interleave a b l -> Interleave a (x :: b) (x :: l).

(** The primary genre in the words of the specification: the first element
    of the genre list, or "Unknown" when the list is empty. *)
Definition firstGenre (entry : Result) : string :=
  hd "Unknown" (Js.orElse (m_genres (media (candidate entry))) []).

(** How many entries of [l] have [g] as primary genre, by [primaryGenre] and
    by [firstGenre]. *)
Definition genreLoad (g : string) (l : list Result) : nat :=
  List.length (filter (fun e => String.eqb (primaryGenre e) g) l).

Definition firstGenreLoad (g : string) (l : list Result) : nat :=
  List.length (filter (fun e => String.eqb (firstGenre e) g) l).

(** Descending final score. *)
Definition scoreDesc (a b : Result) : Prop := (finalScore b <= finalScore a)%Q.


(** The tags of a title that the user's profile also holds. *)
Definition sharedTags (tagMap : list (string * TagStat)) (m : Media) : list Tag :=
  filter (fun tag => Js.has String.eqb (tag_name tag) tagMap)
         (Js.orElse (m_tags m) []).

(** The locals [tagBonus] and [genreBonus] of step 6 for one entry. *)
Definition tagComponent (tagMap : list (string * TagStat))
    (entry : Candidate * bool) : Q :=
  tagPart (Js.sort byStrengthDesc (commonOf tagMap (media (fst entry)))).

Definition genreComponent (top : list string) (entry : Candidate * bool) : Q :=
  genrePart (matchedGenres top (media (fst entry))).

(** Descending strength. *)
Definition strengthDesc (a b : CommonTag) : Prop := strength b <= strength a.


(** [e.status !== "PLANNING" && e.score > 0]. *)
Definition ratedEntry (e : ListEntry) : bool :=
  negb (isPlanningEntry e) && (0 <? score e).

(** [!favouriteSet.has(e.mediaId)]. *)
Definition nonFavourite (favourites : list Favourite) (e : ListEntry) : bool :=
  negb (Js.setHas Z.eqb (mediaId e) (favouriteSet favourites)).

(** The rated entries by descending score, fetch order breaking ties;
    [fetched] is the list in fetch order. *)
Definition rankedRated (fetched : list ListEntry) : list ListEntry :=
  Js.sort byScoreDesc (filter ratedEntry fetched).

(** Descending list score. *)
Definition listScoreDesc (a b : ListEntry) : Prop := score b <= score a.

(** The seed set in the words of the specification: the first 15
    favourites at the favourite weight, plus the highest-scoring rated,
    non-favourite, non-planning entries with score > 0, capped at 10, at the
    top-rated weight. *)
Definition claimedSeeds (favourites : list Favourite)
    (fetched : list ListEntry) : list Task :=
  map favouriteTask (firstn 15 favourites)
  ++ map topRatedTask
       (firstn 10 (filter (nonFavourite favourites) (rankedRated fetched))).

(** The seed set of the code: the rated part is drawn from the 25
    highest-ranked rated entries only. *)
Definition windowSeeds (favourites : list Favourite)
    (fetched : list ListEntry) : list Task :=
  map favouriteTask (firstn 15 favourites)
  ++ map topRatedTask
       (firstn 10 (filter (nonFavourite favourites)
                          (firstn 25 (rankedRated fetched)))).

(** A user with 16 favourites, all rated 10, and 10 other titles rated 9. *)
Module ManyFavourites.

Definition favourites : list Favourite :=
  map (fun i => favouriteOfNode
                  {| node_id := Z.of_nat i;
                     node_title := {| romaji := Some "F"; english := None |} |})
      (seq 1 16).

Definition lists : list RawList :=
  [ {| list_status := Some "COMPLETED";
       entries :=
         map (fun i => Sample.rawEntry (Z.of_nat i) 10 [] []) (seq 1 16)
         ++ map (fun i => Sample.rawEntry (Z.of_nat i) 9 [] []) (seq 101 10) |} ].

Definition fetched : list ListEntry := flattenLists lists.

Definition userList : list ListEntry := Js.sort byScoreDesc fetched.

End ManyFavourites.


(** A title record with neither an english nor a romaji title. *)
Definition untitled : Title := {| romaji := None; english := None |}.


(** The update of [addHit] seen from the entry of the title that is hit. *)
Definition mergeHit (c : option Candidate) (h : Task * Media) : Candidate :=
  match c with
  | Some existing =>
      {| media := media existing;
         baseScore := baseScore existing + task_weight (fst h);
         reasons := reasons existing ++ [reasonOf (fst h)] |}
  | None =>
      {| media := snd h; baseScore := task_weight (fst h);
         reasons := [reasonOf (fst h)] |}
  end.

(** The counters of the loop count the placed entries, and never pass the
    cap. *)
Definition countersOk (st : Diversity) : Prop :=
  forall g,
    Js.orElse (Js.get String.eqb g (genreCount st)) 0
    = Z.of_nat (genreLoad g (diversified st))
    /\ Z.of_nat (genreLoad g (diversified st)) <= DIVERSITY_CAP.

(** The scenarios of the specification: a profile of four tags and a title
    that carries all of them; eight titles of primary genre "Action". *)
Module Scenario.

Definition tagMap : list (string * TagStat) :=
  [ ("Mecha", {| totalRank := 90; count := 1 |});
    ("Space", {| totalRank := 160; count := 2 |});
    ("Idol", {| totalRank := 70; count := 1 |});
    ("School", {| totalRank := 121; count := 2 |}) ].

Definition fourTags : Candidate * bool :=
  ({| media := Sample.mkMedia 7 "Seven" ["Action"; "Drama"; "Comedy"; "Sports"]
                 [Sample.tag "School" 10; Sample.tag "Mecha" 20;
                  Sample.tag "Idol" 30; Sample.tag "Unknown tag" 40;
                  Sample.tag "Space" 50];
      baseScore := 4;
      reasons := [] |}, false).

Definition action (i : Z) (s : Q) : Result :=
  {| candidate := {| media := Sample.mkMedia i "A" ["Action"] [];
                     baseScore := 1; reasons := [] |};
     isPlanning := false; commonTags := []; tagBonus := 0;
     finalScore := s |}.

Definition eightActions : list Result :=
  [ action 1 (80 # 10); action 2 (70 # 10); action 3 (60 # 10);
    action 4 (50 # 10); action 5 (40 # 10); action 6 (30 # 10);
    action 7 (20 # 10); action 8 (10 # 10) ].

End Scenario.


(* ===================================================================== *)
(** ** Vocabulary of the further properties *)
(* ===================================================================== *)

(** The storage keys that [AuthManager.logout] removes. *)
Definition authKey (k : string) : bool :=
  existsb (String.eqb k) ["anilistToken"; "anilistViewer"; "recoCache"].

(** What [AuthManager] holds: the token, the viewer and the stored keys. *)
Definition auth (w : World) : option string * option string * list string :=
  (w_token w, w_viewer w, w_storage w).

(** The session after a logout started from [w]. *)
Definition loggedOutFrom (w : World)
  : option string * option string * list string :=
  (None, None, filter (fun k => negb (authKey k)) (w_storage w)).

(** What a computation may do to the session: it leaves it alone, or it
    logs out, and then it either throws TOKEN_EXPIRED or has warned about
    a TOKEN_EXPIRED it caught; its warnings are appended to the console;
    and it never throws TOKEN_EXPIRED without having logged out. *)
Definition sessionEffect {A} (m : M A) : Prop :=
  forall w,
    exists new,
      w_warned (snd (m w)) = w_warned w ++ new
      /\ (auth (snd (m w)) = auth w
          \/ (auth (snd (m w)) = loggedOutFrom w
              /\ (fst (m w) = Throw TokenExpired \/ In TokenExpired new)))
      /\ (fst (m w) = Throw TokenExpired -> auth (snd (m w)) = loggedOutFrom w).

(** A server that rejects the token. *)
Definition invalidToken {A} : Response A :=
  {| res_status := 400; retryAfterHeader := Absent;
     body := Some {| errors := ["Invalid token"]; data := None |} |}.

(** The catalogue of [ManyFavourites] (24 seeds, two chunks) behind a
    server that answers the first chunk and rejects the token on the
    second. *)
Definition remoteExpiring : Remote :=
  {| favouritesServer :=
       fun _ _ _ =>
         Sample.ok200
           (Some {| nodes :=
                      map (fun i => {| node_id := Z.of_nat i;
                                       node_title :=
                                         {| romaji := Some "F"; english := None |} |})
                          (seq 1 16);
                    hasNextPage := false |});
     listServer := fun _ _ => Sample.ok200 (Some ManyFavourites.lists);
     recommendationsServer :=
       fun ids _ =>
         match ids with
         | 1 :: _ => Sample.ok200 Sample.batch
         | _ => invalidToken
         end;
     listRejectsFirst := fun _ => false |}.

(** A signed-in world. *)
Definition signedIn : World :=
  {| w_token := Some "token"; w_viewer := Some "alice";
     w_storage := ["anilistToken"; "anilistViewer"; "anilistUsername"; "recoCache"];
     w_slept := []; w_fetches := 0; w_warned := [] |}.


(** The sum of a list of delays. *)
Definition totalDelay (delays : list Z) : Z := fold_right Z.add 0 delays.


(** The nodes of the favourites pages 1 .. n, in page order. *)
Definition nodesOfPages (pages : nat -> FavPage) (first n : nat) : list FavNode :=
  flat_map (fun k => nodes (pages k)) (seq first n).

(** A catalogue whose favourites come in three pages; the third page of
    [remoteBrokenPage] is an unknown user. *)
Definition threePages (k : nat) : FavPage :=
  {| nodes := [ {| node_id := Z.of_nat (10 * k);
                   node_title := {| romaji := Some "R"; english := None |} |};
                {| node_id := Z.of_nat (10 * k + 1); node_title := untitled |} ];
     hasNextPage := (k <? 3)%nat |}.

Definition remotePaged : Remote :=
  {| favouritesServer := fun _ k _ => Sample.ok200 (Some (threePages k));
     listServer := fun _ _ => Sample.ok200 (Some []);
     recommendationsServer := fun _ _ => Sample.ok200 [];
     listRejectsFirst := fun _ => false |}.

Definition remoteBrokenPage : Remote :=
  {| favouritesServer :=
       fun _ k _ => if (k <? 3)%nat then Sample.ok200 (Some (threePages k))
                    else Sample.ok200 None;
     listServer := fun _ _ => Sample.ok200 (Some []);
     recommendationsServer := fun _ _ => Sample.ok200 [];
     listRejectsFirst := fun _ => false |}.


(** The occurrences of the tag [name] over the whole rated list, and the
    sum of their ranks. *)
Definition tagOccurrences (name : string) (userList : list ListEntry) : list Tag :=
  filter (fun t => String.eqb (tag_name t) name) (flat_map tags userList).

Definition sumRanks (occurrences : list Tag) : Z :=
  fold_right (fun t acc => tag_rank t + acc) 0 occurrences.

(** How many times the genre [g] occurs over the whole rated list. *)
Definition genreFrequency (g : string) (userList : list ListEntry) : Z :=
  Z.of_nat (List.length (filter (String.eqb g) (flat_map genres userList))).

(** One step of the [userTagMap] loop seen from the entry of one name. *)
Definition addStat (st : option TagStat) (t : Tag) : option TagStat :=
  match st with
  | Some ex =>
      Some {| totalRank := totalRank ex + tag_rank t; count := count ex + 1 |}
  | None => Some {| totalRank := tag_rank t; count := 1 |}
  end.


(** The title id of a result. *)
Definition resultId (r : Result) : Z := id (media (candidate r)).

(** The sum of the weights shown in a list of reasons. *)
Definition sumReasonWeights (rs : list Reason) : Z :=
  fold_right (fun r acc => weight r + acc) 0 rs.


(* ===================================================================== *)
(** ** App: filters and cache *)
(* ===================================================================== *)

Definition CACHE_TTL_MS : Z := 24 * 60 * 60 * 1000.

(** [(r.media.genres || []).includes(activeGenre)]. *)
Definition matchesGenre (activeGenre : string) (r : Result) : bool :=
  existsb (String.eqb activeGenre)
          (Js.orElse (m_genres (media (candidate r))) []).

(** [r.media.format === activeFormat]. *)
Definition matchesFormat (activeFormat : string) (r : Result) : bool :=
  match m_format (media (candidate r)) with
  | Some f => String.eqb f activeFormat
  | None => false
  end.

(** [App._filter]: the list handed to [_renderCurrent]. *)
Definition App_filter (allRecs : list Result)
    (activeGenre activeFormat : string) : list Result :=
  let f := allRecs in
  let f := if negb (String.eqb activeGenre "all")
           then filter (matchesGenre activeGenre) f else f in
  let f := if negb (String.eqb activeFormat "all")
           then filter (matchesFormat activeFormat) f else f in
  f.

(** The members of the [genres] and [formats] sets of [App._show], from
    which the filter chips are made. *)
Definition genreChips (results : list Result) : list string :=
  flat_map (fun r => Js.orElse (m_genres (media (candidate r))) []) results.

Definition formatChips (results : list Result) : list string :=
  flat_map (fun r => if Js.truthy (m_format (media (candidate r)))
                     then [Js.orDefault (m_format (media (candidate r))) ""]
                     else [])
           results.

(** The value stored under [recoCache]. *)
Record CachePayload :=
  { cache_username : string;
    cache_results : list Result;
    cache_timestamp : Z }.

(** [App._saveCache] on the [recoCache] slot of the storage, at time [now];
    [writable] tells whether [chrome.storage.local.set] succeeds (a failure
    is caught and warned about). *)
Definition saveCache (username : string) (results : list Result) (now : Z)
    (writable : bool) (slot : option CachePayload) : option CachePayload :=
  if writable
  then Some {| cache_username := Js.toLowerCase username;
               cache_results := results;
               cache_timestamp := now |}
  else slot.

(** [App._loadCache]. *)
Definition loadCache (username : string) (slot : option CachePayload)
  : option CachePayload :=
  match slot with
  | Some recoCache =>
      if String.eqb (cache_username recoCache) (Js.toLowerCase username)
         && (0 <? Z.of_nat (List.length (cache_results recoCache)))
      then Some recoCache
      else None
  | None => None
  end.

(** [App._showCacheAge] at time [now], with the stale banner in the page:
    [Some hours] when the banner is shown with that number of hours, [None]
    when it is hidden. *)
Definition showCacheAge (now timestamp : Z) : option Z :=
  let age := now - timestamp in
  let isStale := CACHE_TTL_MS <? age in
  if isStale then Some (Js.roundDiv age (1000 * 60 * 60)) else None.


(* ===================================================================== *)
(** ** Adding a title to the planning list *)
(* ===================================================================== *)

(** [AuthManager.isLoggedIn]: [!!this._token && !!this._viewer]; the viewer
    is an object, truthy whenever it is not null. *)
Definition isLoggedIn (w : World) : bool :=
  Js.truthy (w_token w)
  && match w_viewer w with Some _ => true | None => false end.

(** What a call of [RecommendationEngine.addToPlanning] comes to: the error
    "Connectez-vous pour ajouter un anime." thrown before any request, or
    the outcome of the SAVE_MEDIA request. *)
Inductive Planning (A : Type) :=
| LoginRequired
| Requested (o : Outcome (option A)).
Arguments LoginRequired {A}.
Arguments Requested {A} o.

(** [RecommendationEngine.addToPlanning]; [saveServer] answers the
    SAVE_MEDIA mutation for a media id. *)
Definition addToPlanning {A} (saveServer : Z -> Server A) (mediaId : Z)
    (w : World) : Planning A * World :=
  if negb (isLoggedIn w) then (LoginRequired, w)
  else (Requested (fst (gqlRequest (saveServer mediaId) w)),
        snd (gqlRequest (saveServer mediaId) w)).


(* ===================================================================== *)
(** * The debug page (debug.js) *)
(* ===================================================================== *)

(** The debug page runs in a tab of its own, without [AuthManager].  What
    it does is recorded as a trace of events; a computation is its answer
    together with the events it produced, oldest first. *)
Module DebugPage.

(** [MAX_RETRIES] of debug.js. *)
Definition MAX_RETRIES : nat := 5.

(** The four queries of the page with their variables. *)
Inductive Query :=
| Q_FAVOURITES (username : string) (page : nat)
| Q_MEDIA_DETAILS (ids : list Z)
| Q_LIST (username : string)
| Q_RECS (mediaId : Z) (page : nat).

Inductive Event :=
| Timeout (ms : Z)                          (* await new Promise(r => setTimeout(r, ms)) *)
| Fetch (q : Query) (attempt : nat)         (* await fetch(API, ...) *)
| WarnRetry (status : Z) (retry : nat) (delay : Z)   (* console.warn of a retry *)
| WarnSample.                               (* console.warn("Sample recs failed:", e) *)

Inductive Failure :=
| Overloaded                     (* "API AniList surchargee (trop de requetes). ..." *)
| HttpError (status : Z)         (* "Erreur API: <status> <statusText>" *)
| InvalidJson                    (* res.json() rejects *)
| GraphQL (msg : string)         (* the messages of json.errors, joined *)
| NotFound (username : string)   (* Utilisateur "<username>" introuvable *)
| NullAccess.                    (* TypeError: property access on null *)

Inductive Answer (A : Type) :=
| Returned (a : A)
| Thrown (e : Failure)
| Unfinished.
Arguments Returned {A} a.
Arguments Thrown {A} e.
Arguments Unfinished {A}.

Definition W (A : Type) : Type := Answer A * list Event.

Definition ret {A} (a : A) : W A := (Returned a, []).

Definition bind {A B} (m : W A) (k : A -> W B) : W B :=
  match m with
  | (Returned a, t) => (fst (k a), t ++ snd (k a))
  | (Thrown e, t) => (Thrown e, t)
  | (Unfinished, t) => (Unfinished, t)
  end.

Definition throw {A} (e : Failure) : W A := (Thrown e, []).

Definition unfinished {A} : W A := (Unfinished, []).

Definition tell (e : Event) : W unit := (Returned tt, [e]).

(** [try { m } catch (e) { h e }]. *)
Definition tryCatch {A} (m : W A) (h : Failure -> W A) : W A :=
  match m with
  | (Thrown e, t) => (fst (h e), t ++ snd (h e))
  | r => r
  end.

Declare Scope page_scope.
Notation "x <- m ;; k" := (bind m (fun x => k))
  (at level 61, m at next level, right associativity) : page_scope.
Notation "m ;; k" := (bind m (fun _ => k))
  (at level 61, right associativity) : page_scope.
Local Open Scope page_scope.

(** A parsed body: [json.errors] ([None] when the field is missing or
    null; an array, even an empty one, is truthy) and [json.data]. *)
Record Body (A : Type) :=
  { body_errors : option (list string); body_data : option A }.
Arguments body_errors {A} _.
Arguments body_data {A} _.

(** An HTTP response; [reply_json = None] when [res.json()] rejects. *)
Record Reply (A : Type) :=
  { reply_status : Z; reply_json : option (Body A) }.
Arguments reply_status {A} _.
Arguments reply_json {A} _.

(** The remote side of one query: the response to its n-th attempt. *)
Definition Server (A : Type) : Type := nat -> Reply A.

(** [res.status === 429 || res.status === 500]. *)
Definition retried {A} (res : Reply A) : bool :=
  (reply_status res =? 429) || (reply_status res =? 500).

(** [res.ok]. *)
Definition reply_ok {A} (res : Reply A) : bool :=
  (200 <=? reply_status res) && (reply_status res <=? 299).

(** [Math.min(2000 * Math.pow(2, attempt), 30000)]. *)
Definition delay (attempt : nat) : Z :=
  Z.min (2000 * 2 ^ Z.of_nat attempt) 30000.

(** What follows the retry test in [gql]. *)
Definition answer {A} (res : Reply A) : W (option A) :=
  if negb (reply_ok res) then throw (HttpError (reply_status res))
  else
    match reply_json res with
    | None => throw InvalidJson
    | Some json =>
        match body_errors json with
        | Some msgs => throw (GraphQL (Js.join ", " msgs))
        | None => ret (body_data json)
        end
    end.

(** [gql(query, variables, attempt)]; [fuel] bounds the recursion depth and
    is never exhausted from [gql]. *)
Fixpoint gqlFrom {A} (fuel : nat) (q : Query) (srv : Server A) (attempt : nat)
  : W (option A) :=
  match fuel with
  | O => unfinished
  | S fuel' =>
      tell (Timeout (if (attempt =? 0)%nat then 300 else 0)) ;;
      tell (Fetch q attempt) ;;
      let res := srv attempt in
      if retried res then
        if (MAX_RETRIES <=? attempt)%nat then throw Overloaded
        else
          tell (WarnRetry (reply_status res) (S attempt) (delay attempt)) ;;
          tell (Timeout (delay attempt)) ;;
          gqlFrom fuel' q srv (S attempt)
      else answer res
  end.

Definition gql {A} (q : Query) (srv : Server A) : W (option A) :=
  gqlFrom (S MAX_RETRIES) q srv 0.

(** [getTitle(media)]: [media.title.english || media.title.romaji || "#" + media.id]. *)
Definition getTitle (m : Media) : string :=
  Js.orDefault (Js.or (english (m_title m)) (romaji (m_title m)))
               (hashId (id m)).

(** One node of [Media.recommendations.nodes]. *)
Record RecNode := { rating : Z; mediaRecommendation : option Media }.


(** The remote catalogue, one server per query: the [User] field of the
    favourites answer (null for an unknown user) by name and page, the
    [Page.media] field of the details answer by ids, the
    [MediaListCollection.lists] field of the list answer by name, and the
    [Media.recommendations.nodes] field of the recommendations answer by
    media id.  A null [json.data] is an answer of every server; below the
    named fields the answers are well formed. *)
Record Catalogue :=
  { favouritesOf : string -> nat -> Server (option FavPage);
    detailsOf : list Z -> Server (list Media);
    listOf : string -> Server (list RawList);
    recsOf : Z -> Server (list RecNode) }.

(** Step 1: [while (hasNext && page <= 10)]; [fuel] bounds the iterations
    and is never exhausted from [favNodes]. *)
Fixpoint favLoop (fuel : nat) (cat : Catalogue) (username : string)
    (page : nat) (hasNext : bool) (favNodes : list FavNode)
  : W (list FavNode) :=
  match fuel with
  | O => unfinished
  | S fuel' =>
      if hasNext && (page <=? 10)%nat then
        data <- gql (Q_FAVOURITES username page)
                    (favouritesOf cat username page) ;;
        match data with
        | None => throw NullAccess
        | Some None => throw (NotFound username)
        | Some (Some anime) =>
            favLoop fuel' cat username (S page) (hasNextPage anime)
                    (favNodes ++ nodes anime)
        end
      else ret favNodes
  end.

Definition favNodes (cat : Catalogue) (username : string) : W (list FavNode) :=
  favLoop 11 cat username 1 true [].

(** Step 2: the batches [favIds.slice(i, i + 50)] of
    [for (let i = 0; i < favIds.length; i += 50)]. *)
Fixpoint batchesFrom (fuel i : nat) (favIds : list Z) : list (list Z) :=
  match fuel with
  | O => []
  | S fuel' =>
      if (i <? List.length favIds)%nat
      then Js.slice i 50 favIds :: batchesFrom fuel' (i + 50) favIds
      else []
  end.

Definition batches (favIds : list Z) : list (list Z) :=
  batchesFrom (List.length favIds) 0 favIds.


(** Step 3: [entry.status = entry.status || list.status]. *)
Definition withStatus (list : RawList) (entry : RawEntry) : RawEntry :=
  {| raw_mediaId := raw_mediaId entry;
     raw_score := raw_score entry;
     raw_status := Js.or (raw_status entry) (list_status list);
     raw_media := raw_media entry |}.

(** [(a, b) => b.score - a.score] on the entries of the page. *)
Definition byScore (a b : RawEntry) : comparison :=
  Z.compare (raw_score b) (raw_score a).

Definition allEntries (lists : list RawList) : list RawEntry :=
  Js.sort byScore
    (flat_map (fun list => map (withStatus list) (entries list)) lists).













(** [renderAll]: the lists behind the tables of the page. *)
Definition isPlanning (e : RawEntry) : bool :=
  match raw_status e with
  | Some s => String.eqb s "PLANNING"
  | None => false
  end.

Definition top50 (es : list RawEntry) : list RawEntry :=
  Js.slice0 50 (filter (fun e => negb (isPlanning e) && (0 <? raw_score e)) es).

Definition planning (es : list RawEntry) : list RawEntry :=
  filter isPlanning es.

Definition favIds (favourites : list Media) : list Z := map id favourites.

Definition topOnly (favourites : list Media) (es : list RawEntry)
  : list RawEntry :=
  filter (fun e => negb (Js.setHas Z.eqb (raw_mediaId e) (favIds favourites)))
         (top50 es).

Close Scope page_scope.

End DebugPage.


(** ** Vocabulary of the debug page's properties *)

(** What one retry adds to the trace of [gql]: the warning, the wait, then
    the next attempt with its zero timeout. *)
Definition retryStep {A} (q : DebugPage.Query) (srv : DebugPage.Server A)
    (k : nat) : list DebugPage.Event :=
  [ DebugPage.WarnRetry (DebugPage.reply_status (srv k)) (S k) (DebugPage.delay k);
    DebugPage.Timeout (DebugPage.delay k);
    DebugPage.Timeout 0;
    DebugPage.Fetch q (S k) ].

(** The total time waited in a trace, and its number of requests. *)
Definition waited (t : list DebugPage.Event) : Z :=
  fold_right (fun e acc => match e with
                           | DebugPage.Timeout ms => ms + acc
                           | _ => acc
                           end) 0 t.

Definition requests (t : list DebugPage.Event) : nat :=
  List.length (filter (fun e => match e with
                                | DebugPage.Fetch _ _ => true
                                | _ => false
                                end) t).

(** A server that is always overloaded, and one that fails twice with 500
    before it answers. *)
Definition overloaded {A} : DebugPage.Server A :=
  fun _ => {| DebugPage.reply_status := 429; DebugPage.reply_json := None |}.

Definition recovering : DebugPage.Server Z :=
  fun k => if (k <? 2)%nat
           then {| DebugPage.reply_status := 500; DebugPage.reply_json := None |}
           else {| DebugPage.reply_status := 200;
                   DebugPage.reply_json :=
                     Some {| DebugPage.body_errors := None;
                             DebugPage.body_data := Some 7 |} |}.


(** A reply 200 with [data] and no [errors]. *)
Definition replied {A} (d : A) : DebugPage.Reply A :=
  {| DebugPage.reply_status := 200;
     DebugPage.reply_json :=
       Some {| DebugPage.body_errors := None; DebugPage.body_data := Some d |} |}.

(** An account whose favourites never end: every page holds one title and
    announces a next page. *)
Definition endlessPage (k : nat) : FavPage :=
  {| nodes := [ {| node_id := Z.of_nat k; node_title := untitled |} ];
     hasNextPage := true |}.

Definition endless : DebugPage.Catalogue :=
  {| DebugPage.favouritesOf := fun _ k _ => replied (Some (endlessPage k));
     DebugPage.detailsOf := fun _ _ => replied [];
     DebugPage.listOf := fun _ _ => replied [];
     DebugPage.recsOf := fun _ _ => replied [] |}.


(** What [fetchUserList] returns in the popup when the list query answers
    [lists]. *)
Definition engineList (lists : list RawList) : list ListEntry :=
  Js.sort byScoreDesc (flattenLists lists).

(** The popup's record for an entry of the debug page. *)
Definition engineEntry (e : RawEntry) : ListEntry :=
  {| mediaId := raw_mediaId e;
     score := raw_score e;
     status := raw_status e;
     title := Js.or (english (em_title (raw_media e)))
                    (romaji (em_title (raw_media e)));
     genres := Js.orElse (em_genres (raw_media e)) [];
     tags := map (fun t => {| tag_name := tag_name t; tag_rank := tag_rank t |})
                 (Js.orElse (em_tags (raw_media e)) []) |}.


(** The details of the favourites of [ManyFavourites], as the debug page
    holds them. *)
Definition manyFavouriteDetails : list Media :=
  map (fun i => Sample.mkMedia (Z.of_nat i) "F" [] []) (seq 1 16).


(* ===================================================================== *)
(** ** App._run *)
(* ===================================================================== *)

(** The popup state that [_run] reads and writes: the world of the engine
    and the value stored under [recoCache].  The world holds the stored
    keys, so the value counts only while its key is held: a logout removes
    the key. *)
Record AppState :=
  { app_world : World;
    recoCache : option CachePayload }.

(** Whether [chrome.storage.local] holds the key [k]. *)
Definition hasKey (k : string) (w : World) : bool :=
  existsb (String.eqb k) (w_storage w).

(** [chrome.storage.local.set({ [k]: ... })] on the stored keys. *)
Definition storeKey (k : string) (w : World) : World :=
  {| w_token := w_token w; w_viewer := w_viewer w;
     w_storage := if hasKey k w then w_storage w else w_storage w ++ [k];
     w_slept := w_slept w; w_fetches := w_fetches w;
     w_warned := w_warned w |}.

(** [(await chrome.storage.local.get("recoCache")).recoCache]. *)
Definition storedCache (st : AppState) : option CachePayload :=
  if hasKey "recoCache" (app_world st) then recoCache st else None.

(** The readings of [Date.now()] that a run uses: in [_saveCache], as the
    argument of [_showCacheAge(Date.now())], and inside [_showCacheAge]. *)
Record Clock := { atSave : Z; atShow : Z; atAge : Z }.

(** What [_run] leaves on the screen. *)
Inductive Screen :=
| AskName                      (* "Entrez un pseudo ou connectez-vous." *)
| Results (results : list Result) (staleHours : option Z)
                               (* _show(results) and _showCacheAge *)
| NoRecommendation             (* "Aucune recommandation. ..." *)
| SessionExpired               (* showLoggedOut, "Session expiree ..." *)
| RunFailed (e : Error)        (* showError(err.message) *)
| Loading.                     (* the run has not returned *)

(** [App._run(forceRefresh)] for the trimmed content [username] of the
    input; [writable] tells whether writes to [chrome.storage.local]
    succeed. *)
Definition App_run (fuel : nat) (remote : Remote) (clock : Clock)
    (writable forceRefresh : bool) (username : string) (st : AppState)
  : Screen * AppState :=
  if negb (Js.truthy (Some username)) then (AskName, st)
  else
    let st1 :=
      {| app_world := if writable
                      then storeKey "anilistUsername" (app_world st)
                      else app_world st;
         recoCache := recoCache st |} in
    match (if forceRefresh then None
           else loadCache username (storedCache st1)) with
    | Some cached =>
        (Results (cache_results cached)
                 (showCacheAge (atAge clock) (cache_timestamp cached)),
         st1)
    | None =>
        match computeRecommendations fuel remote username (app_world st1) with
        | (Ok [], w) =>
            (NoRecommendation, {| app_world := w; recoCache := recoCache st1 |})
        | (Ok results, w) =>
            (Results results (showCacheAge (atAge clock) (atShow clock)),
             {| app_world := if writable then storeKey "recoCache" w else w;
                recoCache :=
                  saveCache username results (atSave clock) writable
                    (recoCache st1) |})
        | (Throw TokenExpired, w) =>
            (SessionExpired, {| app_world := w; recoCache := recoCache st1 |})
        | (Throw e, w) =>
            (RunFailed e, {| app_world := w; recoCache := recoCache st1 |})
        | (OutOfFuel, w) =>
            (Loading, {| app_world := w; recoCache := recoCache st1 |})
        end
    end.


Definition noon : Clock := {| atSave := 1000; atShow := 1001; atAge := 1001 |}.


(** A remote that rejects the token on every query, and a signed-in popup
    that holds cached results. *)
Definition remoteRejecting : Remote :=
  {| favouritesServer := fun _ _ _ => invalidToken;
     listServer := fun _ _ => invalidToken;
     recommendationsServer := fun _ _ => invalidToken;
     listRejectsFirst := fun _ => false |}.

Definition cachedApp : AppState :=
  {| app_world := signedIn;
     recoCache :=
       Some {| cache_username := "alice";
               cache_results := finalResults Sample.userList Sample.scoreMap;
               cache_timestamp := 0 |} |}.


(* ===================================================================== *)
(** ** Vocabulary of the two reads of a run *)
(* ===================================================================== *)

(** A computation that never warns and touches the session in one case
    only: it logs out exactly when it throws TOKEN_EXPIRED. *)
Definition expiresOnly {A} (m : M A) : Prop :=
  forall w,
    w_warned (snd (m w)) = w_warned w
    /\ (fst (m w) = Throw TokenExpired -> auth (snd (m w)) = loggedOutFrom w)
    /\ (fst (m w) <> Throw TokenExpired -> auth (snd (m w)) = auth w).

(** A catalogue that does not know the user and rejects the token of the
    list read; [listFirst] tells which of the two rejections arrives
    first. *)
Definition remoteUnknownExpired (listFirst : bool) : Remote :=
  {| favouritesServer := fun _ _ _ => Sample.ok200 None;
     listServer := fun _ _ => invalidToken;
     recommendationsServer := fun _ _ => Sample.ok200 Sample.batch;
     listRejectsFirst := fun _ => listFirst |}.

(** Two remotes with the same servers: they differ at most in the timing
    of their answers. *)
Definition sameServers (remote remote' : Remote) : Prop :=
  favouritesServer remote' = favouritesServer remote
  /\ listServer remote' = listServer remote
  /\ recommendationsServer remote' = recommendationsServer remote.

(** One favourite and one top-rated seed; the batch of the favourite lists
    the title 10 twice, the batch of the top-rated seed lists it once. *)
Module Duplicate.

Definition tasks : list Task :=
  [ favouriteTask {| fav_id := 1; fav_title := "Alpha" |};
    topRatedTask {| mediaId := 3; score := 9; status := Some "COMPLETED";
                    title := Some "Gamma"; genres := []; tags := [] |} ].

Definition remote : Remote :=
  {| favouritesServer := fun _ _ _ => Sample.ok200 (Some Sample.favPage);
     listServer := fun _ _ => Sample.ok200 (Some Sample.lists);
     recommendationsServer :=
       fun _ _ => Sample.ok200 [ Some [Some Sample.X; Some Sample.X];
                                 Some [Some Sample.X] ];
     listRejectsFirst := fun _ => false |}.

End Duplicate.

(** Whether a string holds ASCII characters only.  On such strings
    [Js.toLowerCase] is [String.prototype.toLowerCase]. *)
Fixpoint asciiOnly (s : string) : bool :=
  match s with
  | EmptyString => true
  | String c r => (nat_of_ascii c <? 128)%nat && asciiOnly r
  end.


(* ===================================================================== *)
(** * Properties *)
(* ===================================================================== *)

(** ** The JavaScript primitives on examples *)

Example numberToString_42 : Js.numberToString 42 = "42".
Proof. reflexivity. Qed.

Example toFixed1_ex : Js.toFixed1 (inject_Z 4 + (15 # 10) + (9 # 10)) = (64 # 10)%Q.
Proof. reflexivity. Qed.

Example roundDiv_ex : Js.roundDiv 171 2 = 86.
Proof. reflexivity. Qed.

Example sort_stable_ex :
  Js.sort (fun a b => Z.compare (fst b) (fst a))
    [(1, "a"); (3, "b"); (1, "c"); (3, "d")]
  = [(3, "b"); (3, "d"); (1, "a"); (1, "c")].
Proof. reflexivity. Qed.

(** ** The stable sort *)

Section SortFacts.
Context {A : Type} (cmp : A -> A -> comparison).

Lemma insert_perm x l : Permutation (Js.insert cmp x l) (x :: l).
Proof.
  induction l as [|y r IH]; simpl.
  - apply Permutation_refl.
  - destruct (cmp x y); try apply Permutation_refl.
    eapply perm_trans; [apply perm_skip, IH | apply perm_swap].
Qed.

Lemma sort_perm l : Permutation (Js.sort cmp l) l.
Proof.
  induction l as [|x r IH]; simpl.
  - constructor.
  - eapply perm_trans; [apply insert_perm | apply perm_skip, IH].
Qed.

Lemma sort_length l : List.length (Js.sort cmp l) = List.length l.
Proof. apply Permutation_length, sort_perm. Qed.

Lemma insert_front x l :
  Forall (notAfter cmp x) l -> Js.insert cmp x l = x :: l.
Proof.
  intros H. destruct l as [|y r]; simpl; [reflexivity|].
  inversion H as [|? ? Hy _]; subst. unfold notAfter in Hy.
  destruct (cmp x y); congruence.
Qed.

Hypothesis cmp_total : forall x y, cmp x y = Gt -> notAfter cmp y x.
Hypothesis cmp_trans :
  forall x y z, notAfter cmp x y -> notAfter cmp y z -> notAfter cmp x z.

Lemma insert_sorted x l :
  StronglySorted (notAfter cmp) l -> StronglySorted (notAfter cmp) (Js.insert cmp x l).
Proof.
  induction 1 as [|y r Hr IH Hy]; simpl.
  - repeat constructor.
  - destruct (cmp x y) eqn:E.
    + constructor; [constructor; assumption|].
      assert (Hxy : notAfter cmp x y) by (unfold notAfter; congruence).
      constructor; [exact Hxy|].
      eapply Forall_impl; [|exact Hy]. intros z Hz. eauto.
    + constructor; [constructor; assumption|].
      assert (Hxy : notAfter cmp x y) by (unfold notAfter; congruence).
      constructor; [exact Hxy|].
      eapply Forall_impl; [|exact Hy]. intros z Hz. eauto.
    + constructor; [exact IH|].
      eapply Permutation_Forall;
        [apply Permutation_sym, insert_perm|].
      constructor; [apply cmp_total, E | exact Hy].
Qed.

Lemma sort_sorted l : StronglySorted (notAfter cmp) (Js.sort cmp l).
Proof.
  induction l; simpl; [constructor | apply insert_sorted; assumption].
Qed.

Lemma sort_id l : StronglySorted (notAfter cmp) l -> Js.sort cmp l = l.
Proof.
  induction 1 as [|x r Hr IH Hx]; simpl; [reflexivity|].
  rewrite IH. apply insert_front, Hx.
Qed.

Lemma filter_insert p x l :
  StronglySorted (notAfter cmp) l ->
  filter p (Js.insert cmp x l)
  = if p x then Js.insert cmp x (filter p l) else filter p l.
Proof.
  induction 1 as [|y r Hr IH Hy]; simpl.
  - destruct (p x); reflexivity.
  - destruct (cmp x y) eqn:E; simpl.
    1,2: assert (Hxy : notAfter cmp x y) by (unfold notAfter; congruence);
         destruct (p x); [|reflexivity];
         symmetry; change (if p y then y :: filter p r else filter p r)
                     with (filter p (y :: r));
         apply insert_front, incl_Forall with (l1 := y :: r);
         [ intros z Hz; apply filter_In in Hz; tauto
         | constructor; [exact Hxy|];
           eapply Forall_impl; [|exact Hy]; intros z Hz; eauto ].
    rewrite IH. destruct (p y); simpl.
    + rewrite E. destruct (p x); reflexivity.
    + reflexivity.
Qed.

(** Filtering commutes with the stable sort. *)
Lemma filter_sort p l :
  filter p (Js.sort cmp l) = Js.sort cmp (filter p l).
Proof.
  induction l as [|x r IH]; simpl; [reflexivity|].
  rewrite filter_insert by apply sort_sorted.
  rewrite IH. destruct (p x); reflexivity.
Qed.

End SortFacts.

(** ** gqlRequest: retries on HTTP 429 *)

Lemma afterRetries_0 {A} (srv : Server A) a w : afterRetries srv a 0 w = w.
Proof.
  destruct w; unfold afterRetries; simpl.
  rewrite app_nil_r, Nat.add_0_r. reflexivity.
Qed.

Lemma gqlRequestFrom_retry {A} (srv : Server A) fuel a w :
  res_status (srv a) = 429 ->
  (a < MAX_RETRIES)%nat ->
  gqlRequestFrom (S fuel) srv a w
  = gqlRequestFrom fuel srv (S a) (afterRetries srv a 1 w).
Proof.
  intros H429 Ha. cbn [gqlRequestFrom]. unfold bind at 1, fetch at 1.
  rewrite H429, Z.eqb_refl.
  destruct (Nat.leb_spec MAX_RETRIES a) as [Hle|_]; [lia|].
  unfold bind, sleep, afterRetries, delayOf. cbn [w_token w_viewer w_storage w_slept w_fetches w_warned seq map].
  rewrite Nat.add_1_r. reflexivity.
Qed.

Lemma afterRetries_S {A} (srv : Server A) a m w :
  afterRetries srv (S a) m (afterRetries srv a 1 w) = afterRetries srv a (S m) w.
Proof.
  unfold afterRetries; cbn [w_token w_viewer w_storage w_slept w_fetches w_warned seq map].
  rewrite <- app_assoc. simpl. f_equal. lia.
Qed.

Lemma gqlRequestFrom_retries {A} (srv : Server A) m :
  forall fuel a w,
    (a + m <= MAX_RETRIES)%nat ->
    (forall k, (a <= k < a + m)%nat -> res_status (srv k) = 429) ->
    gqlRequestFrom (m + fuel) srv a w
    = gqlRequestFrom fuel srv (a + m) (afterRetries srv a m w).
Proof.
  induction m as [|m IH]; intros fuel a w Hle H429.
  - rewrite Nat.add_0_r, afterRetries_0. reflexivity.
  - cbn [Nat.add]. rewrite gqlRequestFrom_retry by (try apply H429; lia).
    rewrite IH by (try (intros k Hk; apply H429); lia).
    rewrite afterRetries_S. f_equal. lia.
Qed.

Lemma gqlRequestFrom_answer {A} (srv : Server A) fuel a w :
  res_status (srv a) <> 429 ->
  gqlRequestFrom (S fuel) srv a w = handleResponse (srv a) (fetched w).
Proof.
  intros H. cbn [gqlRequestFrom]. unfold bind at 1, fetch at 1.
  destruct (Z.eqb_spec (res_status (srv a)) 429); [contradiction|].
  reflexivity.
Qed.

Lemma gqlRequestFrom_ceiling {A} (srv : Server A) fuel a w :
  res_status (srv a) = 429 ->
  (MAX_RETRIES <= a)%nat ->
  gqlRequestFrom (S fuel) srv a w = (Throw TooManyRequests, fetched w).
Proof.
  intros H Ha. cbn [gqlRequestFrom]. unfold bind at 1, fetch at 1.
  rewrite H, Z.eqb_refl.
  destruct (Nat.leb_spec MAX_RETRIES a) as [_|Hlt]; [reflexivity | lia].
Qed.

(** C6.  On HTTP 429 the client sleeps and retries.  While the attempts
    [0 .. n-1] (n <= MAX_RETRIES = 4) are rate-limited, [gqlRequest] has slept
    once after each of them, for [backoff] of the attempt, and attempt [n]
    decides: any other status is handled as the answer, and a fifth 429
    (n = 4) makes the call fail with "Too Many Requests" without a further
    sleep or fetch.  The delay is 1500 ms at attempt 0 and doubles with each
    attempt, except that a positive Retry-After value (seconds) replaces it
    by that many seconds. *)
Theorem gqlRequest_retry_policy {A} (srv : Server A) (w : World) (n : nat) :
  (n <= MAX_RETRIES)%nat ->
  (forall k, (k < n)%nat -> res_status (srv k) = 429) ->
  (res_status (srv n) <> 429 ->
   gqlRequest srv w = handleResponse (srv n) (fetched (afterRetries srv 0 n w)))
  /\ (res_status (srv n) = 429 -> n = MAX_RETRIES ->
      gqlRequest srv w
      = (Throw TooManyRequests, fetched (afterRetries srv 0 n w)))
  /\ w_slept (afterRetries srv 0 n w)
     = w_slept w ++ map (fun k => backoff (retryAfterHeader (srv k)) k) (seq 0 n)
  /\ w_fetches (fetched (afterRetries srv 0 n w)) = (w_fetches w + n + 1)%nat
  /\ backoff Absent 0 = 1500
  /\ (forall k, backoff Absent (S k) = 2 * backoff Absent k)
  /\ (forall s k, 0 < s -> backoff (Numeric s) k = s * 1000)
  /\ (forall s k, s <= 0 -> backoff (Numeric s) k = backoff Absent k)
  /\ (forall k, backoff NonNumeric k = backoff Absent k).
Proof.
  intros Hn H429.
  assert (Hrun : gqlRequest srv w
                 = gqlRequestFrom (S (MAX_RETRIES - n)) srv n
                     (afterRetries srv 0 n w)).
  { unfold gqlRequest.
    replace (S MAX_RETRIES) with (n + S (MAX_RETRIES - n))%nat by lia.
    rewrite gqlRequestFrom_retries; [reflexivity | lia |].
    intros k Hk. apply H429. lia. }
  repeat split.
  - intros Hne. rewrite Hrun. apply gqlRequestFrom_answer, Hne.
  - intros He Hmax. rewrite Hrun. apply gqlRequestFrom_ceiling; [exact He | lia].
  - simpl. lia.
  - intros k. unfold backoff. simpl parseRetryAfter. cbv iota.
    change (0 <? 0) with false. cbv iota.
    rewrite Nat2Z.inj_succ, Z.pow_succ_r by lia. lia.
  - intros s k Hs. unfold backoff; simpl.
    destruct (Z.ltb_spec 0 s); [reflexivity | lia].
  - intros s k Hs. unfold backoff; simpl.
    destruct (Z.ltb_spec 0 s); [lia | reflexivity].
Qed.

(** ** The result of a computation does not depend on the world *)

Lemma oblivious_outcome {A} (m : M A) w :
  oblivious m -> fst (m w) = outcome m.
Proof. intros H. apply H. Qed.

Lemma oblivious_ret {A} (a : A) : oblivious (ret a).
Proof. intros w1 w2; reflexivity. Qed.

Lemma oblivious_throw {A} e : oblivious (@throw A e).
Proof. intros w1 w2; reflexivity. Qed.

Lemma oblivious_diverge {A} : oblivious (@diverge A).
Proof. intros w1 w2; reflexivity. Qed.

Lemma oblivious_sleep ms : oblivious (sleep ms).
Proof. intros w1 w2; reflexivity. Qed.

Lemma oblivious_warn e : oblivious (warn e).
Proof. intros w1 w2; reflexivity. Qed.

Lemma oblivious_logout : oblivious logout.
Proof. intros w1 w2; reflexivity. Qed.

Lemma oblivious_fetch {A} (srv : Server A) a : oblivious (fetch srv a).
Proof. intros w1 w2; reflexivity. Qed.

Lemma oblivious_bind {A B} (m : M A) (k : A -> M B) :
  oblivious m -> (forall a, oblivious (k a)) -> oblivious (bind m k).
Proof.
  intros Hm Hk w1 w2. unfold bind.
  specialize (Hm w1 w2).
  destruct (m w1) as [o1 w1'], (m w2) as [o2 w2']; simpl in Hm; subst o2.
  destruct o1; try reflexivity. apply Hk.
Qed.

Lemma oblivious_tryCatch {A} (m : M A) (h : Error -> M A) :
  oblivious m -> (forall e, oblivious (h e)) -> oblivious (tryCatch m h).
Proof.
  intros Hm Hh w1 w2. unfold tryCatch.
  specialize (Hm w1 w2).
  destruct (m w1) as [o1 w1'], (m w2) as [o2 w2']; simpl in Hm; subst o2.
  destruct o1; try reflexivity. apply Hh.
Qed.

Create HintDb obl.

#[local] Hint Resolve oblivious_ret oblivious_throw oblivious_diverge
  oblivious_sleep oblivious_warn oblivious_logout oblivious_fetch : obl.

Ltac oblivious_step :=
  first [ apply oblivious_bind; [|intros ?]
        | apply oblivious_tryCatch; [|intros ?]
        | solve [auto with obl] ].

Lemma oblivious_handleResponse {A} (res : Response A) :
  oblivious (handleResponse res).
Proof.
  unfold handleResponse.
  destruct (body res) as [json|]; [|auto with obl].
  destruct (errors json).
  - destruct (data json); [auto with obl|].
    destruct (res_ok res); auto with obl.
  - match goal with |- context [if ?b then _ else _] => destruct b end;
      repeat oblivious_step.
Qed.

Lemma oblivious_gqlRequestFrom {A} (srv : Server A) fuel :
  forall a, oblivious (gqlRequestFrom fuel srv a).
Proof.
  induction fuel as [|fuel IH]; intros a; cbn [gqlRequestFrom].
  - auto with obl.
  - oblivious_step; [auto with obl|].
    destruct (res_status _ =? 429); [|apply oblivious_handleResponse].
    destruct (MAX_RETRIES <=? a)%nat; [auto with obl|].
    oblivious_step; [auto with obl | apply IH].
Qed.

Lemma oblivious_gqlRequest {A} (srv : Server A) : oblivious (gqlRequest srv).
Proof. apply oblivious_gqlRequestFrom. Qed.

Lemma oblivious_favouritesLoop fuel remote username :
  forall page results,
    oblivious (favouritesLoop fuel remote username page results).
Proof.
  induction fuel as [|fuel IH]; intros page results; cbn [favouritesLoop].
  - auto with obl.
  - oblivious_step; [apply oblivious_gqlRequest|].
    destruct a as [[anime|]|]; auto with obl.
    destruct (hasNextPage anime); [apply IH | auto with obl].
Qed.

Lemma oblivious_fetchUserList remote username :
  oblivious (fetchUserList remote username).
Proof.
  unfold fetchUserList. oblivious_step; [apply oblivious_gqlRequest|].
  destruct a as [[lists|]|]; auto with obl.
Qed.

Lemma oblivious_processChunk remote chunk scoreMap :
  oblivious (processChunk remote chunk scoreMap).
Proof.
  unfold processChunk. oblivious_step.
  - oblivious_step; [apply oblivious_gqlRequest|].
    destruct a, chunk; auto with obl.
  - repeat oblivious_step.
Qed.

Lemma oblivious_forEachChunk remote cs :
  forall scoreMap, oblivious (forEachChunk remote cs scoreMap).
Proof.
  induction cs as [|chunk rest IH]; intros scoreMap; cbn [forEachChunk].
  - auto with obl.
  - oblivious_step; [apply oblivious_processChunk | apply IH].
Qed.

Lemma oblivious_promiseAll {A B} first (a : M A) (b : M B) :
  oblivious a -> oblivious b -> oblivious (promiseAll first a b).
Proof.
  intros Ha Hb w1 w2. unfold promiseAll. cbn [fst].
  rewrite (Ha w1 w2), (Hb (snd (a w1)) (snd (a w2))). reflexivity.
Qed.

Lemma oblivious_computeRecommendations fuel remote username :
  oblivious (computeRecommendations fuel remote username).
Proof.
  unfold computeRecommendations, fetchAllFavourites, fanout.
  oblivious_step.
  - apply oblivious_promiseAll;
      [apply oblivious_favouritesLoop | apply oblivious_fetchUserList].
  - oblivious_step; [apply oblivious_forEachChunk | auto with obl].
Qed.

Lemma favouritesLoop_same_servers fuel remote remote' username :
  favouritesServer remote' = favouritesServer remote ->
  forall page results w,
    favouritesLoop fuel remote' username page results w
    = favouritesLoop fuel remote username page results w.
Proof.
  intros Hs. induction fuel as [|fuel IH]; intros page results w;
    [reflexivity|].
  cbn [favouritesLoop]. unfold bind. rewrite Hs.
  destruct (gqlRequest (favouritesServer remote username page) w)
    as [[[[anime|]|]|e|] w1]; try reflexivity.
  destruct (hasNextPage anime); [apply IH | reflexivity].
Qed.

Lemma fetchUserList_same_servers remote remote' username :
  listServer remote' = listServer remote ->
  fetchUserList remote' username = fetchUserList remote username.
Proof. intros Hs. unfold fetchUserList. rewrite Hs. reflexivity. Qed.

Lemma forEachChunk_same_servers remote remote' cs :
  recommendationsServer remote' = recommendationsServer remote ->
  forall sm w, forEachChunk remote' cs sm w = forEachChunk remote cs sm w.
Proof.
  intros Hs. induction cs as [|chunk rest IH]; intros sm w; [reflexivity|].
  cbn [forEachChunk]. unfold bind, processChunk. rewrite Hs.
  match goal with
  | |- context [tryCatch ?m ?h w] => destruct (tryCatch m h w) as [[sm'|e|] w1]
  end; try reflexivity.
  apply IH.
Qed.

(** What a run returns does not depend on which rejection would have
    arrived first. *)
Lemma computeRecommendations_same_servers fuel remote remote' username w w'
    results :
  sameServers remote remote' ->
  fst (computeRecommendations fuel remote username w) = Ok results ->
  fst (computeRecommendations fuel remote' username w') = Ok results.
Proof.
  intros (Hf & Hl & Hr) Hrun.
  rewrite (oblivious_computeRecommendations fuel remote' username w' w).
  revert Hrun. unfold computeRecommendations, fetchAllFavourites, fanout.
  unfold bind, promiseAll. cbn [fst snd].
  rewrite (favouritesLoop_same_servers fuel remote remote' username Hf).
  rewrite (fetchUserList_same_servers remote remote' username Hl).
  destruct (fst (favouritesLoop fuel remote username 1 [] w)) as [favs|e|];
    destruct (fst (fetchUserList remote username
                     (snd (favouritesLoop fuel remote username 1 [] w))))
      as [ul|e'|]; try discriminate.
  cbn [fst snd].
  rewrite (forEachChunk_same_servers remote remote' _ Hr). intros H; exact H.
Qed.

(** C9.  The result of [computeRecommendations] is a function of the remote
    responses alone: from any two worlds (token, viewer, storage, past
    sleeps, fetch count, warnings) it returns the same outcome, hence the
    same candidates with the same scores in the same order; in particular a
    second run, started in the world the first run left behind, repeats the
    first run's result.  The results do not depend on the timing of the
    remote side either: against the same servers a run returns the same
    results whichever of two rejections would arrive first. *)
Theorem computeRecommendations_deterministic
    (fuel : nat) (remote : Remote) (username : string) (w1 w2 : World) :
  fst (computeRecommendations fuel remote username w1)
  = fst (computeRecommendations fuel remote username w2)
  /\ fst (computeRecommendations fuel remote username
            (snd (computeRecommendations fuel remote username w1)))
     = fst (computeRecommendations fuel remote username w1)
  /\ (forall remote' results,
         sameServers remote remote' ->
         fst (computeRecommendations fuel remote username w1) = Ok results ->
         fst (computeRecommendations fuel remote' username w2) = Ok results).
Proof.
  split; [apply oblivious_computeRecommendations|].
  split; [apply oblivious_computeRecommendations|].
  intros remote' results Hs Hrun.
  exact (computeRecommendations_same_servers _ _ _ _ _ _ _ Hs Hrun).
Qed.

(** ** Totality of the bounded loops *)

Lemma handleResponse_total {A} (res : Response A) w :
  fst (handleResponse res w) <> OutOfFuel.
Proof.
  unfold handleResponse.
  destruct (body res) as [json|]; [|discriminate].
  destruct (errors json).
  - destruct (data json); [discriminate|].
    destruct (res_ok res); discriminate.
  - match goal with |- context [if ?b then _ else _] => destruct b end;
      discriminate.
Qed.

Lemma gqlRequestFrom_total {A} (srv : Server A) fuel :
  forall a w,
    (0 < fuel)%nat ->
    (MAX_RETRIES < fuel + a)%nat ->
    fst (gqlRequestFrom fuel srv a w) <> OutOfFuel.
Proof.
  induction fuel as [|fuel IH]; intros a w Hpos Hf; [lia|].
  cbn [gqlRequestFrom]. unfold bind at 1, fetch at 1.
  destruct (res_status (srv a) =? 429); [|apply handleResponse_total].
  destruct (Nat.leb_spec MAX_RETRIES a); [discriminate|].
  unfold bind at 1, sleep at 1. apply IH; lia.
Qed.

(** [gqlRequest] always returns or throws. *)
Lemma gqlRequest_total {A} (srv : Server A) w :
  fst (gqlRequest srv w) <> OutOfFuel.
Proof. apply gqlRequestFrom_total; unfold MAX_RETRIES; lia. Qed.

(** ** The fan-out as an aggregation of hits *)

Lemma aggregate_app h1 h2 sm :
  aggregate (h1 ++ h2) sm = aggregate h2 (aggregate h1 sm).
Proof. apply fold_left_app. Qed.

Lemma hitsOf_app b1 b2 : hitsOf (b1 ++ b2) = hitsOf b1 ++ hitsOf b2.
Proof. apply flat_map_app. Qed.

Lemma hitsOf_nothing (chunk : list Task) :
  hitsOf (map (fun task => (task, [])) chunk) = [].
Proof. induction chunk; simpl; auto. Qed.

Lemma addNodes_aggregate task nodes :
  forall sm, addNodes sm task nodes = aggregate (map (pair task) (present nodes)) sm.
Proof.
  unfold addNodes, aggregate.
  induction nodes as [|[m|] r IH]; intros sm; simpl; auto.
Qed.

Lemma parseChunk_aggregate data chunk :
  forall i sm,
    parseChunk data i chunk sm = aggregate (hitsOf (listedFrom data i chunk)) sm.
Proof.
  induction chunk as [|task rest IH]; intros i sm; simpl; [reflexivity|].
  rewrite IH. unfold hitsOf at 2. simpl. fold (hitsOf (listedFrom data (S i) rest)).
  rewrite aggregate_app. f_equal.
  destruct (nth_error data i) as [[nodes|]|]; simpl; auto.
  apply addNodes_aggregate.
Qed.

(** A chunk whose call throws: the error is logged, the score map is left
    as it was. *)
Lemma processChunk_failed remote chunk sm w e w' :
  gqlRequest (recommendationsServer remote (map task_mediaId chunk)) w
  = (Throw e, w') ->
  processChunk remote chunk sm w = (Ok sm, warned e w').
Proof.
  intros H. unfold processChunk, tryCatch, bind. rewrite H. reflexivity.
Qed.

(** Every chunk completes, and adds exactly what its seeds were listed. *)
Lemma processChunk_run remote chunk sm w :
  exists w',
    processChunk remote chunk sm w
    = (Ok (aggregate (hitsOf (listedChunk remote chunk)) sm), w').
Proof.
  unfold listedChunk.
  rewrite <- (oblivious_outcome _ w) by apply oblivious_gqlRequest.
  pose proof (gqlRequest_total
                (recommendationsServer remote (map task_mediaId chunk)) w) as Ht.
  unfold processChunk, tryCatch, bind.
  destruct (gqlRequest _ w) as [[[d|]|e|] w1]; simpl in *.
  - eexists. rewrite parseChunk_aggregate. reflexivity.
  - destruct chunk; simpl.
    + eexists; reflexivity.
    + rewrite hitsOf_nothing. eexists; reflexivity.
  - rewrite hitsOf_nothing. eexists; reflexivity.
  - contradiction.
Qed.

Lemma forEachChunk_run remote cs :
  forall sm w,
    exists w',
      forEachChunk remote cs sm w
      = (Ok (aggregate (hitsOf (flat_map (listedChunk remote) cs)) sm), w').
Proof.
  induction cs as [|chunk rest IH]; intros sm w; cbn [forEachChunk flat_map].
  - eexists; reflexivity.
  - destruct (processChunk_run remote chunk sm w) as [w1 H1].
    unfold bind. rewrite H1.
    destruct (IH (aggregate (hitsOf (listedChunk remote chunk)) sm) w1) as [w2 H2].
    exists w2. rewrite H2, hitsOf_app, aggregate_app. reflexivity.
Qed.

(** The fan-out never throws: it returns the aggregation of every hit. *)
Lemma fanout_run remote tasks w :
  exists w',
    fanout remote tasks w
    = (Ok (aggregate (hitsOf (listed remote tasks)) []), w').
Proof. apply forEachChunk_run. Qed.

(** ** Failures: isolated in the fan-out, fatal in the two list fetches *)


(** ** Lookup and update of an insertion-ordered map *)

Section MapFacts.
Context {K V : Type} (eqb : K -> K -> bool).
Hypothesis eqb_spec : forall x y, reflect (x = y) (eqb x y).

Lemma get_set_same k v (m : list (K * V)) :
  Js.get eqb k (Js.set eqb k v m) = Some v.
Proof.
  induction m as [|[k' v'] r IH]; simpl.
  - destruct (eqb_spec k k); congruence.
  - destruct (eqb_spec k k') as [E|E]; simpl.
    + destruct (eqb_spec k k'); congruence.
    + destruct (eqb_spec k k'); congruence.
Qed.

Lemma get_set_other k k' v (m : list (K * V)) :
  k <> k' -> Js.get eqb k (Js.set eqb k' v m) = Js.get eqb k m.
Proof.
  intros Hne. induction m as [|[k0 v0] r IH]; simpl.
  - destruct (eqb_spec k k'); congruence.
  - destruct (eqb_spec k' k0) as [E|E]; simpl.
    + subst k0. destruct (eqb_spec k k'); congruence.
    + destruct (eqb_spec k k0); congruence.
Qed.

Lemma get_In k v (m : list (K * V)) :
  Js.get eqb k m = Some v -> In (k, v) m.
Proof.
  induction m as [|[k' v'] r IH]; simpl; [discriminate|].
  destruct (eqb_spec k k') as [E|E]; intros H.
  - left. congruence.
  - right. auto.
Qed.

Lemma In_set k v k' v' (m : list (K * V)) :
  In (k, v) (Js.set eqb k' v' m) -> In (k, v) m \/ (k = k' /\ v = v').
Proof.
  induction m as [|[k0 v0] r IH]; simpl.
  - intros [H|[]]. right. split; congruence.
  - destruct (eqb_spec k' k0) as [E|E]; simpl.
    + intros [H|H]; [right; split; congruence | left; right; exact H].
    + intros [H|H]; [left; left; exact H|].
      destruct (IH H) as [H'|H']; [left; right; exact H' | right; exact H'].
Qed.

End MapFacts.

(** ** Aggregation: what the score map holds for a title *)

Lemma get_addHit k sm task m :
  Js.get Z.eqb k (addHit sm task m)
  = if id m =? k then Some (mergeHit (Js.get Z.eqb k sm) (task, m))
    else Js.get Z.eqb k sm.
Proof.
  unfold addHit. destruct (Z.eqb_spec (id m) k) as [E|E].
  - subst k. destruct (Js.get Z.eqb (id m) sm);
      apply (get_set_same Z.eqb Z.eqb_spec).
  - destruct (Js.get Z.eqb (id m) sm);
      apply (get_set_other Z.eqb Z.eqb_spec); congruence.
Qed.

Lemma get_aggregate k hits :
  forall sm,
    Js.get Z.eqb k (aggregate hits sm)
    = fold_left (fun c h => Some (mergeHit c h)) (hitsFor k hits)
        (Js.get Z.eqb k sm).
Proof.
  unfold aggregate, hitsFor.
  induction hits as [|[task m] r IH]; intros sm; simpl; [reflexivity|].
  rewrite IH, get_addHit. destruct (id m =? k); reflexivity.
Qed.

Lemma fold_mergeHit hs :
  forall c,
    fold_left (fun c h => Some (mergeHit c h)) hs (Some c)
    = Some {| media := media c;
              baseScore := baseScore c + sumWeights hs;
              reasons := reasons c ++ map (fun h => reasonOf (fst h)) hs |}.
Proof.
  induction hs as [|h r IH]; intros c; simpl.
  - rewrite Z.add_0_r, app_nil_r. destruct c; reflexivity.
  - rewrite IH. simpl. rewrite <- app_assoc, Z.add_assoc. reflexivity.
Qed.

(** The entry of [k] after aggregating [hits] into an empty map: absent
    when no hit names [k]; otherwise the payload of the first hit, the sum
    of the weights and one reason per hit, in order. *)
Lemma get_aggregate_empty k hits :
  Js.get Z.eqb k (aggregate hits [])
  = match hitsFor k hits with
    | [] => None
    | h :: _ =>
        Some {| media := snd h;
                baseScore := sumWeights (hitsFor k hits);
                reasons := map (fun h => reasonOf (fst h)) (hitsFor k hits) |}
    end.
Proof.
  rewrite get_aggregate. simpl Js.get.
  destruct (hitsFor k hits) as [|h r]; [reflexivity|].
  simpl. rewrite fold_mergeHit. reflexivity.
Qed.

Lemma sumWeights_hitsFor_perm k hits hits' :
  Permutation hits hits' ->
  sumWeights (hitsFor k hits) = sumWeights (hitsFor k hits').
Proof.
  unfold hitsFor.
  induction 1 as [|h l l' _ IH|h1 h2 l|l1 l2 l3 _ IH1 _ IH2]; simpl.
  - reflexivity.
  - destruct (id (snd h) =? k); simpl; lia.
  - destruct (id (snd h1) =? k), (id (snd h2) =? k); simpl; lia.
  - lia.
Qed.

Lemma hitsFor_nil_perm k hits hits' :
  Permutation hits hits' -> hitsFor k hits = [] -> hitsFor k hits' = [].
Proof.
  intros HP H. unfold hitsFor in *.
  destruct (filter _ hits') as [|h r] eqn:E; [reflexivity|].
  assert (Hin : In h (filter (fun h => id (snd h) =? k) hits')) by (rewrite E; left; reflexivity).
  apply filter_In in Hin. destruct Hin as [Hin Hk].
  apply (Permutation_in _ (Permutation_sym HP)) in Hin.
  assert (Hin' : In h (filter (fun h => id (snd h) =? k) hits))
    by (apply filter_In; auto).
  rewrite H in Hin'. destruct Hin'.
Qed.

(** The base score of a title does not depend on the processing order. *)
Lemma baseScore_order_independent k hits hits' :
  Permutation hits hits' ->
  option_map baseScore (Js.get Z.eqb k (aggregate hits []))
  = option_map baseScore (Js.get Z.eqb k (aggregate hits' [])).
Proof.
  intros HP. rewrite !get_aggregate_empty.
  pose proof (sumWeights_hitsFor_perm k _ _ HP) as Hs.
  destruct (hitsFor k hits) as [|h r] eqn:E1.
  - rewrite (hitsFor_nil_perm k _ _ HP E1). reflexivity.
  - destruct (hitsFor k hits') as [|h' r'] eqn:E2.
    + apply (hitsFor_nil_perm k _ _ (Permutation_sym HP)) in E2. congruence.
    + simpl. f_equal. exact Hs.
Qed.

(** ** The chunks cover the tasks *)

Lemma chunksFrom_concat fuel :
  forall c tasks,
    (List.length tasks - c <= fuel)%nat ->
    List.concat (chunksFrom fuel c tasks) = skipn c tasks.
Proof.
  induction fuel as [|fuel IH]; intros c tasks Hf; cbn [chunksFrom].
  - simpl. symmetry. apply skipn_all2. lia.
  - destruct (Nat.ltb_spec c (List.length tasks)) as [Hc|Hc].
    + cbn [List.concat]. rewrite IH by (unfold CHUNK; lia).
      unfold Js.slice. rewrite Nat.add_comm, <- skipn_skipn.
      apply firstn_skipn.
    + simpl. symmetry. apply skipn_all2. lia.
Qed.

Lemma chunks_concat tasks : List.concat (chunks tasks) = tasks.
Proof. unfold chunks. rewrite chunksFrom_concat by lia. reflexivity. Qed.

Lemma chunksFrom_bounded fuel :
  forall c tasks,
    Forall (fun chunk => (List.length chunk <= CHUNK)%nat)
           (chunksFrom fuel c tasks).
Proof.
  induction fuel as [|fuel IH]; intros c tasks; cbn [chunksFrom].
  - constructor.
  - destruct (c <? List.length tasks)%nat; constructor; [|apply IH].
    unfold Js.slice. apply firstn_le_length.
Qed.

Lemma listedFrom_seeds data chunk :
  forall i, map fst (listedFrom data i chunk) = chunk.
Proof.
  induction chunk as [|task rest IH]; intros i; simpl; [reflexivity|].
  rewrite IH. reflexivity.
Qed.

Lemma listedChunk_seeds remote chunk :
  map fst (listedChunk remote chunk) = chunk.
Proof.
  unfold listedChunk.
  destruct (outcome _) as [[d|]|e|]; try apply listedFrom_seeds;
    rewrite map_map; simpl; apply map_id.
Qed.

(** Every seed has exactly one batch, in task order. *)
Lemma listed_seeds remote tasks : map fst (listed remote tasks) = tasks.
Proof.
  unfold listed. rewrite <- (chunks_concat tasks) at 2.
  induction (chunks tasks) as [|chunk rest IH]; simpl; [reflexivity|].
  rewrite map_app, listedChunk_seeds, IH. reflexivity.
Qed.

(** ** Hits counted seed by seed *)

Lemma sumWeights_app a b : sumWeights (a ++ b) = sumWeights a + sumWeights b.
Proof. induction a; simpl; lia. Qed.

Lemma hitsFor_app k a b : hitsFor k (a ++ b) = hitsFor k a ++ hitsFor k b.
Proof. apply filter_app. Qed.

Lemma sumWeights_one_seed k task ms :
  NoDup (map id ms) ->
  sumWeights (hitsFor k (map (pair task) ms))
  = if existsb (fun m => id m =? k) ms then task_weight task else 0.
Proof.
  unfold hitsFor. induction ms as [|m r IH]; simpl; intros Hnd; [reflexivity|].
  inversion Hnd as [|? ? Hnotin Hnd']; subst.
  destruct (Z.eqb_spec (id m) k) as [E|E]; simpl.
  - rewrite IH by assumption.
    destruct (existsb (fun m0 => id m0 =? k) r) eqn:Ex; [|lia].
    exfalso. apply Hnotin. apply existsb_exists in Ex.
    destruct Ex as (m' & Hin & Hk). apply Z.eqb_eq in Hk.
    rewrite E, <- Hk. apply in_map, Hin.
  - apply IH. assumption.
Qed.

(** When no seed is listed the same title twice, the hits of a title weigh
    as much as the seeds that list it. *)
Lemma sumWeights_by_seed k batches :
  (forall b, In b batches -> NoDup (map id (snd b))) ->
  sumWeights (hitsFor k (hitsOf batches)) = totalWeight (seedsListing k batches).
Proof.
  unfold seedsListing.
  induction batches as [|[task ms] r IH]; intros Hnd; [reflexivity|].
  change (hitsOf ((task, ms) :: r)) with (map (pair task) ms ++ hitsOf r).
  rewrite hitsFor_app, sumWeights_app, IH by (intros b Hb; apply Hnd; right; exact Hb).
  rewrite sumWeights_one_seed by (apply (Hnd (task, ms)); left; reflexivity).
  simpl. destruct (existsb _ ms); simpl; lia.
Qed.

(** ** The score map is keyed by the payload id *)

Lemma keyed_addHit sm task m : keyed sm -> keyed (addHit sm task m).
Proof.
  intros Hk k c Hin. unfold addHit in Hin.
  destruct (Js.get Z.eqb (id m) sm) as [existing|] eqn:G;
    apply (In_set Z.eqb Z.eqb_spec) in Hin;
    destruct Hin as [Hin|[Hk' Hc]]; auto; subst k c; simpl; auto.
  apply (get_In Z.eqb Z.eqb_spec) in G. apply Hk, G.
Qed.

Lemma keyed_aggregate hits : forall sm, keyed sm -> keyed (aggregate hits sm).
Proof.
  unfold aggregate. induction hits as [|h r IH]; intros sm Hk; simpl; auto.
  apply IH, keyed_addHit, Hk.
Qed.

Lemma keyed_nil : keyed [].
Proof. intros k c []. Qed.

(** ** The diversity re-rank *)

Lemma Interleave_perm {A} (a b l : list A) :
  Interleave a b l -> Permutation (a ++ b) l.
Proof.
  induction 1; simpl.
  - constructor.
  - constructor. assumption.
  - eapply perm_trans; [apply Permutation_sym, Permutation_middle|].
    constructor. assumption.
Qed.

Lemma Interleave_incl_right {A} (a b l : list A) :
  Interleave a b l -> incl b l.
Proof.
  induction 1; intros y Hy; simpl in *; intuition.
Qed.

Lemma Interleave_incl_left {A} (a b l : list A) :
  Interleave a b l -> incl a l.
Proof.
  induction 1; intros y Hy; simpl in *; intuition.
Qed.

Lemma Interleave_sorted {A} (R : A -> A -> Prop) (a b l : list A) :
  Interleave a b l ->
  StronglySorted R l -> StronglySorted R a /\ StronglySorted R b.
Proof.
  induction 1 as [|x a b l H IH|x a b l H IH]; intros Hs.
  - split; constructor.
  - inversion Hs as [|? ? Hl Hx]; subst. destruct (IH Hl) as [Ha Hb].
    split; [|exact Hb]. constructor; [exact Ha|].
    eapply incl_Forall; [apply (Interleave_incl_left _ _ _ H) | exact Hx].
  - inversion Hs as [|? ? Hl Hx]; subst. destruct (IH Hl) as [Ha Hb].
    split; [exact Ha|]. constructor; [exact Hb|].
    eapply incl_Forall; [apply (Interleave_incl_right _ _ _ H) | exact Hx].
Qed.

(** The loop splits its input: what it appends to [diversified] and to
    [deferred] interleaves to the input. *)
Lemma diversity_fold_interleave l :
  forall st,
    exists d f,
      diversified (fold_left diversityStep l st) = diversified st ++ d
      /\ deferred (fold_left diversityStep l st) = deferred st ++ f
      /\ Interleave d f l.
Proof.
  induction l as [|e r IH]; intros st; simpl.
  - exists [], []. rewrite !app_nil_r. repeat split; constructor.
  - destruct (IH (diversityStep st e)) as (d & f & Hd & Hf & Hi).
    revert Hd Hf. unfold diversityStep.
    destruct (Js.orElse (Js.get String.eqb (primaryGenre e) (genreCount st)) 0
              <? DIVERSITY_CAP); simpl; intros Hd Hf.
    + exists (e :: d), f. rewrite Hd, Hf, <- app_assoc. simpl.
      repeat split. constructor. exact Hi.
    + exists d, (e :: f). rewrite Hd, Hf, <- app_assoc. simpl.
      repeat split. constructor. exact Hi.
Qed.

Lemma diversityPass_interleave l :
  Interleave (diversified (diversityPass l)) (deferred (diversityPass l)) l.
Proof.
  destruct (diversity_fold_interleave l
              {| diversified := []; genreCount := []; deferred := [] |})
    as (d & f & Hd & Hf & Hi).
  unfold diversityPass. rewrite Hd, Hf. exact Hi.
Qed.

Lemma genreLoad_snoc g l e :
  genreLoad g (l ++ [e])
  = (genreLoad g l + if String.eqb (primaryGenre e) g then 1 else 0)%nat.
Proof.
  unfold genreLoad. rewrite filter_app, length_app. simpl.
  destruct (String.eqb (primaryGenre e) g); reflexivity.
Qed.

Lemma countersOk_step st e : countersOk st -> countersOk (diversityStep st e).
Proof.
  intros Hok g. unfold diversityStep.
  destruct (Z.ltb_spec
              (Js.orElse (Js.get String.eqb (primaryGenre e) (genreCount st)) 0)
              DIVERSITY_CAP) as [Hlt|Hge]; simpl; [|apply Hok].
  rewrite genreLoad_snoc.
  destruct (String.eqb_spec (primaryGenre e) g) as [E|E].
  - subst g. rewrite (get_set_same String.eqb String.eqb_spec). simpl.
    destruct (Hok (primaryGenre e)) as [Hc Hb]. rewrite Hc in *. split; lia.
  - rewrite (get_set_other String.eqb String.eqb_spec) by congruence.
    rewrite Nat.add_0_r. apply Hok.
Qed.

Lemma countersOk_fold l : forall st,
  countersOk st -> countersOk (fold_left diversityStep l st).
Proof.
  induction l as [|e r IH]; intros st Hok; simpl; auto.
  apply IH, countersOk_step, Hok.
Qed.

Lemma diversityPass_capped l g :
  (genreLoad g (diversified (diversityPass l)) <= 5)%nat.
Proof.
  assert (H : countersOk (diversityPass l)).
  { apply countersOk_fold. intros g'. unfold genreLoad, DIVERSITY_CAP. simpl. lia. }
  destruct (H g) as [_ Hb]. unfold DIVERSITY_CAP in Hb. lia.
Qed.

Lemma filter_length_le {A} (p q : A -> bool) l :
  (forall x, p x = true -> q x = true) ->
  (List.length (filter p l) <= List.length (filter q l))%nat.
Proof.
  intros H. induction l as [|x r IH]; simpl; [lia|].
  destruct (p x) eqn:Ep.
  - rewrite (H _ Ep). simpl. lia.
  - destruct (q x); simpl; lia.
Qed.

(** The bucket of the code is the first genre, with the empty string filed
    under "Unknown". *)
Lemma primaryGenre_firstGenre e :
  primaryGenre e = if String.eqb (firstGenre e) "" then "Unknown" else firstGenre e.
Proof.
  unfold primaryGenre, firstGenre.
  destruct (Js.orElse (m_genres (media (candidate e))) []) as [|g r]; simpl.
  - reflexivity.
  - destruct g; reflexivity.
Qed.

Lemma firstGenreLoad_le g l :
  (firstGenreLoad g l
   <= genreLoad (if String.eqb g "" then "Unknown" else g) l)%nat.
Proof.
  apply filter_length_le. intros e He.
  apply String.eqb_eq in He. apply String.eqb_eq.
  rewrite primaryGenre_firstGenre, He. reflexivity.
Qed.

Lemma byFinalScoreDesc_notAfter a b :
  notAfter byFinalScoreDesc a b <-> scoreDesc a b.
Proof. unfold notAfter, byFinalScoreDesc, scoreDesc. symmetry. apply Qle_alt. Qed.

Lemma sort_byFinalScore_sorted l :
  StronglySorted scoreDesc (Js.sort byFinalScoreDesc l).
Proof.
  assert (H : StronglySorted (notAfter byFinalScoreDesc)
                (Js.sort byFinalScoreDesc l)).
  { apply sort_sorted.
    - intros x y Hxy. apply byFinalScoreDesc_notAfter. unfold scoreDesc.
      unfold byFinalScoreDesc in Hxy. apply Qgt_alt in Hxy.
      apply Qlt_le_weak. exact Hxy.
    - intros x y z Hxy Hyz. apply byFinalScoreDesc_notAfter.
      apply byFinalScoreDesc_notAfter in Hxy, Hyz. unfold scoreDesc in *.
      eapply Qle_trans; eassumption. }
  induction H as [|x r Hr IH Hx]; constructor; [exact IH|].
  eapply Forall_impl; [|exact Hx]. intros y. apply byFinalScoreDesc_notAfter.
Qed.

(** C4.  The re-rank returns its input rearranged: the result is
    [diversified ++ deferred], a permutation of the input, and the input is
    an interleaving of the two parts, so each part keeps the relative order
    of the input and the deferred entries all come after the undeferred
    ones.  Among the undeferred prefix (the first [length diversified]
    positions) at most 5 entries share a primary genre, whether the bucket
    is read as the code computes it or as the first genre with "Unknown" for
    an empty list.  On the score-sorted list that step 7 passes in, both
    parts are in descending score order. *)
Theorem diversify_capped_permutation (filtered : list Result) :
  diversify filtered
  = diversified (diversityPass filtered) ++ deferred (diversityPass filtered)
  /\ Permutation (diversify filtered) filtered
  /\ Interleave (diversified (diversityPass filtered))
                (deferred (diversityPass filtered)) filtered
  /\ firstn (List.length (diversified (diversityPass filtered)))
            (diversify filtered)
     = diversified (diversityPass filtered)
  /\ (forall g,
         (genreLoad g (firstn (List.length (diversified (diversityPass filtered)))
                              (diversify filtered)) <= 5)%nat)
  /\ (forall g,
         (firstGenreLoad g
            (firstn (List.length (diversified (diversityPass filtered)))
                    (diversify filtered)) <= 5)%nat)
  /\ StronglySorted scoreDesc
       (diversified (diversityPass (Js.sort byFinalScoreDesc filtered)))
  /\ StronglySorted scoreDesc
       (deferred (diversityPass (Js.sort byFinalScoreDesc filtered))).
Proof.
  assert (Hfirst : firstn (List.length (diversified (diversityPass filtered)))
                          (diversify filtered)
                   = diversified (diversityPass filtered)).
  { unfold diversify. rewrite firstn_app, Nat.sub_diag, firstn_all. simpl.
    apply app_nil_r. }
  split; [reflexivity|].
  split; [apply Interleave_perm, diversityPass_interleave|].
  split; [apply diversityPass_interleave|].
  split; [exact Hfirst|].
  rewrite Hfirst.
  split; [intros g; apply diversityPass_capped|].
  split.
  - intros g. eapply Nat.le_trans; [apply firstGenreLoad_le|].
    apply diversityPass_capped.
  - apply (Interleave_sorted scoreDesc _ _ _
             (diversityPass_interleave (Js.sort byFinalScoreDesc filtered))).
    apply sort_byFinalScore_sorted.
Qed.

(** ** Filtering of the seen titles *)

Lemma setHas_In k (s : list Z) : Js.setHas Z.eqb k s = true <-> In k s.
Proof.
  unfold Js.setHas. rewrite existsb_exists. split.
  - intros (x & Hin & E). apply Z.eqb_eq in E. congruence.
  - intros Hin. exists k. split; [exact Hin | apply Z.eqb_refl].
Qed.

Lemma isPlanningEntry_status e :
  isPlanningEntry e = true <-> status e = Some "PLANNING".
Proof.
  unfold isPlanningEntry. destruct (status e) as [s|].
  - rewrite String.eqb_eq. split; congruence.
  - split; discriminate.
Qed.

Lemma status_planning_dec e :
  status e = Some "PLANNING" \/ status e <> Some "PLANNING".
Proof.
  destruct (isPlanningEntry e) eqn:E.
  - left. apply isPlanningEntry_status, E.
  - right. intros H. apply isPlanningEntry_status in H. congruence.
Qed.

Lemma seenIds_In k userList :
  In k (seenIds userList)
  <-> exists e, In e userList /\ mediaId e = k /\ status e <> Some "PLANNING".
Proof.
  unfold seenIds. rewrite in_map_iff. split.
  - intros (e & Hk & Hin). apply filter_In in Hin. destruct Hin as [Hin Hp].
    exists e. repeat split; auto. rewrite <- isPlanningEntry_status.
    destruct (isPlanningEntry e); [discriminate | congruence].
  - intros (e & Hin & Hk & Hs). exists e. split; [exact Hk|].
    apply filter_In. split; [exact Hin|].
    destruct (isPlanningEntry e) eqn:E; [|reflexivity].
    apply isPlanningEntry_status in E. contradiction.
Qed.

Lemma planningIds_In k userList :
  In k (planningIds userList)
  <-> exists e, In e userList /\ mediaId e = k /\ status e = Some "PLANNING".
Proof.
  unfold planningIds. rewrite in_map_iff. split.
  - intros (e & Hk & Hin). apply filter_In in Hin. destruct Hin as [Hin Hp].
    exists e. repeat split; auto. apply isPlanningEntry_status, Hp.
  - intros (e & Hin & Hk & Hs). exists e. split; [exact Hk|].
    apply filter_In. split; [exact Hin | apply isPlanningEntry_status, Hs].
Qed.

Lemma filterSeen_In seen planning scoreMap c b :
  In (c, b) (filterSeen seen planning scoreMap)
  <-> exists k, In (k, c) scoreMap
                /\ Js.setHas Z.eqb k seen = false
                /\ b = Js.setHas Z.eqb k planning.
Proof.
  induction scoreMap as [|[k0 c0] r IH]; simpl.
  - split; [intros [] | intros (k & [] & _)].
  - destruct (Js.setHas Z.eqb k0 seen) eqn:E.
    + rewrite IH. split.
      * intros (k & Hin & Hs & Hb). exists k. auto.
      * intros (k & [Heq|Hin] & Hs & Hb); [|exists k; auto].
        inversion Heq; subst. congruence.
    + simpl. rewrite IH. split.
      * intros [Heq|(k & Hin & Hs & Hb)].
        -- inversion Heq; subst. exists k0. auto.
        -- exists k. auto.
      * intros (k & [Heq|Hin] & Hs & Hb).
        -- inversion Heq; subst. left. reflexivity.
        -- right. exists k. auto.
Qed.

(** The final list holds exactly the refined entries. *)
Lemma finalResults_In userList scoreMap r :
  In r (finalResults userList scoreMap) <-> In r (refined userList scoreMap).
Proof.
  unfold finalResults.
  assert (HP : Permutation
                 (diversify (Js.sort byFinalScoreDesc (refined userList scoreMap)))
                 (refined userList scoreMap)).
  { eapply perm_trans; [|apply sort_perm].
    unfold diversify. apply Interleave_perm, diversityPass_interleave. }
  split; apply Permutation_in; [exact HP | apply Permutation_sym, HP].
Qed.

(** A result is a score-map entry whose key is not seen, flagged by the
    planning set. *)
Lemma refined_In userList scoreMap r :
  In r (refined userList scoreMap)
  <-> exists k c,
        In (k, c) scoreMap
        /\ ~ In k (seenIds userList)
        /\ r = refine (userTagMap userList) (topGenres userList)
                 (c, Js.setHas Z.eqb k (planningIds userList)).
Proof.
  unfold refined. rewrite in_map_iff. split.
  - intros ([c b] & Hr & Hin). apply filterSeen_In in Hin.
    destruct Hin as (k & Hin & Hs & Hb). exists k, c.
    repeat split; auto.
    + rewrite <- setHas_In. congruence.
    + subst b. auto.
  - intros (k & c & Hin & Hs & Hr).
    exists (c, Js.setHas Z.eqb k (planningIds userList)). split; [auto|].
    apply filterSeen_In. exists k. repeat split; auto.
    destruct (Js.setHas Z.eqb k (seenIds userList)) eqn:E; [|reflexivity].
    apply setHas_In in E. contradiction.
Qed.

Lemma fanout_keyed remote tasks w scoreMap w' :
  fanout remote tasks w = (Ok scoreMap, w') -> keyed scoreMap.
Proof.
  intros H. destruct (fanout_run remote tasks w) as [w'' H'].
  rewrite H in H'. inversion H'; subst.
  apply keyed_aggregate, keyed_nil.
Qed.

Lemma computeRecommendations_run fuel remote username w
    favourites w1 userList w2 scoreMap w3 :
  fetchAllFavourites fuel remote username w = (Ok favourites, w1) ->
  fetchUserList remote username w1 = (Ok userList, w2) ->
  fanout remote (buildTasks favourites userList) w2 = (Ok scoreMap, w3) ->
  computeRecommendations fuel remote username w
  = (Ok (finalResults userList scoreMap), w3).
Proof.
  intros Hf Hl Hs. unfold computeRecommendations, bind, promiseAll.
  rewrite Hf. cbn [fst snd]. rewrite Hl. cbn [fst snd]. rewrite Hs.
  reflexivity.
Qed.

(** C2.  In a run that fetched [favourites] and [userList] and aggregated
    [scoreMap], the returned list is [finalResults userList scoreMap], and:
    no returned title has a rated-list entry whose status is not "PLANNING";
    a candidate of the score map whose id occurs in the rated list, and only
    with status "PLANNING", is returned with [isPlanning = true]; and a
    returned entry has [isPlanning = true] exactly when the rated list holds
    a "PLANNING" entry of its id, so every other returned entry has
    [isPlanning = false]. *)
Theorem seen_titles_excluded
    (fuel : nat) (remote : Remote) (username : string) (w : World)
    (favourites : list Favourite) (w1 : World)
    (userList : list ListEntry) (w2 : World)
    (scoreMap : ScoreMap) (w3 : World) :
  fetchAllFavourites fuel remote username w = (Ok favourites, w1) ->
  fetchUserList remote username w1 = (Ok userList, w2) ->
  fanout remote (buildTasks favourites userList) w2 = (Ok scoreMap, w3) ->
  computeRecommendations fuel remote username w
  = (Ok (finalResults userList scoreMap), w3)
  /\ (forall r e,
         In r (finalResults userList scoreMap) ->
         In e userList ->
         mediaId e = id (media (candidate r)) ->
         status e = Some "PLANNING")
  /\ (forall k c,
         Js.get Z.eqb k scoreMap = Some c ->
         (exists e, In e userList /\ mediaId e = k) ->
         (forall e, In e userList -> mediaId e = k -> status e = Some "PLANNING") ->
         exists r,
           In r (finalResults userList scoreMap)
           /\ candidate r = c /\ isPlanning r = true)
  /\ (forall r,
         In r (finalResults userList scoreMap) ->
         (isPlanning r = true
          <-> exists e, In e userList
                        /\ mediaId e = id (media (candidate r))
                        /\ status e = Some "PLANNING")).
Proof.
  intros Hf Hl Hs.
  pose proof (fanout_keyed _ _ _ _ _ Hs) as Hkeyed.
  split; [eapply computeRecommendations_run; eassumption|].
  split; [|split].
  - intros r e Hr He Hid.
    apply finalResults_In, refined_In in Hr.
    destruct Hr as (k & c & Hin & Hseen & Hr). subst r. simpl in Hid.
    rewrite (Hkeyed _ _ Hin) in Hid.
    destruct (status_planning_dec e) as [Hp|Hp]; [exact Hp|].
    exfalso. apply Hseen, seenIds_In. exists e. auto.
  - intros k c Hget (e0 & He0 & Hk0) Hall.
    apply (get_In Z.eqb Z.eqb_spec) in Hget.
    exists (refine (userTagMap userList) (topGenres userList)
              (c, Js.setHas Z.eqb k (planningIds userList))).
    split; [|split].
    + apply finalResults_In, refined_In. exists k, c. repeat split; auto.
      intros Hseen. apply seenIds_In in Hseen.
      destruct Hseen as (e & He & Hk & Hne). apply Hne, Hall; auto.
    + reflexivity.
    + simpl. apply setHas_In, planningIds_In. exists e0. auto.
  - intros r Hr. apply finalResults_In, refined_In in Hr.
    destruct Hr as (k & c & Hin & Hseen & Hr). subst r. simpl.
    rewrite (Hkeyed _ _ Hin), setHas_In. apply planningIds_In.
Qed.

(** On the sample catalogue: title 3 is rated and dropped, title 20 is
    planned and flagged, titles 10 and 2 are unflagged. *)
Lemma seen_titles_excluded_witness :
  fetchAllFavourites 5 Sample.remote "alice" freshWorld
  = (Ok Sample.favourites, Sample.world 1)
  /\ fetchUserList Sample.remote "alice" (Sample.world 1)
     = (Ok Sample.userList, Sample.world 2)
  /\ fanout Sample.remote (buildTasks Sample.favourites Sample.userList)
       (Sample.world 2)
     = (Ok Sample.scoreMap, Sample.world 3)
  /\ map (fun r => (id (media (candidate r)), isPlanning r))
         (finalResults Sample.userList Sample.scoreMap)
     = [(10, false); (20, true); (2, false)]
  /\ forall r e,
       In r (finalResults Sample.userList Sample.scoreMap) ->
       In e Sample.userList ->
       mediaId e = id (media (candidate r)) ->
       status e = Some "PLANNING".
Proof.
  assert (Hf : fetchAllFavourites 5 Sample.remote "alice" freshWorld
               = (Ok Sample.favourites, Sample.world 1))
    by (vm_compute; reflexivity).
  assert (Hl : fetchUserList Sample.remote "alice" (Sample.world 1)
               = (Ok Sample.userList, Sample.world 2))
    by (vm_compute; reflexivity).
  assert (Hs : fanout Sample.remote
                 (buildTasks Sample.favourites Sample.userList) (Sample.world 2)
               = (Ok Sample.scoreMap, Sample.world 3))
    by (vm_compute; reflexivity).
  split; [exact Hf|]. split; [exact Hl|]. split; [exact Hs|].
  split; [vm_compute; reflexivity|].
  exact (proj1 (proj2 (seen_titles_excluded 5 Sample.remote "alice" freshWorld
                         _ _ _ _ _ _ Hf Hl Hs))).
Defined.

(** ** Favourites are not part of the exclusion *)

Lemma listed_hit k batches b m :
  In b batches -> In m (snd b) -> id m = k ->
  In (fst b, m) (hitsFor k (hitsOf batches)).
Proof.
  intros Hb Hm Hk. unfold hitsFor. apply filter_In. split.
  - unfold hitsOf. apply in_flat_map. exists b. split; [exact Hb|].
    apply in_map, Hm.
  - simpl. apply Z.eqb_eq, Hk.
Qed.

Lemma fanout_result remote tasks w scoreMap w' :
  fanout remote tasks w = (Ok scoreMap, w') ->
  scoreMap = aggregate (hitsOf (listed remote tasks)) [].
Proof.
  intros H. destruct (fanout_run remote tasks w) as [w'' H'].
  rewrite H in H'. inversion H'; reflexivity.
Qed.

Lemma sample_favourite_not_rated :
  forall e, In e Sample.userList -> mediaId e <> 2.
Proof.
  intros e He. vm_compute in He.
  repeat (destruct He as [He|He]; [subst e; vm_compute; discriminate|]).
  destruct He.
Qed.

Lemma sample_favourite_listed :
  exists b m, In b (listed Sample.remote
                      (buildTasks Sample.favourites Sample.userList))
              /\ In m (snd b) /\ id m = 2.
Proof.
  exists (favouriteTask {| fav_id := 1; fav_title := "Alpha" |},
          [Sample.X; Sample.B; Sample.Seen]), Sample.B.
  split; [vm_compute; auto|]. split; [simpl; auto | reflexivity].
Qed.

(** C10.  The exclusion of step 5 reads the rated list only.  Whenever a
    title is one of the user's favourites, has no entry in the rated list
    and is listed in the recommendation batch of some seed, the run returns
    it (unflagged); and such an input exists: on the sample catalogue the
    favourite 2, recommended by the favourite 1, is returned. *)
Theorem favourites_are_not_excluded :
  (forall fuel remote username w favourites w1 userList w2 scoreMap w3 k,
      fetchAllFavourites fuel remote username w = (Ok favourites, w1) ->
      fetchUserList remote username w1 = (Ok userList, w2) ->
      fanout remote (buildTasks favourites userList) w2 = (Ok scoreMap, w3) ->
      In k (favouriteSet favourites) ->
      (forall e, In e userList -> mediaId e <> k) ->
      (exists b m, In b (listed remote (buildTasks favourites userList))
                   /\ In m (snd b) /\ id m = k) ->
      exists results r,
        computeRecommendations fuel remote username w = (Ok results, w3)
        /\ In r results
        /\ id (media (candidate r)) = k
        /\ isPlanning r = false)
  /\ (exists remote username favourites userList results w' k,
         computeRecommendations 5 remote username freshWorld = (Ok results, w')
         /\ fetchAllFavourites 5 remote username freshWorld
            = (Ok favourites, fetched freshWorld)
         /\ fetchUserList remote username (fetched freshWorld)
            = (Ok userList, fetched (fetched freshWorld))
         /\ In k (favouriteSet favourites)
         /\ (forall e, In e userList -> mediaId e <> k)
         /\ (exists b m, In b (listed remote (buildTasks favourites userList))
                         /\ In m (snd b) /\ id m = k)
         /\ exists r, In r results /\ id (media (candidate r)) = k).
Proof.
  assert (General :
    forall fuel remote username w favourites w1 userList w2 scoreMap w3 k,
      fetchAllFavourites fuel remote username w = (Ok favourites, w1) ->
      fetchUserList remote username w1 = (Ok userList, w2) ->
      fanout remote (buildTasks favourites userList) w2 = (Ok scoreMap, w3) ->
      In k (favouriteSet favourites) ->
      (forall e, In e userList -> mediaId e <> k) ->
      (exists b m, In b (listed remote (buildTasks favourites userList))
                   /\ In m (snd b) /\ id m = k) ->
      exists results r,
        computeRecommendations fuel remote username w = (Ok results, w3)
        /\ In r results
        /\ id (media (candidate r)) = k
        /\ isPlanning r = false).
  { intros fuel remote username w favourites w1 userList w2 scoreMap w3 k
           Hf Hl Hs _ Hnot (b & m & Hb & Hm & Hk).
    pose proof (fanout_keyed _ _ _ _ _ Hs) as Hkeyed.
    pose proof (fanout_result _ _ _ _ _ Hs) as Hagg.
    pose proof (listed_hit k _ b m Hb Hm Hk) as Hhit.
    pose proof (get_aggregate_empty k
                  (hitsOf (listed remote (buildTasks favourites userList))))
      as Hget.
    rewrite <- Hagg in Hget.
    destruct (hitsFor k (hitsOf (listed remote (buildTasks favourites userList))))
      as [|h hs]; [destruct Hhit|].
    apply (get_In Z.eqb Z.eqb_spec) in Hget.
    eexists. eexists. split; [eapply computeRecommendations_run; eassumption|].
    split; [|split].
    - apply finalResults_In, refined_In. do 2 eexists.
      split; [exact Hget|]. split; [|reflexivity].
      intros Hseen. apply seenIds_In in Hseen.
      destruct Hseen as (e & He & Hke & _). exact (Hnot e He Hke).
    - simpl. apply (Hkeyed _ _ Hget).
    - simpl. destruct (Js.setHas Z.eqb k (planningIds userList)) eqn:E;
        [|reflexivity].
      apply setHas_In, planningIds_In in E.
      destruct E as (e & He & Hke & _). destruct (Hnot e He Hke). }
  split; [exact General|].
  assert (Hf : fetchAllFavourites 5 Sample.remote "alice" freshWorld
               = (Ok Sample.favourites, fetched freshWorld))
    by (vm_compute; reflexivity).
  assert (Hl : fetchUserList Sample.remote "alice" (fetched freshWorld)
               = (Ok Sample.userList, fetched (fetched freshWorld)))
    by (vm_compute; reflexivity).
  assert (Hs : fanout Sample.remote
                 (buildTasks Sample.favourites Sample.userList)
                 (fetched (fetched freshWorld))
               = (Ok Sample.scoreMap, Sample.world 3))
    by (vm_compute; reflexivity).
  assert (Hfav : In 2 (favouriteSet Sample.favourites))
    by (vm_compute; auto).
  pose proof sample_favourite_not_rated as Hnot.
  pose proof sample_favourite_listed as Hlisted.
  destruct (General 5%nat Sample.remote "alice" freshWorld _ _ _ _ _ _ 2
              Hf Hl Hs Hfav Hnot Hlisted)
    as (results & r & Hrun & Hr & Hid & _).
  exists Sample.remote, "alice", Sample.favourites, Sample.userList,
         results, (Sample.world 3), 2.
  repeat (split; [assumption|]). eauto.
Qed.

(** On the sample catalogue the favourite 2 is returned. *)
Lemma favourites_are_not_excluded_witness :
  exists results r,
    computeRecommendations 5 Sample.remote "alice" freshWorld
    = (Ok results, Sample.world 3)
    /\ In r results
    /\ id (media (candidate r)) = 2
    /\ isPlanning r = false.
Proof.
  apply (proj1 favourites_are_not_excluded 5%nat Sample.remote "alice"
           freshWorld Sample.favourites (Sample.world 1)
           Sample.userList (Sample.world 2) Sample.scoreMap (Sample.world 3) 2).
  - vm_compute; reflexivity.
  - vm_compute; reflexivity.
  - vm_compute; reflexivity.
  - vm_compute; auto.
  - exact sample_favourite_not_rated.
  - exact sample_favourite_listed.
Defined.

(** ** The base score *)

(** C1.  The fan-out always returns a score map.  Every seed has one
    recommendation batch ([listed], empty when its chunk's call failed or
    its alias is missing), and for every title [k] held by the score map:
    its [baseScore] is the sum of the weights of the seeds over the hits
    that name [k], its [reasons] hold one record per such hit, in processing
    order, and its payload has id [k]; a title is absent exactly when no hit
    names it.  When no batch lists a title twice, the sum is the sum of the
    weights of the seeds whose batch lists [k].  Processing the hits in any
    other order gives the same [baseScore]. *)
Theorem baseScore_sums_seed_weights
    (remote : Remote) (tasks : list Task) (w : World) :
  exists scoreMap w',
    fanout remote tasks w = (Ok scoreMap, w')
    /\ map fst (listed remote tasks) = tasks
    /\ (forall k c,
           Js.get Z.eqb k scoreMap = Some c ->
           baseScore c = sumWeights (hitsFor k (hitsOf (listed remote tasks)))
           /\ reasons c
              = map (fun h => reasonOf (fst h))
                    (hitsFor k (hitsOf (listed remote tasks)))
           /\ List.length (reasons c)
              = List.length (hitsFor k (hitsOf (listed remote tasks)))
           /\ id (media c) = k)
    /\ (forall k,
           Js.get Z.eqb k scoreMap = None
           <-> hitsFor k (hitsOf (listed remote tasks)) = [])
    /\ (forall k c,
           Js.get Z.eqb k scoreMap = Some c ->
           (forall b, In b (listed remote tasks) -> NoDup (map id (snd b))) ->
           baseScore c = totalWeight (seedsListing k (listed remote tasks)))
    /\ (forall k hits',
           Permutation (hitsOf (listed remote tasks)) hits' ->
           option_map baseScore (Js.get Z.eqb k (aggregate hits' []))
           = option_map baseScore (Js.get Z.eqb k scoreMap)).
Proof.
  destruct (fanout_run remote tasks w) as [w' Hrun].
  exists (aggregate (hitsOf (listed remote tasks)) []), w'.
  assert (Hentry : forall k c,
             Js.get Z.eqb k (aggregate (hitsOf (listed remote tasks)) []) = Some c ->
             baseScore c = sumWeights (hitsFor k (hitsOf (listed remote tasks)))
             /\ reasons c
                = map (fun h => reasonOf (fst h))
                      (hitsFor k (hitsOf (listed remote tasks)))
             /\ List.length (reasons c)
                = List.length (hitsFor k (hitsOf (listed remote tasks)))
             /\ id (media c) = k).
  { intros k c Hget. rewrite get_aggregate_empty in Hget.
    destruct (hitsFor k (hitsOf (listed remote tasks))) as [|h hs] eqn:E;
      [discriminate|].
    inversion Hget; subst c; simpl. repeat split.
    - rewrite length_map. reflexivity.
    - assert (Hin : In h (hitsFor k (hitsOf (listed remote tasks))))
        by (rewrite E; left; reflexivity).
      unfold hitsFor in Hin. apply filter_In in Hin.
      apply Z.eqb_eq, Hin. }
  split; [exact Hrun|].
  split; [apply listed_seeds|].
  split; [exact Hentry|].
  split; [|split].
  - intros k. rewrite get_aggregate_empty.
    destruct (hitsFor k (hitsOf (listed remote tasks))); split;
      congruence.
  - intros k c Hget Hnd. destruct (Hentry k c Hget) as [Hb _].
    rewrite Hb. apply sumWeights_by_seed, Hnd.
  - intros k hits' HP. symmetry. apply baseScore_order_independent, HP.
Qed.

(** The scenario of the specification: two favourites and one top-rated
    seed; X is listed by both favourites, Y by one favourite and by the
    top-rated seed. *)
Lemma baseScore_sums_seed_weights_witness :
  exists scoreMap w',
    fanout Sample.remote (buildTasks Sample.favourites Sample.userList)
      freshWorld = (Ok scoreMap, w')
    /\ option_map baseScore (Js.get Z.eqb 10 scoreMap) = Some 4
    /\ option_map (fun c => List.length (reasons c)) (Js.get Z.eqb 10 scoreMap)
       = Some 2%nat
    /\ option_map baseScore (Js.get Z.eqb 20 scoreMap) = Some 3
    /\ forall c,
         Js.get Z.eqb 10 scoreMap = Some c ->
         baseScore c
         = totalWeight
             (seedsListing 10
                (listed Sample.remote
                   (buildTasks Sample.favourites Sample.userList))).
Proof.
  destruct (baseScore_sums_seed_weights Sample.remote
              (buildTasks Sample.favourites Sample.userList) freshWorld)
    as (sm & w' & Hrun & _ & _ & _ & Hseed & _).
  exists sm, w'. split; [exact Hrun|].
  assert (Hsm : sm = Sample.scoreMap).
  { vm_compute in Hrun. inversion Hrun. reflexivity. }
  subst sm.
  split; [vm_compute; reflexivity|].
  split; [vm_compute; reflexivity|].
  split; [vm_compute; reflexivity|].
  intros c Hget. apply (Hseed 10 c Hget).
  intros b Hb. vm_compute in Hb.
  repeat (destruct Hb as [Hb|Hb];
          [subst b; simpl;
           repeat (constructor; [simpl; intuition discriminate|]); constructor|]).
  destruct Hb.
Defined.

(** A seed whose batch lists a title twice counts twice.  The favourite
    lists the title 10 twice and the top-rated seed lists it once: its
    [baseScore] is 2 + 2 + 1 = 5 and it has three reasons, where the sum of
    the weights of the seeds whose batch lists it is 2 + 1 = 3 and two seeds
    recommend it. *)
Lemma baseScore_duplicate_counterexample :
  exists scoreMap w' c,
    fanout Duplicate.remote Duplicate.tasks freshWorld = (Ok scoreMap, w')
    /\ Js.get Z.eqb 10 scoreMap = Some c
    /\ baseScore c = 5
    /\ totalWeight (seedsListing 10 (listed Duplicate.remote Duplicate.tasks))
       = 3
    /\ List.length (reasons c) = 3%nat
    /\ List.length (seedsListing 10 (listed Duplicate.remote Duplicate.tasks))
       = 2%nat.
Proof.
  do 3 eexists. split; [vm_compute; reflexivity|].
  split; [vm_compute; reflexivity|].
  repeat split.
Qed.

(** ** Step 6: the bonus *)

Lemma sort_by_Zkey_sorted {A} (key : A -> Z) (l : list A) :
  StronglySorted (fun a b => key b <= key a)
    (Js.sort (fun a b => Z.compare (key b) (key a)) l).
Proof.
  assert (H : StronglySorted (notAfter (fun a b => Z.compare (key b) (key a)))
                (Js.sort (fun a b => Z.compare (key b) (key a)) l)).
  { apply sort_sorted; unfold notAfter.
    - intros x y Hxy. apply Z.compare_gt_iff in Hxy.
      apply Z.compare_le_iff. lia.
    - intros x y z Hxy Hyz.
      pose proof (proj1 (Z.compare_le_iff _ _) Hxy).
      pose proof (proj1 (Z.compare_le_iff _ _) Hyz).
      apply Z.compare_le_iff. lia. }
  induction H as [|x r Hr IH Hx]; constructor; [exact IH|].
  eapply Forall_impl; [|exact Hx]. intros y. apply Z.compare_le_iff.
Qed.

Lemma firstn_In {A} n (l : list A) x : In x (firstn n l) -> In x l.
Proof.
  intros H. rewrite <- (firstn_skipn n l). apply in_or_app. left. exact H.
Qed.

Lemma firstn_sorted {A} (R : A -> A -> Prop) n :
  forall l, StronglySorted R l -> StronglySorted R (firstn n l).
Proof.
  induction n as [|n IH]; intros l Hs; simpl; [constructor|].
  destruct Hs as [|x r Hr Hx]; constructor; [apply IH, Hr|].
  eapply incl_Forall; [|exact Hx].
  intros y Hy. eapply firstn_In. exact Hy.
Qed.

Lemma commonOf_length tagMap m :
  List.length (commonOf tagMap m) = List.length (sharedTags tagMap m).
Proof.
  unfold commonOf, sharedTags, Js.has.
  induction (Js.orElse (m_tags m) []) as [|tag r IH]; simpl; [reflexivity|].
  destruct (Js.get String.eqb (tag_name tag) tagMap); simpl; lia.
Qed.

Lemma commonOf_In tagMap m ct :
  In ct (commonOf tagMap m) ->
  exists tag u,
    In tag (Js.orElse (m_tags m) [])
    /\ name ct = tag_name tag
    /\ Js.get String.eqb (name ct) tagMap = Some u
    /\ strength ct = Js.roundDiv (totalRank u) (count u).
Proof.
  unfold commonOf. intros H. apply in_flat_map in H.
  destruct H as (tag & Hin & Hct).
  destruct (Js.get String.eqb (tag_name tag) tagMap) as [u|] eqn:G;
    [|destruct Hct].
  destruct Hct as [Hct|[]]. subst ct. simpl.
  exists tag, u. repeat split; auto.
Qed.

(** [toFixed(1)] leaves a multiple of a tenth as it is. *)
Lemma toFixed1_tenths (k : Z) (x : Q) :
  (x == k # 10)%Q -> (Js.toFixed1 x == x)%Q.
Proof.
  intros Hx. unfold Js.toFixed1.
  assert (Hr : (x * inject_Z 10 + (1 # 2) == (2 * k + 1) # 2)%Q).
  { rewrite Hx. unfold Qeq, Qplus, Qmult, inject_Z. cbn [Qnum Qden]. lia. }
  rewrite Hr, Hx. unfold Qfloor.
  replace ((2 * k + 1) / 2) with k
    by (apply (Z.div_unique _ 2 k 1); lia).
  reflexivity.
Qed.

Lemma bonus_tenths (b : Z) (n m : nat) :
  (inject_Z b
   + inject_Z (Z.min (Z.of_nat n) 3) * TAG_BONUS
   + inject_Z (Z.min (Z.of_nat m) 3) * GENRE_BONUS
   == (10 * b + 5 * Z.min (Z.of_nat n) 3 + 3 * Z.min (Z.of_nat m) 3) # 10)%Q.
Proof.
  unfold TAG_BONUS, GENRE_BONUS, Qeq, Qplus, Qmult, inject_Z.
  cbn [Qnum Qden]. lia.
Qed.

(** C3.  For an entry that passed the filter, step 6 computes: a tag
    component of min(number of the title's tags found in the user's tag
    profile, 3) x 0.5, at most 1.5; a genre component of min(number of the
    title's genres found in the top-genre set, 3) x 0.3, at most 0.9;
    [commonTags], the first 5 of the matches sorted by descending strength,
    each strength being round(totalRank / count) of the profile entry of
    that name; [score], the sum of the base score and the two components
    rounded to one decimal (which changes nothing, the sum being a multiple
    of a tenth); and [tagBonus], the rounded sum of the two components. *)
Theorem refine_bonus
    (tagMap : list (string * TagStat)) (top : list string)
    (entry : Candidate * bool) :
  tagComponent tagMap entry
  = (inject_Z
       (Z.min (Z.of_nat (List.length (sharedTags tagMap (media (fst entry))))) 3)
     * TAG_BONUS)%Q
  /\ (tagComponent tagMap entry <= 15 # 10)%Q
  /\ genreComponent top entry
     = (inject_Z
          (Z.min (Z.of_nat
                    (List.length
                       (filter (fun g => Js.setHas String.eqb g top)
                               (Js.orElse (m_genres (media (fst entry))) []))))
                 3)
        * GENRE_BONUS)%Q
  /\ (genreComponent top entry <= 9 # 10)%Q
  /\ commonTags (refine tagMap top entry)
     = firstn 5 (Js.sort byStrengthDesc (commonOf tagMap (media (fst entry))))
  /\ (List.length (commonTags (refine tagMap top entry)) <= 5)%nat
  /\ StronglySorted strengthDesc (commonTags (refine tagMap top entry))
  /\ StronglySorted strengthDesc
       (Js.sort byStrengthDesc (commonOf tagMap (media (fst entry))))
  /\ Permutation (Js.sort byStrengthDesc (commonOf tagMap (media (fst entry))))
                 (commonOf tagMap (media (fst entry)))
  /\ (forall ct,
         In ct (commonTags (refine tagMap top entry)) ->
         exists tag u,
           In tag (Js.orElse (m_tags (media (fst entry))) [])
           /\ name ct = tag_name tag
           /\ Js.get String.eqb (name ct) tagMap = Some u
           /\ strength ct = Js.roundDiv (totalRank u) (count u))
  /\ finalScore (refine tagMap top entry)
     = Js.toFixed1 (inject_Z (baseScore (fst entry))
                    + tagComponent tagMap entry + genreComponent top entry)
  /\ (finalScore (refine tagMap top entry)
      == inject_Z (baseScore (fst entry))
         + tagComponent tagMap entry + genreComponent top entry)%Q
  /\ tagBonus (refine tagMap top entry)
     = Js.toFixed1 (tagComponent tagMap entry + genreComponent top entry)
  /\ (tagBonus (refine tagMap top entry)
      == tagComponent tagMap entry + genreComponent top entry)%Q.
Proof.
  assert (Hsorted : StronglySorted strengthDesc
            (Js.sort byStrengthDesc (commonOf tagMap (media (fst entry)))))
    by apply (sort_by_Zkey_sorted strength).
  split.
  { unfold tagComponent, tagPart. rewrite sort_length, commonOf_length.
    reflexivity. }
  split.
  { unfold tagComponent, tagPart, TAG_BONUS, Qle, Qmult, inject_Z.
    cbn [Qnum Qden]. lia. }
  split; [reflexivity|].
  split.
  { unfold genreComponent, genrePart, GENRE_BONUS, Qle, Qmult, inject_Z.
    cbn [Qnum Qden]. lia. }
  split; [reflexivity|].
  split; [apply firstn_le_length|].
  split; [apply firstn_sorted, Hsorted|].
  split; [exact Hsorted|].
  split; [apply sort_perm|].
  split.
  { intros ct Hct. apply commonOf_In.
    apply (Permutation_in _ (sort_perm byStrengthDesc _)).
    eapply firstn_In. exact Hct. }
  split; [reflexivity|].
  split.
  { unfold refine, tagComponent, genreComponent, tagPart, genrePart. simpl.
    eapply toFixed1_tenths. apply bonus_tenths. }
  split; [reflexivity|].
  unfold refine, tagComponent, genreComponent, tagPart, genrePart. simpl.
  eapply toFixed1_tenths.
  pose proof (bonus_tenths 0
    (List.length (Js.sort byStrengthDesc (commonOf tagMap (media (fst entry)))))
    (List.length (matchedGenres top (media (fst entry))))) as H.
  rewrite <- H. unfold inject_Z at 3. rewrite Qplus_0_l. reflexivity.
Qed.

(** ** Step 3: the seeds *)

Lemma byScoreDesc_total x y :
  byScoreDesc x y = Gt -> notAfter byScoreDesc y x.
Proof.
  unfold notAfter, byScoreDesc. intros H. apply Z.compare_gt_iff in H.
  apply Z.compare_le_iff. lia.
Qed.

Lemma byScoreDesc_trans x y z :
  notAfter byScoreDesc x y -> notAfter byScoreDesc y z ->
  notAfter byScoreDesc x z.
Proof.
  unfold notAfter, byScoreDesc. intros Hxy Hyz.
  pose proof (proj1 (Z.compare_le_iff _ _) Hxy).
  pose proof (proj1 (Z.compare_le_iff _ _) Hyz).
  apply Z.compare_le_iff. lia.
Qed.

(** The window of [topRated] in terms of the fetch order. *)
Lemma topRated_ranked fetched :
  topRated (Js.sort byScoreDesc fetched) = firstn 25 (rankedRated fetched).
Proof.
  unfold topRated, rankedRated, Js.slice0.
  change (fun e => negb (isPlanningEntry e) && (0 <? score e)) with ratedEntry.
  rewrite (filter_sort byScoreDesc byScoreDesc_total byScoreDesc_trans).
  reflexivity.
Qed.

Lemma equal_scores_sorted s (l : list ListEntry) :
  Forall (fun e => score e = s) l -> StronglySorted (notAfter byScoreDesc) l.
Proof.
  induction 1 as [|x r Hx Hr IH]; constructor; [exact IH|].
  eapply Forall_impl; [|exact Hr]. intros y Hy.
  unfold notAfter, byScoreDesc. rewrite Hx, Hy, Z.compare_refl. discriminate.
Qed.

(** Entries of equal score keep their fetch order. *)
Lemma rankedRated_stable s fetched :
  filter (fun e => score e =? s) (rankedRated fetched)
  = filter (fun e => score e =? s) (filter ratedEntry fetched).
Proof.
  unfold rankedRated.
  rewrite (filter_sort byScoreDesc byScoreDesc_total byScoreDesc_trans).
  apply (sort_id byScoreDesc), (equal_scores_sorted s).
  apply Forall_forall. intros e He. apply filter_In in He.
  apply Z.eqb_eq, He.
Qed.

Lemma filter_partition_length {A} (p : A -> bool) l :
  (List.length (filter p l) + List.length (filter (fun x => negb (p x)) l)
   = List.length l)%nat.
Proof.
  induction l as [|x r IH]; simpl; [reflexivity|].
  destruct (p x); simpl; lia.
Qed.

(** Cutting a window of [n + m] before filtering does not change the first
    [n] kept elements, as long as the window drops at most [m]. *)
Lemma firstn_filter_window {A} (p : A -> bool) (n m : nat) (l : list A) :
  (List.length (filter (fun x => negb (p x)) (firstn (n + m) l)) <= m)%nat ->
  firstn n (filter p (firstn (n + m) l)) = firstn n (filter p l).
Proof.
  intros Hdrop.
  destruct (Nat.le_gt_cases (List.length l) (n + m)) as [Hshort|Hlong].
  - replace (firstn (n + m) l) with l
      by (symmetry; apply firstn_all2; exact Hshort).
    reflexivity.
  - rewrite <- (firstn_skipn (n + m) l) at 2.
    rewrite filter_app, firstn_app.
    pose proof (filter_partition_length p (firstn (n + m) l)) as Hpart.
    rewrite length_firstn in Hpart.
    replace (n - List.length (filter p (firstn (n + m) l)))%nat with 0%nat
      by lia.
    simpl. symmetry. apply app_nil_r.
Qed.

(** C5, as the code has it.  With [fetched] the rated list in fetch order
    (so that [fetchUserList] returns its stable sort by descending score),
    the seeds are the first 15 favourites at weight 2 followed by, at weight
    1, the first 10 non-favourite entries among the 25 highest-ranked rated
    entries (non-planning, score > 0), where the ranking is by descending
    score with fetch order breaking ties.  When at most 15 entries of that
    window are favourites this is the seed set of the specification. *)
Theorem seeds_from_rated_window
    (favourites : list Favourite) (fetched : list ListEntry) :
  buildTasks favourites (Js.sort byScoreDesc fetched)
  = windowSeeds favourites fetched
  /\ StronglySorted listScoreDesc (rankedRated fetched)
  /\ Permutation (rankedRated fetched) (filter ratedEntry fetched)
  /\ (forall s,
         filter (fun e => score e =? s) (rankedRated fetched)
         = filter (fun e => score e =? s) (filter ratedEntry fetched))
  /\ Forall (fun task => task_weight task = 2)
            (map favouriteTask (firstn 15 favourites))
  /\ Forall (fun task => task_weight task = 1)
            (map topRatedTask (topOnly favourites (Js.sort byScoreDesc fetched)))
  /\ (List.length (topOnly favourites (Js.sort byScoreDesc fetched)) <= 10)%nat
  /\ ((List.length
         (filter (fun e => negb (nonFavourite favourites e))
                 (firstn 25 (rankedRated fetched))) <= 15)%nat ->
      buildTasks favourites (Js.sort byScoreDesc fetched)
      = claimedSeeds favourites fetched).
Proof.
  assert (Hcode : buildTasks favourites (Js.sort byScoreDesc fetched)
                  = windowSeeds favourites fetched).
  { unfold buildTasks, windowSeeds, usedFavs, topOnly, Js.slice0.
    rewrite topRated_ranked. reflexivity. }
  split; [exact Hcode|].
  split; [apply (sort_by_Zkey_sorted score)|].
  split; [apply sort_perm|].
  split; [intros s; apply rankedRated_stable|].
  split.
  { apply Forall_forall. intros task Ht. apply in_map_iff in Ht.
    destruct Ht as (f & Hf & _). subst task. reflexivity. }
  split.
  { apply Forall_forall. intros task Ht. apply in_map_iff in Ht.
    destruct Ht as (e & He & _). subst task. reflexivity. }
  split; [apply firstn_le_length|].
  intros Hfew. rewrite Hcode. unfold windowSeeds, claimedSeeds.
  do 2 f_equal.
  apply (firstn_filter_window (nonFavourite favourites) 10 15). exact Hfew.
Qed.

(** With 16 favourites that are all among the 25 highest-ranked rated
    entries, the code takes 9 rated seeds where the specification promises
    10: title 110 is left out. *)
Lemma seeds_window_counterexample :
  buildTasks ManyFavourites.favourites ManyFavourites.userList
  <> claimedSeeds ManyFavourites.favourites ManyFavourites.fetched.
Proof.
  intros H. apply (f_equal (@List.length Task)) in H.
  vm_compute in H. discriminate.
Qed.

Example many_favourites_seed_ids :
  map task_mediaId
      (buildTasks ManyFavourites.favourites ManyFavourites.userList)
  = [1; 2; 3; 4; 5; 6; 7; 8; 9; 10; 11; 12; 13; 14; 15;
     101; 102; 103; 104; 105; 106; 107; 108; 109]
  /\ map task_mediaId
         (claimedSeeds ManyFavourites.favourites ManyFavourites.fetched)
     = [1; 2; 3; 4; 5; 6; 7; 8; 9; 10; 11; 12; 13; 14; 15;
        101; 102; 103; 104; 105; 106; 107; 108; 109; 110].
Proof. split; vm_compute; reflexivity. Qed.

(** On the sample catalogue (two favourites) the window loses nothing. *)
Lemma seeds_from_rated_window_witness :
  buildTasks Sample.favourites
    (Js.sort byScoreDesc (flattenLists Sample.lists))
  = claimedSeeds Sample.favourites (flattenLists Sample.lists).
Proof.
  apply (seeds_from_rated_window Sample.favourites (flattenLists Sample.lists)).
  vm_compute. lia.
Defined.

(** ** Display names *)

Lemma or_truthy a b : Js.truthy a = true -> Js.or a b = a.
Proof. unfold Js.or. intros ->. reflexivity. Qed.

Lemma or_falsy a b : Js.truthy a = false -> Js.or a b = b.
Proof. unfold Js.or. intros ->. reflexivity. Qed.

Lemma orDefault_truthy a d :
  Js.truthy a = true -> Some (Js.orDefault a d) = a.
Proof. destruct a as [[|c s]|]; simpl; intros H; congruence. Qed.

Lemma orDefault_falsy a d : Js.truthy a = false -> Js.orDefault a d = d.
Proof. destruct a as [[|c s]|]; simpl; intros H; congruence. Qed.

(** C8.  A favourite's display name is the english title when present
    (non-null and non-empty), otherwise the romaji title when present,
    otherwise "#" followed by the id.  A rated-list entry follows the first
    two steps only: with neither title present its [title] is the (null or
    empty) romaji value and never "#" followed by the id, as for the entry
    42 below, where the favourite of the same id is named "#42". *)
Theorem display_name_fallback :
  (forall n,
      (Js.truthy (english (node_title n)) = true ->
       Some (fav_title (favouriteOfNode n)) = english (node_title n))
      /\ (Js.truthy (english (node_title n)) = false ->
          Js.truthy (romaji (node_title n)) = true ->
          Some (fav_title (favouriteOfNode n)) = romaji (node_title n))
      /\ (Js.truthy (english (node_title n)) = false ->
          Js.truthy (romaji (node_title n)) = false ->
          fav_title (favouriteOfNode n) = hashId (node_id n)))
  /\ (forall list entry,
         (Js.truthy (english (em_title (raw_media entry))) = true ->
          title (listEntryOf list entry) = english (em_title (raw_media entry)))
         /\ (Js.truthy (english (em_title (raw_media entry))) = false ->
             title (listEntryOf list entry) = romaji (em_title (raw_media entry)))
         /\ (Js.truthy (english (em_title (raw_media entry))) = false ->
             Js.truthy (romaji (em_title (raw_media entry))) = false ->
             title (listEntryOf list entry)
             <> Some (hashId (raw_mediaId entry))))
  /\ title (listEntryOf
              {| list_status := Some "COMPLETED"; entries := [] |}
              {| raw_mediaId := 42; raw_score := 8; raw_status := None;
                 raw_media := {| em_title := untitled; em_genres := None;
                                 em_tags := None |} |})
     = None
  /\ fav_title (favouriteOfNode {| node_id := 42; node_title := untitled |})
     = "#42".
Proof.
  split; [|split; [|split; reflexivity]].
  - intros n. unfold favouriteOfNode; simpl. repeat split.
    + intros He. rewrite (or_truthy _ _ He). apply orDefault_truthy, He.
    + intros He Hr. rewrite (or_falsy _ _ He). apply orDefault_truthy, Hr.
    + intros He Hr. rewrite (or_falsy _ _ He). apply orDefault_falsy, Hr.
  - intros list entry. unfold listEntryOf; simpl. repeat split.
    + intros He. apply or_truthy, He.
    + intros He. apply or_falsy, He.
    + intros He Hr. rewrite (or_falsy _ _ He).
      unfold hashId.
      destruct (romaji (em_title (raw_media entry))) as [[|c s]|];
        simpl in *; congruence.
Qed.

(** ** The retry policy on two servers *)

(** Five rate-limited attempts: four sleeps of 1.5 s, 3 s, 6 s and 12 s,
    five fetches, then "Too Many Requests".  Two rate-limited attempts with
    [Retry-After: 3]: two sleeps of 3 s, then the answer. *)
Lemma gqlRequest_retry_policy_witness :
  ((4 <= MAX_RETRIES)%nat
   /\ (forall k, (k < 4)%nat -> res_status (Sample.alwaysLimited k) = 429)
   /\ gqlRequest Sample.alwaysLimited freshWorld
      = (Throw TooManyRequests,
         {| w_token := None; w_viewer := None; w_storage := [];
            w_slept := [1500; 3000; 6000; 12000]; w_fetches := 5;
            w_warned := [] |}))
  /\ ((2 <= MAX_RETRIES)%nat
      /\ (forall k, (k < 2)%nat -> res_status (Sample.hinted k) = 429)
      /\ gqlRequest Sample.hinted freshWorld
         = (Ok (Some 7),
            {| w_token := None; w_viewer := None; w_storage := [];
               w_slept := [3000; 3000]; w_fetches := 3; w_warned := [] |})).
Proof.
  assert (H4 : (4 <= MAX_RETRIES)%nat) by (unfold MAX_RETRIES; lia).
  assert (H2 : (2 <= MAX_RETRIES)%nat) by (unfold MAX_RETRIES; lia).
  assert (Ha : forall k, (k < 4)%nat -> res_status (Sample.alwaysLimited k) = 429)
    by (intros k _; reflexivity).
  assert (Hh : forall k, (k < 2)%nat -> res_status (Sample.hinted k) = 429).
  { intros k Hk. unfold Sample.hinted.
    destruct (Nat.ltb_spec k 2); [reflexivity | lia]. }
  split; (split; [assumption|]); (split; [assumption|]).
  - destruct (gqlRequest_retry_policy Sample.alwaysLimited freshWorld 4 H4 Ha)
      as (_ & Hfail & _).
    rewrite Hfail by reflexivity. reflexivity.
  - destruct (gqlRequest_retry_policy Sample.hinted freshWorld 2 H2 Hh)
      as (Hanswer & _).
    rewrite Hanswer by (vm_compute; discriminate). reflexivity.
Defined.

(** ** The scenarios of the specification *)

(** Four shared tags: the tag component is 3 x 0.5, the genre component
    3 x 0.3, the display list holds the four matches by descending strength
    (90, 80, 70, 61) and the score is 4 + 1.5 + 0.9. *)
Lemma refine_bonus_witness :
  (tagComponent Scenario.tagMap Scenario.fourTags == 15 # 10)%Q
  /\ (genreComponent ["Action"; "Drama"; "Comedy"; "Sports"] Scenario.fourTags
      == 9 # 10)%Q
  /\ map strength
         (commonTags (refine Scenario.tagMap
                        ["Action"; "Drama"; "Comedy"; "Sports"]
                        Scenario.fourTags))
     = [90; 80; 70; 61]
  /\ (finalScore (refine Scenario.tagMap
                    ["Action"; "Drama"; "Comedy"; "Sports"]
                    Scenario.fourTags) == 64 # 10)%Q.
Proof.
  destruct (refine_bonus Scenario.tagMap
              ["Action"; "Drama"; "Comedy"; "Sports"] Scenario.fourTags)
    as (Ht & _ & Hg & _ & Hc & _ & _ & _ & _ & _ & _ & Hs & _).
  split; [rewrite Ht; reflexivity|].
  split; [rewrite Hg; reflexivity|].
  split; [rewrite Hc; reflexivity|].
  rewrite Hs, Ht, Hg. reflexivity.
Defined.

(** Eight titles of primary genre "Action": the first five stay in place and
    the other three follow in their score order. *)
Example diversify_eight_actions :
  map (fun r => id (media (candidate r))) (diversify Scenario.eightActions)
  = [1; 2; 3; 4; 5; 6; 7; 8]
  /\ List.length (diversified (diversityPass Scenario.eightActions)) = 5%nat
  /\ map (fun r => id (media (candidate r)))
         (deferred (diversityPass Scenario.eightActions))
     = [6; 7; 8].
Proof. repeat split. Qed.

(** An empty account: no favourites and no rated entries give an empty
    result list, not an error. *)
Example empty_account_returns_nothing :
  computeRecommendations 1
    {| favouritesServer :=
         fun _ _ _ => Sample.ok200 (Some {| nodes := []; hasNextPage := false |});
       listServer := fun _ _ => Sample.ok200 (Some []);
       recommendationsServer := fun _ _ => Sample.ok200 [];
       listRejectsFirst := fun _ => false |}
    "nobody" freshWorld
  = (Ok [], Sample.world 2).
Proof. reflexivity. Qed.

(* ===================================================================== *)
(** * Further properties of the code *)
(* ===================================================================== *)

(** ** The session: who logs out, and when *)

Lemma filter_authKey_twice (s : list string) :
  filter (fun k => negb (authKey k)) (filter (fun k => negb (authKey k)) s)
  = filter (fun k => negb (authKey k)) s.
Proof.
  induction s as [|k r IH]; simpl; [reflexivity|].
  destruct (negb (authKey k)) eqn:E; simpl; [rewrite E|]; congruence.
Qed.

Lemma handleResponse_session {A} (res : Response A) w :
  w_warned (snd (handleResponse res w)) = w_warned w
  /\ w_slept (snd (handleResponse res w)) = w_slept w
  /\ w_fetches (snd (handleResponse res w)) = w_fetches w
  /\ (fst (handleResponse res w) = Throw TokenExpired ->
      auth (snd (handleResponse res w)) = loggedOutFrom w)
  /\ (fst (handleResponse res w) <> Throw TokenExpired ->
      auth (snd (handleResponse res w)) = auth w).
Proof.
  unfold handleResponse.
  destruct (body res) as [json|]; [|repeat split; simpl; congruence].
  destruct (errors json).
  - destruct (data json); [repeat split; simpl; congruence|].
    destruct (res_ok res); repeat split; simpl; congruence.
  - match goal with |- context [if ?b then _ else _] => destruct b end;
      repeat split; simpl; congruence.
Qed.

Lemma gqlRequestFrom_session {A} (srv : Server A) fuel :
  forall a w,
    w_warned (snd (gqlRequestFrom fuel srv a w)) = w_warned w
    /\ (fst (gqlRequestFrom fuel srv a w) = Throw TokenExpired ->
        auth (snd (gqlRequestFrom fuel srv a w)) = loggedOutFrom w)
    /\ (fst (gqlRequestFrom fuel srv a w) <> Throw TokenExpired ->
        auth (snd (gqlRequestFrom fuel srv a w)) = auth w).
Proof.
  induction fuel as [|fuel IH]; intros a w.
  - repeat split; simpl; congruence.
  - destruct (Z.eq_dec (res_status (srv a)) 429) as [E|E].
    + destruct (Nat.le_gt_cases MAX_RETRIES a) as [Hc|Hc].
      * rewrite (gqlRequestFrom_ceiling srv fuel a w E Hc).
        repeat split; simpl; congruence.
      * rewrite (gqlRequestFrom_retry srv fuel a w E Hc).
        destruct (IH (S a) (afterRetries srv a 1 w)) as (Hw & Hout & Hkept).
        repeat split; assumption.
    + rewrite (gqlRequestFrom_answer srv fuel a w E).
      destruct (handleResponse_session (srv a) (fetched w))
        as (Hw & _ & _ & Hout & Hkept).
      repeat split; assumption.
Qed.

(** X1.  [gqlRequest] touches the session in one case only.  When it throws
    TOKEN_EXPIRED the token and the viewer are cleared and the keys
    anilistToken, anilistViewer and recoCache are removed from the storage,
    every other key being kept; with any other outcome the token, the viewer
    and the storage are as before.  It never writes to the console
    warnings. *)
Theorem gqlRequest_session {A} (srv : Server A) (w : World) :
  w_warned (snd (gqlRequest srv w)) = w_warned w
  /\ (fst (gqlRequest srv w) = Throw TokenExpired ->
      w_token (snd (gqlRequest srv w)) = None
      /\ w_viewer (snd (gqlRequest srv w)) = None
      /\ (forall k,
             In k (w_storage (snd (gqlRequest srv w)))
             <-> In k (w_storage w)
                 /\ k <> "anilistToken" /\ k <> "anilistViewer"
                 /\ k <> "recoCache"))
  /\ (fst (gqlRequest srv w) <> Throw TokenExpired ->
      w_token (snd (gqlRequest srv w)) = w_token w
      /\ w_viewer (snd (gqlRequest srv w)) = w_viewer w
      /\ w_storage (snd (gqlRequest srv w)) = w_storage w).
Proof.
  destruct (gqlRequestFrom_session srv (S MAX_RETRIES) 0 w)
    as (Hw & Hout & Hkept).
  fold (gqlRequest srv) in Hw, Hout, Hkept.
  split; [exact Hw|]. split.
  - intros H. specialize (Hout H). unfold auth, loggedOutFrom in Hout.
    assert (Ht : w_token (snd (gqlRequest srv w)) = None) by congruence.
    assert (Hv : w_viewer (snd (gqlRequest srv w)) = None) by congruence.
    assert (Hs : w_storage (snd (gqlRequest srv w))
                 = filter (fun k => negb (authKey k)) (w_storage w))
      by congruence.
    split; [exact Ht|]. split; [exact Hv|].
    intros k. rewrite Hs, filter_In. unfold authKey. simpl.
    destruct (String.eqb_spec k "anilistToken");
      destruct (String.eqb_spec k "anilistViewer");
      destruct (String.eqb_spec k "recoCache"); simpl;
      intuition congruence.
  - intros H. specialize (Hkept H). unfold auth in Hkept.
    inversion Hkept. auto.
Qed.

(** A rejected token on a signed-in session: the user name survives. *)
Lemma gqlRequest_session_witness :
  fst (gqlRequest (fun _ => @invalidToken Z) signedIn) = Throw TokenExpired
  /\ w_token (snd (gqlRequest (fun _ => @invalidToken Z) signedIn)) = None
  /\ w_storage (snd (gqlRequest (fun _ => @invalidToken Z) signedIn))
     = ["anilistUsername"]
  /\ w_token (snd (gqlRequest Sample.alwaysLimited signedIn)) = Some "token".
Proof.
  destruct (gqlRequest_session (fun _ => @invalidToken Z) signedIn)
    as (_ & Hout & _).
  destruct (gqlRequest_session Sample.alwaysLimited signedIn)
    as (_ & _ & Hkept).
  split; [reflexivity|].
  split; [apply Hout; reflexivity|].
  split; [reflexivity|].
  apply Hkept. vm_compute. discriminate.
Defined.

Lemma loggedOutFrom_kept w w1 :
  auth w1 = auth w -> loggedOutFrom w1 = loggedOutFrom w.
Proof. unfold auth, loggedOutFrom. intros H. congruence. Qed.

Lemma loggedOutFrom_again w w1 :
  auth w1 = loggedOutFrom w -> loggedOutFrom w1 = loggedOutFrom w.
Proof.
  unfold auth, loggedOutFrom. intros H.
  assert (Hs : w_storage w1 = filter (fun k => negb (authKey k)) (w_storage w))
    by congruence.
  rewrite Hs, filter_authKey_twice. reflexivity.
Qed.

Lemma sessionEffect_ret {A} (a : A) : sessionEffect (ret a).
Proof.
  intros w. exists []. simpl. rewrite app_nil_r.
  repeat split; [left; reflexivity | discriminate].
Qed.

Lemma sessionEffect_throw {A} e :
  e <> TokenExpired -> sessionEffect (@throw A e).
Proof.
  intros He w. exists []. simpl. rewrite app_nil_r.
  repeat split; [left; reflexivity | congruence].
Qed.

Lemma sessionEffect_diverge {A} : sessionEffect (@diverge A).
Proof.
  intros w. exists []. simpl. rewrite app_nil_r.
  repeat split; [left; reflexivity | discriminate].
Qed.

Lemma outcome_expired_dec {A} (o : Outcome A) :
  o = Throw TokenExpired \/ o <> Throw TokenExpired.
Proof.
  destruct o as [a|e|]; try (right; discriminate).
  destruct e; try (right; discriminate). left; reflexivity.
Qed.

Lemma sessionEffect_gqlRequest {A} (srv : Server A) :
  sessionEffect (gqlRequest srv).
Proof.
  intros w.
  destruct (gqlRequestFrom_session srv (S MAX_RETRIES) 0 w)
    as (Hw & Hout & Hkept).
  fold (gqlRequest srv) in Hw, Hout, Hkept.
  exists []. rewrite app_nil_r. split; [exact Hw|]. split; [|exact Hout].
  destruct (outcome_expired_dec (fst (gqlRequest srv w))) as [E|E].
  - right. auto.
  - left. auto.
Qed.

Lemma sessionEffect_bind {A B} (m : M A) (k : A -> M B) :
  sessionEffect m -> (forall a, sessionEffect (k a)) ->
  sessionEffect (bind m k).
Proof.
  intros Hm Hk w. unfold bind.
  destruct (Hm w) as (new1 & Hw1 & H1 & T1).
  destruct (m w) as [o w1]; simpl in *.
  destruct o as [a|e|].
  - destruct (Hk a w1) as (new2 & Hw2 & H2 & T2).
    destruct (k a w1) as [o2 w2]; simpl in *.
    exists (new1 ++ new2). rewrite Hw2, Hw1, app_assoc.
    split; [reflexivity|].
    assert (Hfrom : loggedOutFrom w1 = loggedOutFrom w).
    { destruct H1 as [H1|[H1 _]];
        [apply loggedOutFrom_kept | apply loggedOutFrom_again]; exact H1. }
    split.
    + destruct H1 as [H1|[H1 [C1|C1]]]; try discriminate.
      * destruct H2 as [H2|[H2 C2]].
        -- left. congruence.
        -- right. split; [congruence|].
           destruct C2 as [C2|C2]; [left; exact C2|].
           right. apply in_or_app. right. exact C2.
      * right. split.
        -- destruct H2 as [H2|[H2 _]]; congruence.
        -- right. apply in_or_app. left. exact C1.
    + intros E. rewrite (T2 E). exact Hfrom.
  - exists new1. simpl. split; [exact Hw1|]. split.
    + destruct H1 as [H1|[H1 [C|C]]].
      * left; exact H1.
      * right. split; [exact H1|]. left. inversion C. reflexivity.
      * right. split; [exact H1|]. right. exact C.
    + intros E. apply T1. inversion E. reflexivity.
  - exists new1. simpl. split; [exact Hw1|]. split.
    + destruct H1 as [H1|[H1 [C|C]]].
      * left; exact H1.
      * discriminate C.
      * right. split; [exact H1|]. right. exact C.
    + discriminate.
Qed.

(** [try { m } catch (err) { console.warn(err); x }]. *)
Lemma sessionEffect_catch_warn {A} (m : M A) (x : A) :
  sessionEffect m ->
  sessionEffect (tryCatch m (fun err => bind (warn err) (fun _ => ret x))).
Proof.
  intros Hm w. unfold tryCatch.
  destruct (Hm w) as (new1 & Hw1 & H1 & T1).
  destruct (m w) as [o w1]; simpl in *.
  destruct o as [a|e|].
  - exists new1. simpl. repeat split; assumption.
  - exists (new1 ++ [e]). unfold bind, warn, ret. simpl.
    rewrite Hw1, app_assoc. split; [reflexivity|]. split; [|discriminate].
    destruct H1 as [H1|[H1 C1]]; [left; exact H1|].
    right. split; [exact H1|]. right. apply in_or_app.
    destruct C1 as [C1|C1]; [right | left; exact C1].
    inversion C1. left. reflexivity.
  - exists new1. simpl. repeat split; assumption.
Qed.

Lemma sessionEffect_favouritesLoop fuel remote username :
  forall page results,
    sessionEffect (favouritesLoop fuel remote username page results).
Proof.
  induction fuel as [|fuel IH]; intros page results; cbn [favouritesLoop].
  - apply sessionEffect_diverge.
  - apply sessionEffect_bind; [apply sessionEffect_gqlRequest|].
    intros [[anime|]|].
    + destruct (hasNextPage anime); [apply IH | apply sessionEffect_ret].
    + apply sessionEffect_throw. discriminate.
    + apply sessionEffect_throw. discriminate.
Qed.

Lemma sessionEffect_fetchUserList remote username :
  sessionEffect (fetchUserList remote username).
Proof.
  unfold fetchUserList.
  apply sessionEffect_bind; [apply sessionEffect_gqlRequest|].
  intros [[lists|]|]; [apply sessionEffect_ret | |];
    apply sessionEffect_throw; discriminate.
Qed.

Lemma sessionEffect_processChunk remote chunk scoreMap :
  sessionEffect (processChunk remote chunk scoreMap).
Proof.
  unfold processChunk. apply sessionEffect_catch_warn.
  apply sessionEffect_bind; [apply sessionEffect_gqlRequest|].
  intros [d|]; destruct chunk; try apply sessionEffect_ret.
  apply sessionEffect_throw. discriminate.
Qed.

Lemma sessionEffect_forEachChunk remote cs :
  forall scoreMap, sessionEffect (forEachChunk remote cs scoreMap).
Proof.
  induction cs as [|chunk rest IH]; intros scoreMap; cbn [forEachChunk].
  - apply sessionEffect_ret.
  - apply sessionEffect_bind; [apply sessionEffect_processChunk | apply IH].
Qed.


(** ** The request budget *)

Lemma backoff_pos h a : 0 < backoff h a.
Proof.
  assert (Hp : 0 < 2 ^ Z.of_nat a * 1500).
  { apply Z.mul_pos_pos; [apply Z.pow_pos_nonneg|]; lia. }
  unfold backoff. destruct (parseRetryAfter h) as [s|]; [|exact Hp].
  destruct (Z.ltb_spec 0 s); [lia | exact Hp].
Qed.

Lemma gqlRequestFrom_budget {A} (srv : Server A) fuel :
  forall a w,
    (fuel + a = S MAX_RETRIES)%nat ->
    (a <= MAX_RETRIES)%nat ->
    exists n,
      (a + n <= MAX_RETRIES)%nat
      /\ w_fetches (snd (gqlRequestFrom fuel srv a w)) = (w_fetches w + S n)%nat
      /\ w_slept (snd (gqlRequestFrom fuel srv a w))
         = w_slept w ++ map (delayOf srv) (seq a n)
      /\ (forall k, (a <= k < a + n)%nat -> res_status (srv k) = 429).
Proof.
  induction fuel as [|fuel IH]; intros a w Hf Ha; [lia|].
  destruct (Z.eq_dec (res_status (srv a)) 429) as [E|E].
  - destruct (Nat.le_gt_cases MAX_RETRIES a) as [Hc|Hc].
    + rewrite (gqlRequestFrom_ceiling srv fuel a w E Hc).
      exists 0%nat. simpl. rewrite app_nil_r.
      repeat split; try lia.
    + rewrite (gqlRequestFrom_retry srv fuel a w E Hc).
      destruct (IH (S a) (afterRetries srv a 1 w)) as (n & Hn & Hfe & Hsl & H429);
        [lia | lia |].
      exists (S n). rewrite Hfe, Hsl. simpl.
      rewrite <- app_assoc. simpl. repeat split; try lia.
      intros k Hk. destruct (Nat.eq_dec k a) as [->|Hne]; [exact E|].
      apply H429. lia.
  - rewrite (gqlRequestFrom_answer srv fuel a w E).
    destruct (handleResponse_session (srv a) (fetched w))
      as (_ & Hsl & Hfe & _).
    exists 0%nat. rewrite Hfe, Hsl. simpl. rewrite app_nil_r.
    repeat split; try lia.
Qed.

(** X3.  One call of [gqlRequest] makes between 1 and 5 requests, whatever
    the server answers: it sleeps once after each request but the last, each
    time for a positive delay, and every request before the last was
    answered 429.  When no answer carries a Retry-After header the call
    sleeps 22.5 s at most in total. *)
Theorem gqlRequest_budget {A} (srv : Server A) (w : World) :
  exists n,
    (n <= MAX_RETRIES)%nat
    /\ w_fetches (snd (gqlRequest srv w)) = (w_fetches w + n + 1)%nat
    /\ w_slept (snd (gqlRequest srv w))
       = w_slept w ++ map (fun k => backoff (retryAfterHeader (srv k)) k) (seq 0 n)
    /\ Forall (fun d => 0 < d)
              (map (fun k => backoff (retryAfterHeader (srv k)) k) (seq 0 n))
    /\ (forall k, (k < n)%nat -> res_status (srv k) = 429)
    /\ ((forall k, retryAfterHeader (srv k) = Absent) ->
        totalDelay (map (fun k => backoff (retryAfterHeader (srv k)) k) (seq 0 n))
        <= 22500).
Proof.
  destruct (gqlRequestFrom_budget srv (S MAX_RETRIES) 0 w)
    as (n & Hn & Hfe & Hsl & H429); [reflexivity | lia |].
  fold (gqlRequest srv) in Hfe, Hsl.
  exists n. split; [lia|]. split; [lia|]. split; [exact Hsl|].
  split.
  { apply Forall_forall. intros d Hd. apply in_map_iff in Hd.
    destruct Hd as (k & <- & _). apply backoff_pos. }
  split; [intros k Hk; apply H429; lia|].
  intros Hno. unfold MAX_RETRIES in Hn.
  assert (Hb : forall k, backoff (retryAfterHeader (srv k)) k
                         = 2 ^ Z.of_nat k * 1500)
    by (intros k; rewrite Hno; reflexivity).
  do 5 (destruct n as [|n]; [simpl; rewrite ?Hb; simpl; lia|]).
  lia.
Qed.

(** ** The batches of the fan-out *)

Lemma chunksFrom_length fuel :
  forall c tasks,
    (List.length tasks - c <= fuel)%nat ->
    List.length (chunksFrom fuel c tasks)
    = ((List.length tasks - c + 11) / 12)%nat.
Proof.
  induction fuel as [|fuel IH]; intros c tasks Hf; cbn [chunksFrom].
  - replace (List.length tasks - c)%nat with 0%nat by lia. reflexivity.
  - destruct (Nat.ltb_spec c (List.length tasks)) as [Hc|Hc].
    + cbn [List.length]. rewrite IH by (unfold CHUNK; lia). unfold CHUNK.
      destruct (Nat.le_gt_cases 12 (List.length tasks - c)) as [Hbig|Hsmall].
      * replace (List.length tasks - c + 11)%nat
          with ((List.length tasks - (c + 12) + 11) + 1 * 12)%nat by lia.
        rewrite Nat.div_add by lia. lia.
      * replace (List.length tasks - (c + 12))%nat with 0%nat by lia.
        change ((0 + 11) / 12)%nat with 0%nat.
        apply (Nat.div_unique _ 12 1 (List.length tasks - c - 1)); lia.
    + replace (List.length tasks - c)%nat with 0%nat by lia. reflexivity.
Qed.

Lemma chunksFrom_nonempty fuel :
  forall c tasks,
    Forall (fun chunk => (1 <= List.length chunk)%nat)
           (chunksFrom fuel c tasks).
Proof.
  induction fuel as [|fuel IH]; intros c tasks; cbn [chunksFrom].
  - constructor.
  - destruct (Nat.ltb_spec c (List.length tasks)) as [Hc|Hc]; constructor;
      [|apply IH].
    unfold Js.slice, CHUNK. rewrite length_firstn, length_skipn. lia.
Qed.

Lemma processChunk_fetches remote chunk sm w :
  (w_fetches w + 1 <= w_fetches (snd (processChunk remote chunk sm w))
   <= w_fetches w + 5)%nat.
Proof.
  destruct (gqlRequestFrom_budget
              (recommendationsServer remote (map task_mediaId chunk))
              (S MAX_RETRIES) 0 w)
    as (n & Hn & Hfe & _); [reflexivity | lia |].
  fold (gqlRequest (recommendationsServer remote (map task_mediaId chunk)))
    in Hfe.
  unfold MAX_RETRIES in Hn.
  unfold processChunk, tryCatch, bind.
  destruct (gqlRequest _ w) as [[[d|]|e|] w1]; simpl in *;
    try destruct chunk; simpl; lia.
Qed.

Lemma forEachChunk_fetches remote cs :
  forall sm w,
    (w_fetches w + List.length cs
     <= w_fetches (snd (forEachChunk remote cs sm w))
     <= w_fetches w + 5 * List.length cs)%nat.
Proof.
  induction cs as [|chunk rest IH]; intros sm w; cbn [forEachChunk].
  - simpl. lia.
  - destruct (processChunk_run remote chunk sm w) as [w1 H1].
    pose proof (processChunk_fetches remote chunk sm w) as Hp.
    unfold bind. rewrite H1 in *. simpl in Hp.
    specialize (IH (aggregate (hitsOf (listedChunk remote chunk)) sm) w1).
    cbn [List.length]. lia.
Qed.

(** X4.  The fan-out cuts the tasks into ceil(n / 12) non-empty chunks of
    at most 12, sends one compound query per chunk and makes between 1 and 5
    requests for each.  The tasks built from any favourites and rated list
    are at most 25, so a run sends at most 3 compound queries. *)
Theorem fanout_budget (remote : Remote) (tasks : list Task) (w : World) :
  List.length (chunks tasks) = ((List.length tasks + 11) / 12)%nat
  /\ Forall (fun chunk => (1 <= List.length chunk <= 12)%nat) (chunks tasks)
  /\ List.concat (chunks tasks) = tasks
  /\ (w_fetches w + List.length (chunks tasks)
      <= w_fetches (snd (fanout remote tasks w))
      <= w_fetches w + 5 * List.length (chunks tasks))%nat
  /\ (forall favourites userList,
         (List.length (buildTasks favourites userList) <= 25)%nat
         /\ (List.length (chunks (buildTasks favourites userList)) <= 3)%nat).
Proof.
  assert (Hlen : forall ts,
             List.length (chunks ts) = ((List.length ts + 11) / 12)%nat).
  { intros ts. unfold chunks. rewrite chunksFrom_length by lia.
    rewrite Nat.sub_0_r. reflexivity. }
  split; [apply Hlen|].
  split.
  { pose proof (chunksFrom_nonempty (List.length tasks) 0 tasks) as H1.
    pose proof (chunksFrom_bounded (List.length tasks) 0 tasks) as H2.
    unfold chunks. rewrite Forall_forall in *. intros c Hc.
    specialize (H1 c Hc). specialize (H2 c Hc). unfold CHUNK in H2. lia. }
  split; [apply chunks_concat|].
  split; [apply forEachChunk_fetches|].
  intros favourites userList.
  assert (Hb : (List.length (buildTasks favourites userList) <= 25)%nat).
  { unfold buildTasks, usedFavs, topOnly, Js.slice0.
    rewrite length_app, !length_map.
    pose proof (firstn_le_length MAX_FAV_SOURCES favourites).
    match goal with
    | |- context [firstn MAX_TOP_SOURCES ?l] =>
        pose proof (firstn_le_length MAX_TOP_SOURCES l)
    end.
    unfold MAX_FAV_SOURCES, MAX_TOP_SOURCES in *. lia. }
  split; [exact Hb|].
  rewrite Hlen.
  apply Nat.Div0.div_le_upper_bound. lia.
Qed.

(** ** The pages of the favourites *)

Lemma favouritesLoop_next fuel remote username page results pg w :
  outcome (gqlRequest (favouritesServer remote username page))
  = Ok (Some (Some pg)) ->
  hasNextPage pg = true ->
  exists w1,
    favouritesLoop (S fuel) remote username page results w
    = favouritesLoop fuel remote username (S page)
        (results ++ map favouriteOfNode (nodes pg)) w1.
Proof.
  intros Ho Hn. cbn [favouritesLoop]. unfold bind at 1.
  rewrite <- (oblivious_outcome _ w) in Ho by apply oblivious_gqlRequest.
  destruct (gqlRequest _ w) as [o w1]. simpl in Ho. subst o.
  rewrite Hn. eauto.
Qed.

Lemma favouritesLoop_last fuel remote username page results pg w :
  outcome (gqlRequest (favouritesServer remote username page))
  = Ok (Some (Some pg)) ->
  hasNextPage pg = false ->
  fst (favouritesLoop (S fuel) remote username page results w)
  = Ok (results ++ map favouriteOfNode (nodes pg)).
Proof.
  intros Ho Hn. cbn [favouritesLoop]. unfold bind at 1.
  rewrite <- (oblivious_outcome _ w) in Ho by apply oblivious_gqlRequest.
  destruct (gqlRequest _ w) as [o w1]. simpl in Ho. subst o.
  rewrite Hn. reflexivity.
Qed.

Lemma favouritesLoop_stops fuel remote username page results w :
  (outcome (gqlRequest (favouritesServer remote username page)) = Ok (Some None) ->
   fst (favouritesLoop (S fuel) remote username page results w)
   = Throw (UserNotFound username))
  /\ (forall e,
         outcome (gqlRequest (favouritesServer remote username page)) = Throw e ->
         fst (favouritesLoop (S fuel) remote username page results w) = Throw e).
Proof.
  split; [intros Ho | intros e Ho];
    cbn [favouritesLoop]; unfold bind at 1;
    rewrite <- (oblivious_outcome _ w) in Ho by apply oblivious_gqlRequest;
    destruct (gqlRequest _ w) as [o w1]; simpl in Ho; subst o; reflexivity.
Qed.

(** Reading [m] pages that all announce a next page. *)
Lemma favouritesLoop_pages remote username (pages : nat -> FavPage) m :
  forall fuel page results w,
    (forall k, (page <= k < page + m)%nat ->
               outcome (gqlRequest (favouritesServer remote username k))
               = Ok (Some (Some (pages k)))
               /\ hasNextPage (pages k) = true) ->
    exists w1,
      favouritesLoop (m + fuel) remote username page results w
      = favouritesLoop fuel remote username (page + m)
          (results ++ map favouriteOfNode (nodesOfPages pages page m)) w1.
Proof.
  induction m as [|m IH]; intros fuel page results w Hp.
  - exists w. unfold nodesOfPages. simpl.
    rewrite Nat.add_0_r, app_nil_r. reflexivity.
  - destruct (Hp page) as [Ho Hn]; [lia|].
    destruct (favouritesLoop_next (m + fuel) remote username page results
                (pages page) w Ho Hn) as [w1 H1].
    destruct (IH fuel (S page)
                (results ++ map favouriteOfNode (nodes (pages page))) w1)
      as [w2 H2]; [intros k Hk; apply Hp; lia|].
    exists w2. cbn [Nat.add]. rewrite H1, H2.
    unfold nodesOfPages. cbn [seq flat_map].
    rewrite map_app, <- app_assoc.
    replace (S page + m)%nat with (page + S m)%nat by lia. reflexivity.
Qed.

(** X5.  [fetchAllFavourites] reads the pages 1, 2, ... up to the first one
    that announces no next page, and returns the favourites of all of them
    in page order, each node turned into [{ id, title }]; every returned
    title is a non-empty string. *)
Theorem fetchAllFavourites_pages
    (fuel : nat) (remote : Remote) (username : string) (w : World)
    (pages : nat -> FavPage) (n : nat) :
  (1 <= n <= fuel)%nat ->
  (forall k, (1 <= k <= n)%nat ->
             outcome (gqlRequest (favouritesServer remote username k))
             = Ok (Some (Some (pages k)))) ->
  (forall k, (1 <= k < n)%nat -> hasNextPage (pages k) = true) ->
  hasNextPage (pages n) = false ->
  fst (fetchAllFavourites fuel remote username w)
  = Ok (map favouriteOfNode (nodesOfPages pages 1 n))
  /\ map fav_id (map favouriteOfNode (nodesOfPages pages 1 n))
     = map node_id (nodesOfPages pages 1 n)
  /\ Forall (fun f => fav_title f <> "")
            (map favouriteOfNode (nodesOfPages pages 1 n)).
Proof.
  intros Hn Hok Hnext Hlast.
  split; [|split].
  - unfold fetchAllFavourites.
    destruct (favouritesLoop_pages remote username pages (n - 1)
                (fuel - (n - 1)) 1 [] w) as [w1 H1].
    { intros k Hk. split; [apply Hok | apply Hnext]; lia. }
    replace (n - 1 + (fuel - (n - 1)))%nat with fuel in H1 by lia.
    rewrite H1.
    replace (fuel - (n - 1))%nat with (S (fuel - n)) by lia.
    replace (1 + (n - 1))%nat with n by lia.
    rewrite (favouritesLoop_last _ _ _ _ _ (pages n)); [|apply Hok; lia|exact Hlast].
    simpl. rewrite <- map_app. do 2 f_equal.
    unfold nodesOfPages.
    replace n with ((n - 1) + 1)%nat at 3 by lia.
    rewrite seq_app, flat_map_app. simpl.
    replace (S (n - 1)) with n by lia. rewrite app_nil_r. reflexivity.
  - rewrite map_map. reflexivity.
  - apply Forall_forall. intros f Hf. apply in_map_iff in Hf.
    destruct Hf as (nd & <- & _). unfold favouriteOfNode, hashId. simpl.
    destruct (english (node_title nd)) as [[|c s]|];
      destruct (romaji (node_title nd)) as [[|c' s']|]; simpl; discriminate.
Qed.

Lemma fetchAllFavourites_pages_witness :
  fst (fetchAllFavourites 3 remotePaged "alice" freshWorld)
  = Ok (map favouriteOfNode (nodesOfPages threePages 1 3))
  /\ map fav_title (map favouriteOfNode (nodesOfPages threePages 1 3))
     = ["R"; "#11"; "R"; "#21"; "R"; "#31"].
Proof.
  split; [|reflexivity].
  apply (fetchAllFavourites_pages 3 remotePaged "alice" freshWorld threePages 3).
  - lia.
  - intros k _. reflexivity.
  - intros k Hk. simpl. apply Nat.ltb_lt. lia.
  - reflexivity.
Defined.

(** X6.  The favourites are all or nothing: when the pages before page [n]
    were read and page [n] names an unknown user, or its request throws, the
    whole fetch throws ("introuvable", or the error of the request) and the
    favourites already read are dropped. *)
Theorem fetchAllFavourites_fails
    (fuel : nat) (remote : Remote) (username : string) (w : World)
    (pages : nat -> FavPage) (n : nat) :
  (1 <= n <= fuel)%nat ->
  (forall k, (1 <= k < n)%nat ->
             outcome (gqlRequest (favouritesServer remote username k))
             = Ok (Some (Some (pages k)))
             /\ hasNextPage (pages k) = true) ->
  (outcome (gqlRequest (favouritesServer remote username n)) = Ok (Some None) ->
   fst (fetchAllFavourites fuel remote username w)
   = Throw (UserNotFound username))
  /\ (forall e,
         outcome (gqlRequest (favouritesServer remote username n)) = Throw e ->
         fst (fetchAllFavourites fuel remote username w) = Throw e).
Proof.
  intros Hn Hok. unfold fetchAllFavourites.
  destruct (favouritesLoop_pages remote username pages (n - 1)
              (fuel - (n - 1)) 1 [] w) as [w1 H1].
  { intros k Hk. apply Hok. lia. }
  replace (n - 1 + (fuel - (n - 1)))%nat with fuel in H1 by lia.
  rewrite H1.
  replace (fuel - (n - 1))%nat with (S (fuel - n)) by lia.
  replace (1 + (n - 1))%nat with n by lia.
  apply favouritesLoop_stops.
Qed.

Lemma fetchAllFavourites_fails_witness :
  fst (fetchAllFavourites 5 remoteBrokenPage "alice" freshWorld)
  = Throw (UserNotFound "alice").
Proof.
  assert (Hn : (1 <= 3 <= 5)%nat) by lia.
  assert (Hok : forall k, (1 <= k < 3)%nat ->
                  outcome (gqlRequest (favouritesServer remoteBrokenPage "alice" k))
                  = Ok (Some (Some (threePages k)))
                  /\ hasNextPage (threePages k) = true).
  { intros k Hk.
    assert (Hk' : (k <? 3)%nat = true) by (apply Nat.ltb_lt; lia).
    split; [|exact Hk'].
    unfold outcome, remoteBrokenPage; simpl. rewrite Hk'. reflexivity. }
  destruct (fetchAllFavourites_fails 5 remoteBrokenPage "alice" freshWorld
              threePages 3 Hn Hok) as [Hunknown _].
  apply Hunknown. reflexivity.
Defined.

(** ** The rated list *)

Lemma flattenLists_length (lists : list RawList) :
  List.length (flattenLists lists)
  = list_sum (map (fun l => List.length (entries l)) lists).
Proof.
  unfold flattenLists.
  induction lists as [|l r IH]; simpl; [reflexivity|].
  rewrite length_app, length_map, IH. reflexivity.
Qed.

(** X7.  When the list request is answered, [fetchUserList] returns every
    entry of every status bucket exactly once, highest score first, entries
    of equal score in the order of the answer; an entry keeps its media id
    and score and takes the status of its bucket when it has none of its
    own. *)
Theorem fetchUserList_sorted
    (remote : Remote) (username : string) (w : World) (lists : list RawList) :
  outcome (gqlRequest (listServer remote username)) = Ok (Some (Some lists)) ->
  exists userList,
    fst (fetchUserList remote username w) = Ok userList
    /\ Permutation userList (flattenLists lists)
    /\ StronglySorted listScoreDesc userList
    /\ (forall s,
           filter (fun e => score e =? s) userList
           = filter (fun e => score e =? s) (flattenLists lists))
    /\ List.length userList
       = list_sum (map (fun l => List.length (entries l)) lists)
    /\ (forall l e,
           In l lists -> In e (entries l) ->
           exists e',
             In e' userList
             /\ mediaId e' = raw_mediaId e
             /\ score e' = raw_score e
             /\ status e'
                = if Js.truthy (raw_status e) then raw_status e
                  else list_status l).
Proof.
  intros Ho. exists (Js.sort byScoreDesc (flattenLists lists)).
  split.
  { unfold fetchUserList, bind.
    rewrite <- (oblivious_outcome _ w) in Ho by apply oblivious_gqlRequest.
    destruct (gqlRequest _ w) as [o w1]. simpl in Ho. subst o. reflexivity. }
  split; [apply sort_perm|].
  split; [apply (sort_by_Zkey_sorted score)|].
  split.
  { intros s.
    rewrite (filter_sort byScoreDesc byScoreDesc_total byScoreDesc_trans).
    apply (sort_id byScoreDesc), (equal_scores_sorted s).
    apply Forall_forall. intros e He. apply filter_In in He.
    apply Z.eqb_eq, He. }
  split; [rewrite sort_length; apply flattenLists_length|].
  intros l e Hl He. exists (listEntryOf l e). split.
  - apply (Permutation_in _ (Permutation_sym (sort_perm byScoreDesc _))).
    unfold flattenLists. apply in_flat_map. exists l. split; [exact Hl|].
    apply in_map, He.
  - split; [reflexivity|]. split; reflexivity.
Qed.

Lemma fetchUserList_sorted_witness :
  exists userList,
    fst (fetchUserList Sample.remote "alice" freshWorld) = Ok userList
    /\ map (fun e => (mediaId e, score e, status e)) userList
       = [(1, 10, Some "COMPLETED"); (3, 9, Some "COMPLETED");
          (20, 0, Some "PLANNING")].
Proof.
  destruct (fetchUserList_sorted Sample.remote "alice" freshWorld Sample.lists)
    as (ul & Hrun & _); [reflexivity|].
  exists ul. split; [exact Hrun|].
  vm_compute in Hrun. inversion Hrun. reflexivity.
Defined.

(** ** The keys of an insertion-ordered map *)

Section MapKeys.
Context {K V : Type} (eqb : K -> K -> bool).
Hypothesis eqb_spec : forall x y, reflect (x = y) (eqb x y).

Lemma has_keys k (m : list (K * V)) :
  Js.has eqb k m = true <-> In k (map fst m).
Proof.
  unfold Js.has. induction m as [|[k' v'] r IH]; simpl.
  - split; [discriminate | intros []].
  - destruct (eqb_spec k k') as [E|E].
    + split; [intros _; left; congruence | reflexivity].
    + rewrite IH. split; [intros H; right; exact H|].
      intros [H|H]; [congruence | exact H].
Qed.

Lemma set_keys k v (m : list (K * V)) :
  map fst (Js.set eqb k v m)
  = if Js.has eqb k m then map fst m else map fst m ++ [k].
Proof.
  unfold Js.has. induction m as [|[k' v'] r IH]; simpl; [reflexivity|].
  destruct (eqb_spec k k') as [E|E]; simpl; [reflexivity|].
  rewrite IH. destruct (Js.get eqb k r); reflexivity.
Qed.

Lemma set_NoDup k v (m : list (K * V)) :
  NoDup (map fst m) -> NoDup (map fst (Js.set eqb k v m)).
Proof.
  intros Hnd. rewrite set_keys.
  destruct (Js.has eqb k m) eqn:E; [exact Hnd|].
  apply NoDup_app; [exact Hnd | repeat constructor; intros [] |].
  intros x Hx [Hk|[]]. subst x.
  apply has_keys in Hx. congruence.
Qed.

Lemma In_get_NoDup k v (m : list (K * V)) :
  NoDup (map fst m) -> In (k, v) m -> Js.get eqb k m = Some v.
Proof.
  induction m as [|[k' v'] r IH]; simpl; intros Hnd Hin; [destruct Hin|].
  inversion Hnd as [|? ? Hnotin Hnd']; subst.
  destruct Hin as [Heq|Hin].
  - inversion Heq; subst. destruct (eqb_spec k k); congruence.
  - destruct (eqb_spec k k') as [E|E]; [|apply IH; assumption].
    subst k'. exfalso. apply Hnotin.
    change k with (fst (k, v)). apply in_map, Hin.
Qed.

End MapKeys.

Lemma fold_left_flat_map {A B C} (f : A -> C -> A) (g : B -> list C) l :
  forall a,
    fold_left (fun m e => fold_left f (g e) m) l a
    = fold_left f (flat_map g l) a.
Proof.
  induction l as [|e r IH]; intros a; simpl; [reflexivity|].
  rewrite fold_left_app. apply IH.
Qed.

(** ** The tag profile *)

Lemma get_addTag name m t :
  Js.get String.eqb name (addTag m t)
  = if String.eqb (tag_name t) name
    then addStat (Js.get String.eqb name m) t
    else Js.get String.eqb name m.
Proof.
  unfold addTag, addStat. destruct (String.eqb_spec (tag_name t) name) as [E|E].
  - subst name. destruct (Js.get String.eqb (tag_name t) m);
      apply (get_set_same String.eqb String.eqb_spec).
  - destruct (Js.get String.eqb (tag_name t) m);
      apply (get_set_other String.eqb String.eqb_spec); congruence.
Qed.

Lemma get_fold_addTag name ts :
  forall m,
    Js.get String.eqb name (fold_left addTag ts m)
    = fold_left addStat (filter (fun t => String.eqb (tag_name t) name) ts)
        (Js.get String.eqb name m).
Proof.
  induction ts as [|t r IH]; intros m; simpl; [reflexivity|].
  rewrite IH, get_addTag. destruct (String.eqb (tag_name t) name); reflexivity.
Qed.

Lemma fold_addStat_some occ :
  forall ex,
    fold_left addStat occ (Some ex)
    = Some {| totalRank := totalRank ex + sumRanks occ;
              count := count ex + Z.of_nat (List.length occ) |}.
Proof.
  induction occ as [|t r IH]; intros ex.
  - simpl. rewrite !Z.add_0_r. destruct ex; reflexivity.
  - cbn [fold_left addStat]. rewrite IH. cbn [totalRank count].
    change (sumRanks (t :: r)) with (tag_rank t + sumRanks r).
    change (List.length (t :: r)) with (S (List.length r)).
    rewrite Nat2Z.inj_succ. f_equal. f_equal; lia.
Qed.

Lemma fold_addTag_NoDup ts :
  forall m, NoDup (map fst m) -> NoDup (map fst (fold_left addTag ts m)).
Proof.
  induction ts as [|t r IH]; intros m Hnd; simpl; [exact Hnd|].
  apply IH. unfold addTag.
  destruct (Js.get String.eqb (tag_name t) m);
    apply (set_NoDup String.eqb String.eqb_spec), Hnd.
Qed.

Lemma userTagMap_flat ul :
  userTagMap ul = fold_left addTag (flat_map tags ul) [].
Proof. unfold userTagMap. apply fold_left_flat_map. Qed.

Lemma sumRanks_bounds lo hi occ :
  Forall (fun t => lo <= tag_rank t <= hi) occ ->
  lo * Z.of_nat (List.length occ) <= sumRanks occ
  <= hi * Z.of_nat (List.length occ).
Proof.
  induction 1 as [|t r Ht Hr IH].
  - simpl. lia.
  - cbn [sumRanks fold_right List.length].
    fold (sumRanks r). rewrite Nat2Z.inj_succ. lia.
Qed.

Lemma roundDiv_between lo hi total n :
  0 < n -> lo * n <= total <= hi * n ->
  lo <= Js.roundDiv total n <= hi.
Proof.
  intros Hn Ht. unfold Js.roundDiv. split.
  - apply Z.div_le_lower_bound; nia.
  - apply Z.lt_succ_r. apply Z.div_lt_upper_bound; nia.
Qed.

(** X8.  The tag profile built from the rated list holds one entry per tag
    name that occurs in it, in first-occurrence order and without
    duplicates: [count] is the number of occurrences of the name over all
    entries (every status) and [totalRank] the sum of their ranks.  The
    strength derived from an entry, round(totalRank / count), lies between
    any two bounds that hold for every rank of the list (so within 0..100
    for ranks in 0..100). *)
Theorem userTagMap_profile (userList : list ListEntry) :
  NoDup (map fst (userTagMap userList))
  /\ (forall name,
         Js.get String.eqb name (userTagMap userList)
         = match tagOccurrences name userList with
           | [] => None
           | _ :: _ =>
               Some {| totalRank := sumRanks (tagOccurrences name userList);
                       count := Z.of_nat
                                  (List.length (tagOccurrences name userList)) |}
           end)
  /\ (forall name,
         Js.has String.eqb name (userTagMap userList) = true
         <-> exists e t, In e userList /\ In t (tags e) /\ tag_name t = name)
  /\ (forall lo hi name u,
         (forall e t, In e userList -> In t (tags e) ->
                      lo <= tag_rank t <= hi) ->
         Js.get String.eqb name (userTagMap userList) = Some u ->
         1 <= count u
         /\ lo <= Js.roundDiv (totalRank u) (count u) <= hi).
Proof.
  assert (Hget : forall name,
             Js.get String.eqb name (userTagMap userList)
             = match tagOccurrences name userList with
               | [] => None
               | _ :: _ =>
                   Some {| totalRank := sumRanks (tagOccurrences name userList);
                           count := Z.of_nat
                                      (List.length (tagOccurrences name userList)) |}
               end).
  { intros name. rewrite userTagMap_flat, get_fold_addTag.
    fold (tagOccurrences name userList). simpl Js.get.
    destruct (tagOccurrences name userList) as [|t r]; [reflexivity|].
    cbn [fold_left addStat]. rewrite fold_addStat_some.
    cbn [totalRank count].
    change (sumRanks (t :: r)) with (tag_rank t + sumRanks r).
    change (List.length (t :: r)) with (S (List.length r)).
    rewrite Nat2Z.inj_succ. f_equal. f_equal; lia. }
  split; [rewrite userTagMap_flat; apply fold_addTag_NoDup; constructor|].
  split; [exact Hget|].
  split.
  - intros name. unfold Js.has. rewrite Hget. split.
    + intros H. destruct (tagOccurrences name userList) as [|t r] eqn:E;
        [discriminate|].
      assert (Hin : In t (tagOccurrences name userList))
        by (rewrite E; left; reflexivity).
      unfold tagOccurrences in Hin. apply filter_In in Hin.
      destruct Hin as [Hin Hn]. apply in_flat_map in Hin.
      destruct Hin as (e & He & Ht). exists e, t.
      repeat split; auto. apply String.eqb_eq, Hn.
    + intros (e & t & He & Ht & Hn).
      assert (Hin : In t (tagOccurrences name userList)).
      { unfold tagOccurrences. apply filter_In. split.
        - apply in_flat_map. exists e. auto.
        - apply String.eqb_eq, Hn. }
      destruct (tagOccurrences name userList); [destruct Hin | reflexivity].
  - intros lo hi name u Hb Hu. rewrite Hget in Hu.
    destruct (tagOccurrences name userList) as [|t r] eqn:E; [discriminate|].
    assert (Hu' := f_equal (fun o => match o with Some x => x | None => u end) Hu).
    cbv beta iota in Hu'. subst u. clear Hu. cbn [totalRank count].
    assert (Hall : Forall (fun t => lo <= tag_rank t <= hi)
                     (tagOccurrences name userList)).
    { apply Forall_forall. intros t' Ht'. unfold tagOccurrences in Ht'.
      apply filter_In in Ht'. destruct Ht' as [Ht' _].
      apply in_flat_map in Ht'. destruct Ht' as (e & He & Hte).
      exact (Hb e t' He Hte). }
    rewrite E in Hall.
    pose proof (sumRanks_bounds lo hi _ Hall) as Hs.
    assert (Hpos : 1 <= Z.of_nat (List.length (t :: r)))
      by (cbn [List.length]; lia).
    split; [exact Hpos|].
    apply roundDiv_between; lia.
Qed.

(** On the sample list: "Mecha" occurs twice (ranks 90 and 81), strength 86. *)
Lemma userTagMap_profile_witness :
  Js.get String.eqb "Mecha" (userTagMap Sample.userList)
  = Some {| totalRank := 171; count := 2 |}
  /\ 0 <= Js.roundDiv 171 2 <= 100.
Proof.
  destruct (userTagMap_profile Sample.userList) as (_ & Hget & _ & Hb).
  split; [rewrite Hget; reflexivity|].
  apply (Hb 0 100 "Mecha" {| totalRank := 171; count := 2 |}).
  - intros e t He Ht. vm_compute in He.
    repeat (destruct He as [He|He];
            [subst e; vm_compute in Ht;
             repeat (destruct Ht as [Ht|Ht]; [subst t; simpl; lia|]);
             destruct Ht|]).
    destruct He.
  - rewrite Hget. reflexivity.
Defined.

(** ** The genre profile *)

Lemma get_addGenre g m g0 :
  Js.get String.eqb g (addGenre m g0)
  = if String.eqb g g0
    then Some (Js.orElse (Js.get String.eqb g m) 0 + 1)
    else Js.get String.eqb g m.
Proof.
  unfold addGenre. destruct (String.eqb_spec g g0) as [E|E].
  - subst g0. apply (get_set_same String.eqb String.eqb_spec).
  - apply (get_set_other String.eqb String.eqb_spec). exact E.
Qed.

Lemma get_fold_addGenre g gs :
  forall m,
    Js.get String.eqb g (fold_left addGenre gs m)
    = match filter (String.eqb g) gs with
      | [] => Js.get String.eqb g m
      | _ :: _ =>
          Some (Js.orElse (Js.get String.eqb g m) 0
                + Z.of_nat (List.length (filter (String.eqb g) gs)))
      end.
Proof.
  induction gs as [|g0 r IH]; intros m; [reflexivity|].
  cbn [fold_left filter]. rewrite IH, get_addGenre.
  destruct (String.eqb g g0).
  - destruct (filter (String.eqb g) r) as [|x r'].
    + reflexivity.
    + cbn [Js.orElse].
      change (List.length (g0 :: x :: r')) with (S (List.length (x :: r'))).
      rewrite Nat2Z.inj_succ. f_equal. lia.
  - reflexivity.
Qed.

Lemma fold_addGenre_NoDup gs :
  forall m, NoDup (map fst m) -> NoDup (map fst (fold_left addGenre gs m)).
Proof.
  induction gs as [|g r IH]; intros m Hnd; simpl; [exact Hnd|].
  apply IH. unfold addGenre.
  apply (set_NoDup String.eqb String.eqb_spec), Hnd.
Qed.

Lemma userGenreMap_flat ul :
  userGenreMap ul = fold_left addGenre (flat_map genres ul) [].
Proof. unfold userGenreMap. apply fold_left_flat_map. Qed.

Lemma userGenreMap_get g ul :
  Js.get String.eqb g (userGenreMap ul)
  = if 0 <? genreFrequency g ul then Some (genreFrequency g ul) else None.
Proof.
  rewrite userGenreMap_flat, get_fold_addGenre. unfold genreFrequency.
  destruct (filter (String.eqb g) (flat_map genres ul)) as [|x r].
  - reflexivity.
  - simpl Js.get. cbn [Js.orElse].
    change (List.length (x :: r)) with (S (List.length r)).
    destruct (Z.ltb_spec 0 (Z.of_nat (S (List.length r)))); [reflexivity|lia].
Qed.

Lemma NoDup_firstn {A} n (l : list A) : NoDup l -> NoDup (firstn n l).
Proof.
  intros H. rewrite <- (firstn_skipn n l) in H.
  exact (NoDup_app_remove_r _ _ H).
Qed.

Lemma sorted_app_cross {A} (R : A -> A -> Prop) (a b : list A) :
  StronglySorted R (a ++ b) ->
  forall x y, In x a -> In y b -> R x y.
Proof.
  induction a as [|z r IH]; simpl; intros Hs x y Hx Hy; [destruct Hx|].
  inversion Hs as [|? ? Hr Hz]; subst.
  destruct Hx as [->|Hx].
  - rewrite Forall_forall in Hz. apply Hz, in_or_app. right. exact Hy.
  - exact (IH Hr x y Hx Hy).
Qed.

(** X9.  The genre profile counts, for every genre, its occurrences over
    all entries of the rated list, one map entry per genre.  The top-genre
    set holds at most 10 genres, all different and all occurring in the
    list, and no genre left out of it is more frequent than a genre in it;
    with 10 distinct genres or fewer every genre of the list is in it. *)
Theorem topGenres_profile (userList : list ListEntry) :
  NoDup (map fst (userGenreMap userList))
  /\ (forall g,
         Js.orElse (Js.get String.eqb g (userGenreMap userList)) 0
         = genreFrequency g userList)
  /\ (List.length (topGenres userList) <= 10)%nat
  /\ NoDup (topGenres userList)
  /\ (forall g, In g (topGenres userList) -> 0 < genreFrequency g userList)
  /\ (forall g g',
         In g (topGenres userList) ->
         0 < genreFrequency g' userList ->
         ~ In g' (topGenres userList) ->
         genreFrequency g' userList <= genreFrequency g userList)
  /\ ((List.length (userGenreMap userList) <= 10)%nat ->
      forall g, 0 < genreFrequency g userList -> In g (topGenres userList)).
Proof.
  set (byCount := fun a b : string * Z => Z.compare (snd b) (snd a)).
  set (sorted := Js.sort byCount (userGenreMap userList)).
  assert (Hnd : NoDup (map fst (userGenreMap userList)))
    by (rewrite userGenreMap_flat; apply fold_addGenre_NoDup; constructor).
  assert (Hperm : Permutation sorted (userGenreMap userList))
    by apply sort_perm.
  assert (Hsorted : StronglySorted (fun a b : string * Z => snd b <= snd a) sorted)
    by apply (sort_by_Zkey_sorted snd).
  assert (Htop : topGenres userList = map fst (firstn 10 sorted)) by reflexivity.
  assert (Hentry : forall g c,
             In (g, c) sorted -> c = genreFrequency g userList /\ 0 < c).
  { intros g c Hin. apply (Permutation_in _ Hperm) in Hin.
    apply (In_get_NoDup String.eqb String.eqb_spec _ _ _ Hnd) in Hin.
    rewrite userGenreMap_get in Hin.
    destruct (Z.ltb_spec 0 (genreFrequency g userList)); [|discriminate].
    inversion Hin. lia. }
  assert (Hpresent : forall g,
             0 < genreFrequency g userList ->
             In (g, genreFrequency g userList) sorted).
  { intros g Hg. apply (Permutation_in _ (Permutation_sym Hperm)).
    apply (get_In String.eqb String.eqb_spec). rewrite userGenreMap_get.
    destruct (Z.ltb_spec 0 (genreFrequency g userList)); [reflexivity|lia]. }
  split; [exact Hnd|].
  split.
  { intros g. rewrite userGenreMap_get.
    destruct (Z.ltb_spec 0 (genreFrequency g userList)); [reflexivity|].
    unfold genreFrequency in *. simpl. lia. }
  split; [rewrite Htop, length_map; apply firstn_le_length|].
  split.
  { rewrite Htop, <- firstn_map. apply NoDup_firstn.
    apply (Permutation_NoDup (Permutation_sym (Permutation_map fst Hperm))), Hnd. }
  split.
  { intros g Hg. rewrite Htop in Hg. apply in_map_iff in Hg.
    destruct Hg as ([g0 c] & Heq & Hin). simpl in Heq. subst g0.
    apply firstn_In in Hin. destruct (Hentry g c Hin) as [Hc Hpos]. lia. }
  split.
  { intros g g' Hg Hg' Hout. rewrite Htop in Hg. apply in_map_iff in Hg.
    destruct Hg as ([g0 c] & Heq & Hin). simpl in Heq. subst g0.
    destruct (Hentry g c (firstn_In _ _ _ Hin)) as [Hc _].
    pose proof (Hpresent g' Hg') as Hin'.
    rewrite <- (firstn_skipn 10 sorted) in Hin', Hsorted.
    apply in_app_or in Hin'. destruct Hin' as [Hin'|Hin'].
    - exfalso. apply Hout. rewrite Htop.
      change g' with (fst (g', genreFrequency g' userList)).
      apply in_map, Hin'.
    - pose proof (sorted_app_cross _ _ _ Hsorted _ _ Hin Hin') as Hle.
      simpl in Hle. lia. }
  intros Hfew g Hg. rewrite Htop.
  change g with (fst (g, genreFrequency g userList)). apply in_map.
  rewrite firstn_all2; [apply Hpresent, Hg|].
  unfold sorted. rewrite sort_length. exact Hfew.
Qed.

Lemma topGenres_profile_witness :
  topGenres Sample.userList = ["Action"; "Drama"; "Comedy"]
  /\ genreFrequency "Action" Sample.userList = 2
  /\ In "Comedy" (topGenres Sample.userList).
Proof.
  destruct (topGenres_profile Sample.userList) as (_ & _ & _ & _ & _ & _ & Hall).
  split; [reflexivity|]. split; [reflexivity|].
  apply Hall; [vm_compute; lia | reflexivity].
Defined.

(** ** The returned list: distinct titles, each recommended by a seed *)

Lemma aggregate_NoDup hits :
  forall sm, NoDup (map fst sm) -> NoDup (map fst (aggregate hits sm)).
Proof.
  unfold aggregate. induction hits as [|h r IH]; intros sm Hnd; simpl; auto.
  apply IH. unfold addHit.
  destruct (Js.get Z.eqb (id (snd h)) sm);
    apply (set_NoDup Z.eqb Z.eqb_spec), Hnd.
Qed.

Lemma fanout_NoDup remote tasks w scoreMap w' :
  fanout remote tasks w = (Ok scoreMap, w') -> NoDup (map fst scoreMap).
Proof.
  intros H. rewrite (fanout_result _ _ _ _ _ H).
  apply aggregate_NoDup. constructor.
Qed.

Lemma filterSeen_ids seen planning scoreMap :
  keyed scoreMap ->
  map (fun p => id (media (fst p))) (filterSeen seen planning scoreMap)
  = filter (fun k => negb (Js.setHas Z.eqb k seen)) (map fst scoreMap).
Proof.
  induction scoreMap as [|[k c] r IH]; intros Hk; simpl; [reflexivity|].
  assert (Hr : keyed r) by (intros k' c' Hin; apply Hk; right; exact Hin).
  destruct (Js.setHas Z.eqb k seen); simpl; rewrite IH by exact Hr;
    [reflexivity|].
  rewrite (Hk k c) by (left; reflexivity). reflexivity.
Qed.

Lemma finalResults_perm userList scoreMap :
  Permutation (finalResults userList scoreMap) (refined userList scoreMap).
Proof.
  unfold finalResults.
  eapply perm_trans; [|apply sort_perm].
  unfold diversify. apply Interleave_perm, diversityPass_interleave.
Qed.

Lemma finalResults_ids userList scoreMap :
  keyed scoreMap ->
  Permutation (map resultId (finalResults userList scoreMap))
    (filter (fun k => negb (Js.setHas Z.eqb k (seenIds userList)))
            (map fst scoreMap)).
Proof.
  intros Hk.
  eapply perm_trans; [apply Permutation_map, finalResults_perm|].
  unfold refined. rewrite map_map.
  rewrite <- (filterSeen_ids _ (planningIds userList) _ Hk).
  apply Permutation_refl.
Qed.

(** X10.  A run never returns the same title twice: the ids of the
    returned list are the keys of the score map that are not seen, each
    once; so the list is as long as there are unseen candidates, and every
    returned title was listed in the recommendation batch of some seed. *)
Theorem results_are_distinct
    (remote : Remote) (tasks : list Task) (w w' : World)
    (scoreMap : ScoreMap) (userList : list ListEntry) :
  fanout remote tasks w = (Ok scoreMap, w') ->
  NoDup (map resultId (finalResults userList scoreMap))
  /\ Permutation (map resultId (finalResults userList scoreMap))
       (filter (fun k => negb (Js.setHas Z.eqb k (seenIds userList)))
               (map fst scoreMap))
  /\ List.length (finalResults userList scoreMap)
     = List.length
         (filter (fun k => negb (Js.setHas Z.eqb k (seenIds userList)))
                 (map fst scoreMap))
  /\ (forall r,
         In r (finalResults userList scoreMap) ->
         exists b m,
           In b (listed remote tasks) /\ In m (snd b) /\ id m = resultId r).
Proof.
  intros Hrun.
  pose proof (fanout_keyed _ _ _ _ _ Hrun) as Hk.
  pose proof (fanout_NoDup _ _ _ _ _ Hrun) as Hnd.
  pose proof (finalResults_ids userList scoreMap Hk) as HP.
  split.
  { apply (Permutation_NoDup (Permutation_sym HP)).
    apply NoDup_filter, Hnd. }
  split; [exact HP|].
  split.
  { rewrite <- (length_map resultId). apply Permutation_length, HP. }
  intros r Hr. apply finalResults_In, refined_In in Hr.
  destruct Hr as (k & c & Hin & _ & Hr). subst r. unfold resultId. simpl.
  rewrite (Hk _ _ Hin).
  apply (In_get_NoDup Z.eqb Z.eqb_spec _ _ _ Hnd) in Hin.
  rewrite (fanout_result _ _ _ _ _ Hrun), get_aggregate_empty in Hin.
  destruct (hitsFor k (hitsOf (listed remote tasks))) as [|h hs] eqn:E;
    [discriminate|].
  assert (Hh : In h (hitsFor k (hitsOf (listed remote tasks))))
    by (rewrite E; left; reflexivity).
  unfold hitsFor in Hh. apply filter_In in Hh. destruct Hh as [Hh Hid].
  unfold hitsOf in Hh. apply in_flat_map in Hh.
  destruct Hh as (b & Hb & Hm). apply in_map_iff in Hm.
  destruct Hm as (m & Hm & Hmb). subst h. simpl in Hid.
  exists b, m. repeat split; auto. apply Z.eqb_eq, Hid.
Qed.

Lemma results_are_distinct_witness :
  NoDup (map resultId (finalResults Sample.userList Sample.scoreMap))
  /\ map resultId (finalResults Sample.userList Sample.scoreMap) = [10; 20; 2].
Proof.
  split; [|reflexivity].
  apply (results_are_distinct Sample.remote
           (buildTasks Sample.favourites Sample.userList)
           freshWorld (Sample.world 1) Sample.scoreMap Sample.userList).
  vm_compute. reflexivity.
Defined.

(** ** The reasons of a returned entry *)

Lemma hitsOf_seed batches h :
  In h (hitsOf batches) -> In (fst h) (map fst batches).
Proof.
  unfold hitsOf. intros H. apply in_flat_map in H.
  destruct H as (b & Hb & Hh). apply in_map_iff in Hh.
  destruct Hh as (m & <- & _). simpl. apply in_map, Hb.
Qed.

Lemma sumWeights_reasons hs :
  sumReasonWeights (map (fun h => reasonOf (fst h)) hs) = sumWeights hs.
Proof. induction hs as [|h r IH]; simpl; [reflexivity|]. rewrite IH. reflexivity. Qed.

Lemma buildTasks_kinds favourites userList task :
  In task (buildTasks favourites userList) ->
  (task_type task = "favori" /\ task_weight task = 2)
  \/ (task_type task = "top noté" /\ task_weight task = 1).
Proof.
  unfold buildTasks. intros H. apply in_app_or in H.
  destruct H as [H|H]; apply in_map_iff in H; destruct H as (x & <- & _);
    [left | right]; split; reflexivity.
Qed.

Lemma sumReasonWeights_bounds rs :
  Forall (fun r => 1 <= weight r <= 2) rs ->
  Z.of_nat (List.length rs) <= sumReasonWeights rs
  <= 2 * Z.of_nat (List.length rs).
Proof.
  induction 1 as [|r rs Hr Hrs IH].
  - simpl. lia.
  - change (sumReasonWeights (r :: rs)) with (weight r + sumReasonWeights rs).
    change (List.length (r :: rs)) with (S (List.length rs)).
    rewrite Nat2Z.inj_succ. lia.
Qed.

(** X11.  What the backstage panel lists for a returned entry: at least
    one reason; every reason is the record of a seed of this run, a
    favourite at weight 2 or a top-rated entry at weight 1; and the base
    score is the sum of the weights of the reasons, hence between the number
    of reasons and twice that number. *)
Theorem reasons_explain_baseScore
    (remote : Remote) (favourites : list Favourite) (userList : list ListEntry)
    (w w' : World) (scoreMap : ScoreMap) (r : Result) :
  fanout remote (buildTasks favourites userList) w = (Ok scoreMap, w') ->
  In r (finalResults userList scoreMap) ->
  reasons (candidate r) <> []
  /\ baseScore (candidate r) = sumReasonWeights (reasons (candidate r))
  /\ (forall reason,
         In reason (reasons (candidate r)) ->
         exists task,
           In task (buildTasks favourites userList)
           /\ reason = reasonOf task
           /\ ((type reason = "favori" /\ weight reason = 2)
               \/ (type reason = "top noté" /\ weight reason = 1)))
  /\ Z.of_nat (List.length (reasons (candidate r)))
     <= baseScore (candidate r)
     <= 2 * Z.of_nat (List.length (reasons (candidate r))).
Proof.
  intros Hrun Hr.
  pose proof (fanout_NoDup _ _ _ _ _ Hrun) as Hnd.
  apply finalResults_In, refined_In in Hr.
  destruct Hr as (k & c & Hin & _ & Hr). subst r. simpl.
  apply (In_get_NoDup Z.eqb Z.eqb_spec _ _ _ Hnd) in Hin.
  rewrite (fanout_result _ _ _ _ _ Hrun), get_aggregate_empty in Hin.
  set (hits := hitsOf (listed remote (buildTasks favourites userList))) in *.
  destruct (hitsFor k hits) as [|h hs] eqn:E; [discriminate|].
  assert (Hc := f_equal (fun o => match o with Some x => x | None => c end) Hin).
  cbv beta iota in Hc. subst c. clear Hin. cbn [reasons baseScore].
  assert (Hfrom : forall reason,
             In reason (map (fun h => reasonOf (fst h)) (h :: hs)) ->
             exists task,
               In task (buildTasks favourites userList)
               /\ reason = reasonOf task
               /\ ((type reason = "favori" /\ weight reason = 2)
                   \/ (type reason = "top noté" /\ weight reason = 1))).
  { intros reason Hreason. apply in_map_iff in Hreason.
    destruct Hreason as (h' & <- & Hh').
    assert (Hh : In h' (hitsFor k hits)) by (rewrite E; exact Hh').
    unfold hitsFor in Hh. apply filter_In in Hh. destruct Hh as [Hh _].
    apply hitsOf_seed in Hh. rewrite listed_seeds in Hh.
    exists (fst h'). split; [exact Hh|]. split; [reflexivity|].
    exact (buildTasks_kinds _ _ _ Hh). }
  split; [discriminate|].
  split; [symmetry; apply sumWeights_reasons|].
  split; [exact Hfrom|].
  rewrite <- sumWeights_reasons. apply sumReasonWeights_bounds.
  apply Forall_forall. intros reason Hreason.
  destruct (Hfrom reason Hreason) as (_ & _ & _ & [[_ Hw]|[_ Hw]]); lia.
Qed.

Lemma reasons_explain_baseScore_witness :
  map (fun r => (baseScore (candidate r),
                 map (fun x => (type x, weight x)) (reasons (candidate r))))
      (finalResults Sample.userList Sample.scoreMap)
  = [ (4, [("favori", 2); ("favori", 2)]);
      (3, [("favori", 2); ("top noté", 1)]);
      (2, [("favori", 2)]) ]
  /\ forall r,
       In r (finalResults Sample.userList Sample.scoreMap) ->
       baseScore (candidate r) = sumReasonWeights (reasons (candidate r)).
Proof.
  split; [vm_compute; reflexivity|].
  intros r Hr.
  apply (reasons_explain_baseScore Sample.remote Sample.favourites
           Sample.userList freshWorld (Sample.world 1) Sample.scoreMap r);
    [vm_compute; reflexivity | exact Hr].
Defined.

(** ** The numbers of the backstage panel *)

(** X12.  For every refined entry the displayed numbers add up: the score
    is the base score plus the stored bonus, the bonus lies between 0 and
    2.4, and so the score lies between the base score and the base score
    plus 2.4. *)
Theorem score_is_base_plus_bonus
    (tagMap : list (string * TagStat)) (top : list string)
    (entry : Candidate * bool) :
  (finalScore (refine tagMap top entry)
   == inject_Z (baseScore (fst entry)) + tagBonus (refine tagMap top entry))%Q
  /\ (0 <= tagBonus (refine tagMap top entry) <= 24 # 10)%Q
  /\ (inject_Z (baseScore (fst entry)) <= finalScore (refine tagMap top entry)
      <= inject_Z (baseScore (fst entry)) + (24 # 10))%Q.
Proof.
  set (n := List.length
              (Js.sort byStrengthDesc (commonOf tagMap (media (fst entry))))).
  set (m := List.length (matchedGenres top (media (fst entry)))).
  assert (Hs : (finalScore (refine tagMap top entry)
                == (10 * baseScore (fst entry)
                    + 5 * Z.min (Z.of_nat n) 3 + 3 * Z.min (Z.of_nat m) 3) # 10)%Q).
  { unfold refine, tagPart, genrePart. cbn [finalScore]. fold n m.
    rewrite (toFixed1_tenths _ _ (bonus_tenths (baseScore (fst entry)) n m)).
    apply bonus_tenths. }
  assert (Hb : (tagBonus (refine tagMap top entry)
                == (5 * Z.min (Z.of_nat n) 3 + 3 * Z.min (Z.of_nat m) 3) # 10)%Q).
  { unfold refine, tagPart, genrePart. cbn [tagBonus]. fold n m.
    assert (H0 : (inject_Z (Z.min (Z.of_nat n) 3) * TAG_BONUS
                  + inject_Z (Z.min (Z.of_nat m) 3) * GENRE_BONUS
                  == (5 * Z.min (Z.of_nat n) 3 + 3 * Z.min (Z.of_nat m) 3) # 10)%Q).
    { unfold TAG_BONUS, GENRE_BONUS, Qeq, Qplus, Qmult, inject_Z.
      cbn [Qnum Qden]. lia. }
    rewrite (toFixed1_tenths _ _ H0). exact H0. }
  split; [|split].
  - rewrite Hs, Hb. unfold Qeq, Qplus, inject_Z. cbn [Qnum Qden]. lia.
  - rewrite Hb. unfold Qle. cbn [Qnum Qden]. lia.
  - rewrite Hs. unfold Qle, Qplus, inject_Z. cbn [Qnum Qden]. lia.
Qed.

(** ** The top of the ranking *)

Lemma genreLoad_le_length g l : (genreLoad g l <= List.length l)%nat.
Proof.
  unfold genreLoad.
  rewrite <- (filter_partition_length
                (fun e => String.eqb (primaryGenre e) g) l).
  apply Nat.le_add_r.
Qed.

Lemma diversity_fold_room l :
  forall st,
    countersOk st ->
    deferred st = [] ->
    (List.length (diversified st) + List.length l <= 5)%nat ->
    diversified (fold_left diversityStep l st) = diversified st ++ l
    /\ deferred (fold_left diversityStep l st) = []
    /\ countersOk (fold_left diversityStep l st).
Proof.
  induction l as [|e r IH]; intros st Hok Hdef Hroom; cbn [fold_left].
  - rewrite app_nil_r. auto.
  - assert (Hstep : diversityStep st e
                    = {| diversified := diversified st ++ [e];
                         genreCount :=
                           Js.set String.eqb (primaryGenre e)
                             (Js.orElse (Js.get String.eqb (primaryGenre e)
                                           (genreCount st)) 0 + 1)
                             (genreCount st);
                         deferred := deferred st |}).
    { unfold diversityStep.
      destruct (Z.ltb_spec
                  (Js.orElse (Js.get String.eqb (primaryGenre e) (genreCount st)) 0)
                  DIVERSITY_CAP) as [_|Hge]; [reflexivity|].
      exfalso. destruct (Hok (primaryGenre e)) as [Hc _].
      pose proof (genreLoad_le_length (primaryGenre e) (diversified st)) as Hl.
      cbn [List.length] in Hroom. unfold DIVERSITY_CAP in Hge. lia. }
    destruct (IH (diversityStep st e)) as (Hd & Hf & Hok').
    + apply countersOk_step, Hok.
    + rewrite Hstep. exact Hdef.
    + rewrite Hstep. cbn [diversified List.length] in *.
      rewrite length_app. simpl. lia.
    + rewrite Hd, Hf. rewrite Hstep at 1. cbn [diversified].
      rewrite <- app_assoc. auto.
Qed.

(** The re-rank leaves the first five entries where they are. *)
Lemma diversify_split l :
  exists d f,
    diversify l = firstn 5 l ++ (d ++ f) /\ Interleave d f (skipn 5 l).
Proof.
  set (init := {| diversified := []; genreCount := []; deferred := [] |}).
  assert (Hst : diversityPass l
                = fold_left diversityStep (skipn 5 l)
                    (fold_left diversityStep (firstn 5 l) init)).
  { unfold diversityPass. fold init.
    rewrite <- fold_left_app, firstn_skipn. reflexivity. }
  unfold diversify. rewrite Hst.
  destruct (diversity_fold_room (firstn 5 l) init) as (Hd & Hf & _).
  - intros g. unfold genreLoad, DIVERSITY_CAP. simpl. lia.
  - reflexivity.
  - change (List.length (diversified init)) with 0%nat.
    apply (firstn_le_length 5 l).
  - destruct (diversity_fold_interleave (skipn 5 l)
                (fold_left diversityStep (firstn 5 l) init))
      as (d & f & Hd' & Hf' & Hi).
    exists d, f. rewrite Hd', Hf', Hd, Hf. simpl.
    rewrite <- app_assoc. auto.
Qed.

(** X13.  The diversity re-rank never touches the top five: the first five
    returned entries are the five best-scored refined entries in score
    order, and what follows them is a rearrangement of the rest.  After the
    sort of step 7, no entry below the fifth place has a higher score than
    an entry of the first five. *)
Theorem diversify_keeps_top_five (filtered : list Result) :
  firstn 5 (diversify filtered) = firstn 5 filtered
  /\ Permutation (skipn 5 (diversify filtered)) (skipn 5 filtered)
  /\ (forall x y,
         In x (firstn 5 (diversify (Js.sort byFinalScoreDesc filtered))) ->
         In y (skipn 5 (diversify (Js.sort byFinalScoreDesc filtered))) ->
         (finalScore y <= finalScore x)%Q).
Proof.
  assert (Hgen : forall l,
             firstn 5 (diversify l) = firstn 5 l
             /\ Permutation (skipn 5 (diversify l)) (skipn 5 l)).
  { intros l. destruct (diversify_split l) as (d & f & Heq & Hi).
    rewrite Heq.
    destruct (Nat.le_gt_cases 5 (List.length l)) as [Hlong|Hshort].
    - assert (Hlen : List.length (firstn 5 l) = 5%nat)
        by (rewrite length_firstn; lia).
      split.
      + rewrite firstn_app, Hlen, Nat.sub_diag, firstn_O, app_nil_r.
        rewrite firstn_firstn. reflexivity.
      + rewrite skipn_app, Hlen, Nat.sub_diag, skipn_O.
        replace (skipn 5 (firstn 5 l)) with (@nil Result)
          by (symmetry; apply skipn_all2; lia).
        apply (Interleave_perm d f), Hi.
    - assert (Hnil : skipn 5 l = []) by (apply skipn_all2; lia).
      rewrite Hnil in Hi. inversion Hi; subst. cbn [app].
      rewrite app_nil_r. split.
      + rewrite firstn_firstn. reflexivity.
      + rewrite Hnil. rewrite skipn_all2; [constructor|].
        rewrite length_firstn. lia. }
  split; [apply Hgen|]. split; [apply Hgen|].
  intros x y Hx Hy.
  destruct (Hgen (Js.sort byFinalScoreDesc filtered)) as [Hfirst Hrest].
  rewrite Hfirst in Hx. apply (Permutation_in _ Hrest) in Hy.
  pose proof (sort_byFinalScore_sorted filtered) as Hs.
  rewrite <- (firstn_skipn 5 (Js.sort byFinalScoreDesc filtered)) in Hs.
  exact (sorted_app_cross scoreDesc _ _ Hs x y Hx Hy).
Qed.

(** ** The filter chips *)

Lemma filter_interleave {A} (p : A -> bool) (l : list A) :
  Interleave (filter p l) (filter (fun x => negb (p x)) l) l.
Proof.
  induction l as [|x r IH]; simpl; [constructor|].
  destruct (p x); simpl; constructor; exact IH.
Qed.

Lemma App_filter_both allRecs g f :
  App_filter allRecs g f
  = filter (fun r => (String.eqb g "all" || matchesGenre g r)
                     && (String.eqb f "all" || matchesFormat f r))
           allRecs.
Proof.
  unfold App_filter.
  destruct (String.eqb g "all"), (String.eqb f "all"); simpl.
  - induction allRecs as [|r l IH]; simpl; [reflexivity|]. f_equal. exact IH.
  - apply filter_ext. intros r. reflexivity.
  - apply filter_ext. intros r. rewrite andb_true_r. reflexivity.
  - induction allRecs as [|r l IH]; simpl; [reflexivity|].
    destruct (matchesGenre g r); simpl; [|exact IH].
    destruct (matchesFormat f r); [f_equal|]; exact IH.
Qed.

(** X14.  The filtered view shows exactly the recommendations that match
    the active genre (or any, for "all") and the active format (or any), in
    the order of the ranking; with both chips on "all" it shows everything;
    and every genre chip and every format chip, used on its own, shows at
    least one card. *)
Theorem App_filter_view (allRecs : list Result) (g f : string) :
  (forall r,
      In r (App_filter allRecs g f)
      <-> In r allRecs
          /\ (g = "all"
              \/ In g (Js.orElse (m_genres (media (candidate r))) []))
          /\ (f = "all" \/ m_format (media (candidate r)) = Some f))
  /\ (exists hidden, Interleave (App_filter allRecs g f) hidden allRecs)
  /\ App_filter allRecs "all" "all" = allRecs
  /\ (In g (genreChips allRecs) -> App_filter allRecs g "all" <> [])
  /\ (In f (formatChips allRecs) -> App_filter allRecs "all" f <> []).
Proof.
  assert (Hgenre : forall r,
             matchesGenre g r = true
             <-> In g (Js.orElse (m_genres (media (candidate r))) [])).
  { intros r. unfold matchesGenre. rewrite existsb_exists. split.
    - intros (x & Hx & E). apply String.eqb_eq in E. congruence.
    - intros H. exists g. split; [exact H | apply String.eqb_refl]. }
  assert (Hformat : forall r,
             matchesFormat f r = true
             <-> m_format (media (candidate r)) = Some f).
  { intros r. unfold matchesFormat.
    destruct (m_format (media (candidate r))) as [x|].
    - rewrite String.eqb_eq. split; congruence.
    - split; discriminate. }
  assert (Hin : forall r,
             In r (App_filter allRecs g f)
             <-> In r allRecs
                 /\ (g = "all"
                     \/ In g (Js.orElse (m_genres (media (candidate r))) []))
                 /\ (f = "all" \/ m_format (media (candidate r)) = Some f)).
  { intros r. rewrite App_filter_both, filter_In, andb_true_iff, !orb_true_iff.
    rewrite !String.eqb_eq, Hgenre, Hformat. tauto. }
  split; [exact Hin|].
  split.
  { rewrite App_filter_both. eexists. apply filter_interleave. }
  split; [reflexivity|].
  split.
  - intros Hchip Hempty. unfold genreChips in Hchip.
    apply in_flat_map in Hchip. destruct Hchip as (r & Hr & Hg).
    assert (Hshown : In r (App_filter allRecs g "all")).
    { rewrite App_filter_both. apply filter_In. split; [exact Hr|].
      rewrite andb_true_iff, !orb_true_iff. split; [right | left; reflexivity].
      apply Hgenre, Hg. }
    rewrite Hempty in Hshown. destruct Hshown.
  - intros Hchip Hempty. unfold formatChips in Hchip.
    apply in_flat_map in Hchip. destruct Hchip as (r & Hr & Hf).
    assert (Hfmt : m_format (media (candidate r)) = Some f).
    { destruct (m_format (media (candidate r))) as [[|c s]|];
        simpl in Hf; try destruct Hf as [Hf|[]]; try destruct Hf.
      congruence. }
    assert (Hshown : In r (App_filter allRecs "all" f)).
    { rewrite App_filter_both. apply filter_In. split; [exact Hr|].
      rewrite andb_true_iff, !orb_true_iff. split; [left; reflexivity | right].
      apply Hformat, Hfmt. }
    rewrite Hempty in Hshown. destruct Hshown.
Qed.

Lemma App_filter_view_witness :
  map resultId
      (App_filter (finalResults Sample.userList Sample.scoreMap) "Drama" "TV")
  = [20]
  /\ App_filter (finalResults Sample.userList Sample.scoreMap) "Comedy" "all"
     <> [].
Proof.
  split; [reflexivity|].
  apply (App_filter_view (finalResults Sample.userList Sample.scoreMap)
           "Comedy" "all").
  vm_compute. auto.
Defined.

(** ** The result cache *)

Lemma lowerAscii_twice c : Js.lowerAscii (Js.lowerAscii c) = Js.lowerAscii c.
Proof. destruct c as [[] [] [] [] [] [] [] []]; reflexivity. Qed.

Lemma toLowerCase_twice s : Js.toLowerCase (Js.toLowerCase s) = Js.toLowerCase s.
Proof.
  induction s as [|c r IH]; simpl; [reflexivity|].
  rewrite lowerAscii_twice, IH. reflexivity.
Qed.

(** X15.  The cache holds one user's results.  For names of ASCII
    characters, on which [Js.toLowerCase] is JavaScript's: after a
    successful save for [u], a load for [u'] returns the saved payload (the
    results and the time of the save) exactly when the results are not empty
    and [u'] equals [u] up to letter case; in particular the lower-cased
    name finds it, a save for another user evicts it, and an empty result
    list is never served.  A save whose write fails leaves the slot as it
    was. *)
Theorem cache_round_trip
    (u u' : string) (results : list Result) (now : Z)
    (slot : option CachePayload) :
  asciiOnly u = true ->
  asciiOnly u' = true ->
  (loadCache u' (saveCache u results now true slot)
   = if String.eqb (Js.toLowerCase u) (Js.toLowerCase u')
        && negb (match results with [] => true | _ => false end)
     then Some {| cache_username := Js.toLowerCase u;
                  cache_results := results;
                  cache_timestamp := now |}
     else None)
  /\ (results <> [] ->
      loadCache u (saveCache u results now true slot)
      = loadCache (Js.toLowerCase u) (saveCache u results now true slot)
      /\ option_map cache_results
           (loadCache u (saveCache u results now true slot)) = Some results
      /\ option_map cache_timestamp
           (loadCache u (saveCache u results now true slot)) = Some now)
  /\ (Js.toLowerCase u <> Js.toLowerCase u' ->
      loadCache u' (saveCache u results now true slot) = None)
  /\ loadCache u' (saveCache u [] now true slot) = None
  /\ saveCache u results now false slot = slot
  /\ loadCache u' None = None.
Proof.
  intros _ _.
  assert (Hload :
            loadCache u' (saveCache u results now true slot)
            = if String.eqb (Js.toLowerCase u) (Js.toLowerCase u')
                 && negb (match results with [] => true | _ => false end)
              then Some {| cache_username := Js.toLowerCase u;
                           cache_results := results;
                           cache_timestamp := now |}
              else None).
  { unfold loadCache, saveCache. cbn [cache_username cache_results].
    destruct (String.eqb (Js.toLowerCase u) (Js.toLowerCase u')); [|reflexivity].
    destruct results; reflexivity. }
  split; [exact Hload|].
  split.
  { intros Hne.
    assert (Hself : forall v,
               Js.toLowerCase v = Js.toLowerCase u ->
               loadCache v (saveCache u results now true slot)
               = Some {| cache_username := Js.toLowerCase u;
                         cache_results := results;
                         cache_timestamp := now |}).
    { intros v Hv. unfold loadCache, saveCache.
      cbn [cache_username cache_results].
      rewrite Hv, String.eqb_refl.
      destruct results; [contradiction | reflexivity]. }
    rewrite (Hself u eq_refl), (Hself _ (toLowerCase_twice u)).
    repeat split. }
  split.
  { intros Hne. rewrite Hload.
    destruct (String.eqb_spec (Js.toLowerCase u) (Js.toLowerCase u'));
      [contradiction | reflexivity]. }
  split.
  { unfold loadCache, saveCache. cbn [cache_username cache_results].
    rewrite andb_false_r. reflexivity. }
  split; reflexivity.
Qed.

Lemma cache_round_trip_witness :
  option_map cache_results
    (loadCache "alice"
       (saveCache "Alice" (finalResults Sample.userList Sample.scoreMap)
          1000 true None))
  = Some (finalResults Sample.userList Sample.scoreMap)
  /\ loadCache "bob"
       (saveCache "Alice" (finalResults Sample.userList Sample.scoreMap)
          1000 true None)
     = None.
Proof.
  destruct (cache_round_trip "Alice" "bob"
              (finalResults Sample.userList Sample.scoreMap) 1000 None
              eq_refl eq_refl)
    as (_ & _ & Hevict & _).
  split; [reflexivity|].
  apply Hevict. vm_compute. discriminate.
Defined.

(** X16.  The stale banner is shown exactly when the cache is more than 24
    hours old (a cache of exactly 24 hours is still fresh), the number of
    hours it shows is the age rounded to the nearest hour and is never below
    24, and results shown at the moment they were saved are never stale. *)
Theorem showCacheAge_stale (now timestamp : Z) :
  (showCacheAge now timestamp <> None <-> 86400000 < now - timestamp)
  /\ (forall hours,
         showCacheAge now timestamp = Some hours ->
         24 <= hours
         /\ 3600000 * hours - 1800000 <= now - timestamp
            < 3600000 * hours + 1800000)
  /\ showCacheAge now now = None
  /\ showCacheAge (timestamp + 86400000) timestamp = None
  /\ showCacheAge (timestamp + 86400001) timestamp = Some 24.
Proof.
  unfold showCacheAge, CACHE_TTL_MS, Js.roundDiv.
  change (24 * 60 * 60 * 1000) with 86400000.
  change (1000 * 60 * 60) with 3600000.
  split; [|split; [|split; [|split]]].
  - destruct (Z.ltb_spec 86400000 (now - timestamp)); split;
      try discriminate; try lia; intros; congruence.
  - intros hours H.
    destruct (Z.ltb_spec 86400000 (now - timestamp)) as [Hs|]; [|discriminate].
    assert (Hh : hours = (2 * (now - timestamp) + 3600000) / (2 * 3600000))
      by congruence.
    clear H.
    pose proof (Z.div_mod (2 * (now - timestamp) + 3600000) (2 * 3600000)) as Hd.
    pose proof (Z.mod_pos_bound (2 * (now - timestamp) + 3600000) (2 * 3600000))
      as Hm.
    rewrite <- Hh in Hd. lia.
  - replace (now - now) with 0 by lia. reflexivity.
  - replace (timestamp + 86400000 - timestamp) with 86400000 by lia.
    reflexivity.
  - replace (timestamp + 86400001 - timestamp) with 86400001 by lia.
    reflexivity.
Qed.

(** ** Adding to the planning list *)

Lemma loggedOut_not_loggedIn w w' :
  auth w' = loggedOutFrom w -> isLoggedIn w' = false.
Proof.
  unfold auth, loggedOutFrom, isLoggedIn. intros H.
  injection H as Ht _ _. rewrite Ht. reflexivity.
Qed.

Lemma auth_isLoggedIn w w' : auth w' = auth w -> isLoggedIn w' = isLoggedIn w.
Proof.
  unfold auth, isLoggedIn. intros H.
  injection H as Ht Hv _. rewrite Ht, Hv. reflexivity.
Qed.

(** X17.  [addToPlanning] never sends a request for a logged-out user: the
    call fails at once and changes nothing.  For a logged-in user it sends
    the mutation, with between 1 and 5 requests.  When the mutation is
    rejected with TOKEN_EXPIRED the user has been logged out, so every
    later call fails at once without a request; with any other outcome the
    user is still logged in. *)
Theorem addToPlanning_guard {A} (saveServer : Z -> Server A) (mediaId : Z)
    (w : World) :
  (isLoggedIn w = false ->
   addToPlanning saveServer mediaId w = (LoginRequired, w))
  /\ (isLoggedIn w = true ->
      fst (addToPlanning saveServer mediaId w)
      = Requested (fst (gqlRequest (saveServer mediaId) w))
      /\ (w_fetches w + 1
          <= w_fetches (snd (addToPlanning saveServer mediaId w))
          <= w_fetches w + 5)%nat)
  /\ (fst (addToPlanning saveServer mediaId w) = Requested (Throw TokenExpired) ->
      forall (saveServer' : Z -> Server A) mediaId',
        addToPlanning saveServer' mediaId'
          (snd (addToPlanning saveServer mediaId w))
        = (LoginRequired, snd (addToPlanning saveServer mediaId w)))
  /\ (forall o,
         fst (addToPlanning saveServer mediaId w) = Requested o ->
         o <> Throw TokenExpired ->
         isLoggedIn (snd (addToPlanning saveServer mediaId w)) = true).
Proof.
  destruct (gqlRequestFrom_session (saveServer mediaId) (S MAX_RETRIES) 0%nat w)
    as (_ & Hexp & Hkept).
  destruct (gqlRequestFrom_budget (saveServer mediaId) (S MAX_RETRIES) 0%nat w)
    as (n & Hn & Hf & _); [reflexivity | unfold MAX_RETRIES; lia |].
  fold (gqlRequest (saveServer mediaId)) in Hexp, Hkept, Hf.
  unfold addToPlanning.
  destruct (isLoggedIn w) eqn:Hin; cbn [negb fst snd].
  - split; [discriminate|].
    split.
    { intros _. split; [reflexivity|].
      rewrite Hf. unfold MAX_RETRIES in Hn. lia. }
    split.
    { intros Ho saveServer' mediaId'.
      assert (Hthrow : fst (gqlRequest (saveServer mediaId) w) = Throw TokenExpired)
        by congruence.
      rewrite (loggedOut_not_loggedIn _ _ (Hexp Hthrow)). reflexivity. }
    intros o Ho Hne.
    assert (Hne' : fst (gqlRequest (saveServer mediaId) w) <> Throw TokenExpired)
      by congruence.
    rewrite (auth_isLoggedIn _ _ (Hkept Hne')). exact Hin.
  - split; [reflexivity|].
    split; [discriminate|].
    split; [discriminate|].
    intros o Ho. discriminate.
Qed.

Lemma addToPlanning_guard_witness :
  fst (addToPlanning (fun _ _ => @invalidToken Z) 7 signedIn)
  = Requested (Throw TokenExpired)
  /\ addToPlanning (fun _ => Sample.alwaysLimited) 8
       (snd (addToPlanning (fun _ _ => @invalidToken Z) 7 signedIn))
     = (LoginRequired,
        snd (addToPlanning (fun _ _ => @invalidToken Z) 7 signedIn))
  /\ addToPlanning (fun _ => Sample.alwaysLimited) 8 freshWorld
     = (LoginRequired, freshWorld).
Proof.
  destruct (addToPlanning_guard (fun _ _ => @invalidToken Z) 7 signedIn)
    as (_ & _ & Hlater & _).
  destruct (addToPlanning_guard (fun _ => Sample.alwaysLimited) 8 freshWorld)
    as (Hout & _).
  split; [reflexivity|].
  split; [apply Hlater; reflexivity|].
  apply Hout. reflexivity.
Defined.

(* ===================================================================== *)
(** * The debug page *)
(* ===================================================================== *)

(** ** The retry policy of [gql] *)

Lemma answer_silent {A} (res : DebugPage.Reply A) :
  snd (DebugPage.answer res) = [].
Proof.
  unfold DebugPage.answer.
  destruct (negb (DebugPage.reply_ok res)); [reflexivity|].
  destruct (DebugPage.reply_json res) as [json|]; [|reflexivity].
  destruct (DebugPage.body_errors json); reflexivity.
Qed.

Lemma answer_finished {A} (res : DebugPage.Reply A) :
  fst (DebugPage.answer res) <> DebugPage.Unfinished.
Proof.
  unfold DebugPage.answer.
  destruct (negb (DebugPage.reply_ok res)); [discriminate|].
  destruct (DebugPage.reply_json res) as [json|]; [|discriminate].
  destruct (DebugPage.body_errors json); discriminate.
Qed.

Lemma gqlFrom_step {A} fuel q (srv : DebugPage.Server A) a :
  DebugPage.gqlFrom (S fuel) q srv a
  = if DebugPage.retried (srv a) then
      if (DebugPage.MAX_RETRIES <=? a)%nat
      then (DebugPage.Thrown DebugPage.Overloaded,
            [DebugPage.Timeout (if (a =? 0)%nat then 300 else 0);
             DebugPage.Fetch q a])
      else (fst (DebugPage.gqlFrom fuel q srv (S a)),
            [DebugPage.Timeout (if (a =? 0)%nat then 300 else 0);
             DebugPage.Fetch q a;
             DebugPage.WarnRetry (DebugPage.reply_status (srv a)) (S a)
                                 (DebugPage.delay a);
             DebugPage.Timeout (DebugPage.delay a)]
            ++ snd (DebugPage.gqlFrom fuel q srv (S a)))
    else (fst (DebugPage.answer (srv a)),
          [DebugPage.Timeout (if (a =? 0)%nat then 300 else 0);
           DebugPage.Fetch q a]).
Proof.
  cbn [DebugPage.gqlFrom]. unfold DebugPage.bind, DebugPage.tell.
  cbn [fst snd app].
  destruct (DebugPage.retried (srv a)).
  - destruct (DebugPage.MAX_RETRIES <=? a)%nat; reflexivity.
  - rewrite answer_silent. reflexivity.
Qed.

Lemma gqlFrom_policy {A} q (srv : DebugPage.Server A) fuel :
  forall a,
    (fuel + a = S DebugPage.MAX_RETRIES)%nat ->
    (a <= DebugPage.MAX_RETRIES)%nat ->
    exists n,
      (a + n <= DebugPage.MAX_RETRIES)%nat
      /\ (forall k, (a <= k < a + n)%nat -> DebugPage.retried (srv k) = true)
      /\ snd (DebugPage.gqlFrom fuel q srv a)
         = [DebugPage.Timeout (if (a =? 0)%nat then 300 else 0);
            DebugPage.Fetch q a]
           ++ flat_map (retryStep q srv) (seq a n)
      /\ fst (DebugPage.gqlFrom fuel q srv a)
         = (if DebugPage.retried (srv (a + n)%nat)
            then DebugPage.Thrown DebugPage.Overloaded
            else fst (DebugPage.answer (srv (a + n)%nat)))
      /\ (DebugPage.retried (srv (a + n)%nat) = true ->
          (a + n)%nat = DebugPage.MAX_RETRIES).
Proof.
  induction fuel as [|fuel IH]; intros a Hf Ha; [lia|].
  rewrite gqlFrom_step.
  destruct (DebugPage.retried (srv a)) eqn:Hr.
  - destruct (Nat.leb_spec DebugPage.MAX_RETRIES a) as [Hc|Hc].
    + exists 0%nat. rewrite Nat.add_0_r, Hr.
      split; [lia|]. split; [intros k Hk; lia|].
      split; [reflexivity|]. split; [reflexivity|]. intros _. lia.
    + destruct (IH (S a)) as (n & Hn & Hretried & Ht & Ho & Hlast); [lia | lia |].
      exists (S n).
      replace (a + S n)%nat with (S a + n)%nat by lia.
      split; [lia|].
      split.
      { intros k Hk. destruct (Nat.eq_dec k a) as [->|Hne]; [exact Hr|].
        apply Hretried. lia. }
      split.
      { cbn [snd]. rewrite Ht. cbn [seq flat_map]. unfold retryStep at 2.
        cbn [Nat.eqb app]. reflexivity. }
      split; [exact Ho | exact Hlast].
  - exists 0%nat. rewrite Nat.add_0_r, Hr.
    split; [lia|]. split; [intros k Hk; lia|].
    split; [reflexivity|]. split; [reflexivity|]. discriminate.
Qed.

Lemma waited_app t1 t2 : waited (t1 ++ t2) = waited t1 + waited t2.
Proof.
  induction t1 as [|e t1 IH]; [reflexivity|].
  cbn [app]. unfold waited in *. cbn [fold_right]. destruct e; lia.
Qed.

Lemma requests_app t1 t2 : requests (t1 ++ t2) = (requests t1 + requests t2)%nat.
Proof.
  unfold requests. rewrite filter_app, length_app. reflexivity.
Qed.

Lemma delay_bounds k : 2000 <= DebugPage.delay k <= 30000.
Proof.
  unfold DebugPage.delay.
  assert (0 < 2 ^ Z.of_nat k) by (apply Z.pow_pos_nonneg; lia).
  lia.
Qed.

Lemma retrySteps_cost {A} q (srv : DebugPage.Server A) n a :
  waited (flat_map (retryStep q srv) (seq a n))
  = fold_right Z.add 0 (map DebugPage.delay (seq a n))
  /\ requests (flat_map (retryStep q srv) (seq a n)) = n.
Proof.
  revert a. induction n as [|n IH]; intros a; [split; reflexivity|].
  destruct (IH (S a)) as [Hw Hr].
  cbn [seq flat_map map fold_right].
  rewrite waited_app, requests_app, Hw, Hr.
  split; [unfold retryStep, waited; cbn [fold_right]; lia | reflexivity].
Qed.

(** X18.  The retry policy of the debug page's [gql].  A call makes between
    1 and 6 requests: it waits 300 ms, sends the query, and as long as the
    answer is 429 or 500 and fewer than 5 retries were made it warns, waits
    min(2000 * 2^k, 30000) ms (2, 4, 8, 16, 30 s) and sends it again.  The
    first answer that is neither 429 nor 500 decides: a status outside
    200..299 is an error, then a body that is not JSON, then a present
    [errors] field, else [data] is returned; a sixth 429 or 500 is the
    "overloaded" error.  The call always ends and waits at most 60.3 s. *)
Theorem debug_gql_policy {A} (q : DebugPage.Query) (srv : DebugPage.Server A) :
  exists n,
    (n <= 5)%nat
    /\ (forall k, (k < n)%nat ->
                  DebugPage.reply_status (srv k) = 429
                  \/ DebugPage.reply_status (srv k) = 500)
    /\ snd (DebugPage.gql q srv)
       = [DebugPage.Timeout 300; DebugPage.Fetch q 0]
         ++ flat_map (retryStep q srv) (seq 0 n)
    /\ fst (DebugPage.gql q srv)
       = (if DebugPage.retried (srv n)
          then DebugPage.Thrown DebugPage.Overloaded
          else fst (DebugPage.answer (srv n)))
    /\ (DebugPage.retried (srv n) = true -> n = 5%nat)
    /\ fst (DebugPage.gql q srv) <> DebugPage.Unfinished
    /\ requests (snd (DebugPage.gql q srv)) = S n
    /\ 300 <= waited (snd (DebugPage.gql q srv)) <= 60300
    /\ map DebugPage.delay (seq 0 5) = [2000; 4000; 8000; 16000; 30000].
Proof.
  destruct (gqlFrom_policy q srv (S DebugPage.MAX_RETRIES) 0%nat)
    as (n & Hn & Hretried & Ht & Ho & Hlast);
    [reflexivity | unfold DebugPage.MAX_RETRIES; lia |].
  fold (DebugPage.gql q srv) in Ht, Ho.
  cbn [Nat.add Nat.eqb] in *. unfold DebugPage.MAX_RETRIES in *.
  exists n.
  split; [exact Hn|].
  split.
  { intros k Hk. specialize (Hretried k (conj (Nat.le_0_l k) Hk)).
    unfold DebugPage.retried in Hretried.
    apply orb_true_iff in Hretried. destruct Hretried as [H|H];
      apply Z.eqb_eq in H; auto. }
  split; [exact Ht|].
  split; [exact Ho|].
  split; [exact Hlast|].
  split.
  { rewrite Ho. destruct (DebugPage.retried (srv n)); [discriminate|].
    apply answer_finished. }
  destruct (retrySteps_cost q srv n 0) as [Hw Hr].
  split.
  { rewrite Ht, requests_app, Hr. reflexivity. }
  split; [|reflexivity].
  rewrite Ht, waited_app, Hw.
  change (waited [DebugPage.Timeout 300; DebugPage.Fetch q 0]) with 300.
  do 6 (destruct n as [|n]; [vm_compute; split; discriminate|]).
  lia.
Qed.

Example debug_gql_recovers :
  DebugPage.gql (DebugPage.Q_LIST "alice") recovering
  = (DebugPage.Returned (Some 7),
     [ DebugPage.Timeout 300; DebugPage.Fetch (DebugPage.Q_LIST "alice") 0;
       DebugPage.WarnRetry 500 1 2000; DebugPage.Timeout 2000;
       DebugPage.Timeout 0; DebugPage.Fetch (DebugPage.Q_LIST "alice") 1;
       DebugPage.WarnRetry 500 2 4000; DebugPage.Timeout 4000;
       DebugPage.Timeout 0; DebugPage.Fetch (DebugPage.Q_LIST "alice") 2 ]).
Proof. reflexivity. Qed.

Example debug_gql_overloaded :
  fst (DebugPage.gql (DebugPage.Q_LIST "alice") (@overloaded Z))
  = DebugPage.Thrown DebugPage.Overloaded
  /\ requests (snd (DebugPage.gql (DebugPage.Q_LIST "alice") (@overloaded Z)))
     = 6%nat
  /\ waited (snd (DebugPage.gql (DebugPage.Q_LIST "alice") (@overloaded Z)))
     = 60300.
Proof. repeat split. Qed.

(** ** Step 1 of [runAll]: the favourites *)

Lemma bind_returned {A B} (m : DebugPage.W A) (k : A -> DebugPage.W B) a :
  fst m = DebugPage.Returned a ->
  DebugPage.bind m k = (fst (k a), snd m ++ snd (k a)).
Proof.
  destruct m as [o t]. cbn [fst snd]. intros ->. reflexivity.
Qed.

Lemma bind_thrown {A B} (m : DebugPage.W A) (k : A -> DebugPage.W B) e :
  fst m = DebugPage.Thrown e ->
  DebugPage.bind m k = (DebugPage.Thrown e, snd m).
Proof.
  destruct m as [o t]. cbn [fst snd]. intros ->. reflexivity.
Qed.

Lemma gql_finished {A} q (srv : DebugPage.Server A) :
  fst (DebugPage.gql q srv) <> DebugPage.Unfinished.
Proof.
  destruct (gqlFrom_policy q srv (S DebugPage.MAX_RETRIES) 0%nat)
    as (n & _ & _ & _ & Ho & _);
    [reflexivity | unfold DebugPage.MAX_RETRIES; lia |].
  fold (DebugPage.gql q srv) in Ho. rewrite Ho.
  destruct (DebugPage.retried (srv (0 + n)%nat)); [discriminate|].
  apply answer_finished.
Qed.

Lemma gql_fetch_query {A} q (srv : DebugPage.Server A) q' a :
  In (DebugPage.Fetch q' a) (snd (DebugPage.gql q srv)) -> q' = q.
Proof.
  destruct (gqlFrom_policy q srv (S DebugPage.MAX_RETRIES) 0%nat)
    as (n & _ & _ & Ht & _);
    [reflexivity | unfold DebugPage.MAX_RETRIES; lia |].
  fold (DebugPage.gql q srv) in Ht. rewrite Ht.
  intros Hin. apply in_app_or in Hin. destruct Hin as [Hin|Hin].
  - destruct Hin as [H|[H|[]]]; [discriminate | congruence].
  - apply in_flat_map in Hin. destruct Hin as (k & _ & Hk).
    unfold retryStep in Hk.
    destruct Hk as [H|[H|[H|[H|[]]]]]; try discriminate. congruence.
Qed.

Lemma favLoop_capped cat username fuel :
  forall page hasNext acc q a,
    In (DebugPage.Fetch q a)
       (snd (DebugPage.favLoop fuel cat username page hasNext acc)) ->
    exists p, q = DebugPage.Q_FAVOURITES username p /\ (page <= p <= 10)%nat.
Proof.
  induction fuel as [|fuel IH]; intros page hasNext acc q a Hin; [destruct Hin|].
  cbn [DebugPage.favLoop] in Hin.
  destruct (hasNext && (page <=? 10)%nat) eqn:Hc; [|destruct Hin].
  apply andb_true_iff in Hc. destruct Hc as [_ Hp]. apply Nat.leb_le in Hp.
  destruct (fst (DebugPage.gql (DebugPage.Q_FAVOURITES username page)
                   (DebugPage.favouritesOf cat username page))) as [d|e|] eqn:Hg.
  - rewrite (bind_returned _ _ _ Hg) in Hin. cbn [snd] in Hin.
    apply in_app_or in Hin. destruct Hin as [Hin|Hin].
    + apply gql_fetch_query in Hin. exists page. split; [exact Hin | lia].
    + destruct d as [[anime|]|]; try destruct Hin.
      destruct (IH _ _ _ _ _ Hin) as (p & Hq & Hb).
      exists p. split; [exact Hq | lia].
  - rewrite (bind_thrown _ _ _ Hg) in Hin. cbn [snd] in Hin.
    apply gql_fetch_query in Hin. exists page. split; [exact Hin | lia].
  - exfalso. exact (gql_finished _ _ Hg).
Qed.

Lemma favLoop_finished cat username fuel :
  forall page hasNext acc,
    (1 <= fuel)%nat ->
    (12 <= fuel + page)%nat ->
    fst (DebugPage.favLoop fuel cat username page hasNext acc)
    <> DebugPage.Unfinished.
Proof.
  induction fuel as [|fuel IH]; intros page hasNext acc H1 Hf; [lia|].
  cbn [DebugPage.favLoop].
  destruct (hasNext && (page <=? 10)%nat) eqn:Hc; [|discriminate].
  apply andb_true_iff in Hc. destruct Hc as [_ Hp]. apply Nat.leb_le in Hp.
  destruct (fst (DebugPage.gql (DebugPage.Q_FAVOURITES username page)
                   (DebugPage.favouritesOf cat username page))) as [d|e|] eqn:Hg.
  - rewrite (bind_returned _ _ _ Hg). cbn [fst].
    destruct d as [[anime|]|]; try discriminate.
    apply IH; lia.
  - rewrite (bind_thrown _ _ _ Hg). discriminate.
  - exfalso. exact (gql_finished _ _ Hg).
Qed.

Lemma nodesOfPages_S pages first n :
  nodesOfPages pages first (S n)
  = nodes (pages first) ++ nodesOfPages pages (S first) n.
Proof. reflexivity. Qed.

Lemma favLoop_pages cat username (pages : nat -> FavPage) m fuel :
  (m <= 10)%nat ->
  (forall k, (1 <= k <= m)%nat ->
             fst (DebugPage.gql (DebugPage.Q_FAVOURITES username k)
                    (DebugPage.favouritesOf cat username k))
             = DebugPage.Returned (Some (Some (pages k)))) ->
  (forall k, (1 <= k < m)%nat -> hasNextPage (pages k) = true) ->
  ((m < 10)%nat -> hasNextPage (pages m) = false) ->
  forall page acc,
    (1 <= page <= m)%nat ->
    (m + 2 <= fuel + page)%nat ->
    fst (DebugPage.favLoop fuel cat username page true acc)
    = DebugPage.Returned (acc ++ nodesOfPages pages page (m + 1 - page)).
Proof.
  intros Hm Hans Hnext Hlast.
  induction fuel as [|fuel IH]; intros page acc Hp Hf; [lia|].
  cbn [DebugPage.favLoop].
  replace (page <=? 10)%nat with true by (symmetry; apply Nat.leb_le; lia).
  cbn [andb].
  rewrite (bind_returned _ _ _ (Hans page Hp)). cbn [fst].
  replace (m + 1 - page)%nat with (S (m - page)) by lia.
  rewrite nodesOfPages_S, app_assoc.
  destruct (Nat.eq_dec page m) as [->|Hne].
  - replace (m - m)%nat with 0%nat by lia.
    destruct fuel as [|fuel]; [lia|].
    cbn [DebugPage.favLoop].
    assert (Hstop : hasNextPage (pages m) && (S m <=? 10)%nat = false).
    { destruct (Nat.eq_dec m 10) as [->|Hm10].
      - apply andb_false_r.
      - rewrite Hlast by lia. reflexivity. }
    rewrite Hstop. unfold nodesOfPages. cbn [seq flat_map fst DebugPage.ret].
    rewrite app_nil_r. reflexivity.
  - rewrite Hnext by lia.
    rewrite IH by lia.
    replace (m + 1 - S page)%nat with (m - page)%nat by lia.
    reflexivity.
Qed.

(** X19.  The debug page reads ten pages of favourites at most.  When the
    favourites come in [n] pages, it returns the nodes of the pages
    1 .. min(n, 10) in page order: an account with more than ten pages is
    cut after the tenth without an error.  Whatever the server answers, the
    loop ends and never asks for a page beyond the tenth. *)
Theorem debug_favourites_capped
    (cat : DebugPage.Catalogue) (username : string)
    (pages : nat -> FavPage) (n : nat) :
  (1 <= n)%nat ->
  (forall k, (1 <= k <= Nat.min n 10)%nat ->
             fst (DebugPage.gql (DebugPage.Q_FAVOURITES username k)
                    (DebugPage.favouritesOf cat username k))
             = DebugPage.Returned (Some (Some (pages k)))) ->
  (forall k, (1 <= k < n)%nat -> hasNextPage (pages k) = true) ->
  ((n <= 10)%nat -> hasNextPage (pages n) = false) ->
  fst (DebugPage.favNodes cat username)
  = DebugPage.Returned (nodesOfPages pages 1 (Nat.min n 10))
  /\ (forall q a,
         In (DebugPage.Fetch q a) (snd (DebugPage.favNodes cat username)) ->
         exists p,
           q = DebugPage.Q_FAVOURITES username p /\ (1 <= p <= 10)%nat)
  /\ (forall cat' username',
         fst (DebugPage.favNodes cat' username') <> DebugPage.Unfinished).
Proof.
  intros Hn Hans Hnext Hlast.
  split.
  { unfold DebugPage.favNodes.
    rewrite (favLoop_pages cat username pages (Nat.min n 10) 11);
      try lia; try assumption.
    - replace (Nat.min n 10 + 1 - 1)%nat with (Nat.min n 10) by lia.
      reflexivity.
    - intros k Hk. apply Hnext. lia.
    - intros Hlt. replace (Nat.min n 10) with n by lia. apply Hlast. lia. }
  split.
  { intros q a Hin. unfold DebugPage.favNodes in Hin.
    exact (favLoop_capped _ _ _ _ _ _ _ _ Hin). }
  intros cat' username'. unfold DebugPage.favNodes.
  apply favLoop_finished; lia.
Qed.

Lemma debug_favourites_capped_witness :
  fst (DebugPage.favNodes endless "alice")
  = DebugPage.Returned (nodesOfPages endlessPage 1 10)
  /\ List.length (nodesOfPages endlessPage 1 10) = 10%nat.
Proof.
  split; [|reflexivity].
  destruct (debug_favourites_capped endless "alice" endlessPage 12) as [H _].
  - lia.
  - intros k Hk. reflexivity.
  - intros k Hk. reflexivity.
  - intros Hle. lia.
  - exact H.
Defined.

(** ** The page's profile and the engine's *)

Lemma insert_map {A B} (f : A -> B) (cmpA : A -> A -> comparison)
    (cmpB : B -> B -> comparison) :
  (forall a b, cmpA a b = cmpB (f a) (f b)) ->
  forall x l, map f (Js.insert cmpA x l) = Js.insert cmpB (f x) (map f l).
Proof.
  intros Hc x l. induction l as [|y r IH]; [reflexivity|].
  cbn [Js.insert map]. rewrite <- Hc.
  destruct (cmpA x y); cbn [map]; rewrite ?IH; reflexivity.
Qed.

Lemma sort_map {A B} (f : A -> B) (cmpA : A -> A -> comparison)
    (cmpB : B -> B -> comparison) :
  (forall a b, cmpA a b = cmpB (f a) (f b)) ->
  forall l, map f (Js.sort cmpA l) = Js.sort cmpB (map f l).
Proof.
  intros Hc l. induction l as [|x r IH]; [reflexivity|].
  cbn [Js.sort map]. rewrite (insert_map f cmpA cmpB Hc), IH. reflexivity.
Qed.

Lemma listEntryOf_withStatus list entry :
  listEntryOf list entry = engineEntry (DebugPage.withStatus list entry).
Proof. reflexivity. Qed.

Lemma engineList_allEntries lists :
  engineList lists = map engineEntry (DebugPage.allEntries lists).
Proof.
  unfold engineList, DebugPage.allEntries.
  rewrite (sort_map engineEntry DebugPage.byScore byScoreDesc)
    by reflexivity.
  f_equal. unfold flattenLists.
  induction lists as [|l r IH]; [reflexivity|].
  cbn [flat_map]. rewrite map_app, map_map, IH. reflexivity.
Qed.






(** ** The page's sources and the engine's seeds *)

Lemma filter_map_view {A B} (f : A -> B) (p : B -> bool) l :
  filter p (map f l) = map f (filter (fun a => p (f a)) l).
Proof.
  induction l as [|x l IH]; [reflexivity|].
  cbn [map filter]. destruct (p (f x)); cbn [map]; rewrite IH; reflexivity.
Qed.

Lemma firstn_map_view {A B} (f : A -> B) n l :
  firstn n (map f l) = map f (firstn n l).
Proof.
  revert l. induction n as [|n IH]; intros [|x l]; try reflexivity.
  cbn [firstn map]. rewrite IH. reflexivity.
Qed.

Lemma setHas_same_members k (s s' : list Z) :
  (forall i, In i s <-> In i s') ->
  Js.setHas Z.eqb k s = Js.setHas Z.eqb k s'.
Proof.
  intros H.
  destruct (Js.setHas Z.eqb k s) eqn:E, (Js.setHas Z.eqb k s') eqn:E';
    try reflexivity.
  - apply setHas_In, H, setHas_In in E. congruence.
  - apply setHas_In, H, setHas_In in E'. congruence.
Qed.

Lemma firstn_window_prefix {A} (p : A -> bool) (n a b : nat) (l : list A) :
  (a <= b)%nat ->
  exists rest,
    filter p (firstn b l) = firstn n (filter p (firstn a l)) ++ rest.
Proof.
  intros Hab.
  exists (skipn n (filter p (firstn a l)) ++ filter p (skipn a (firstn b l))).
  rewrite app_assoc, firstn_skipn.
  rewrite <- (firstn_skipn a (firstn b l)) at 1.
  rewrite filter_app, firstn_firstn.
  replace (Nat.min a b) with a by lia. reflexivity.
Qed.

Lemma topOnly_engineEntry favourites favs es :
  (forall i, In i (map fav_id favourites) <-> In i (DebugPage.favIds favs)) ->
  topOnly favourites (map engineEntry es)
  = map engineEntry
      (firstn 10
         (filter (fun e => negb (Js.setHas Z.eqb (raw_mediaId e)
                                   (DebugPage.favIds favs)))
            (firstn 25
               (filter (fun e => negb (DebugPage.isPlanning e)
                                 && (0 <? raw_score e)) es)))).
Proof.
  intros Hsame. unfold topOnly, topRated, Js.slice0, favouriteSet.
  rewrite filter_map_view, firstn_map_view, filter_map_view, firstn_map_view.
  f_equal. f_equal.
  apply filter_ext. intros e.
  change (mediaId (engineEntry e)) with (raw_mediaId e).
  rewrite (setHas_same_members _ _ _ Hsame). reflexivity.
Qed.

(** X21.  The "top rated (outside favourites)" table of the debug page and
    the engine's top-rated seeds.  For the same list answer and the same
    favourite ids, the engine's seeds are the first rows of the page's
    table, in the same order, and they are at most 10, where the page lists
    up to 50; the engine uses min(15, n) of n favourites where the page
    counts them all.  The two tables agree when at most 25 entries are
    rated and at most 10 of them are not favourites. *)
Theorem debug_sources_extend_engine_seeds
    (lists : list RawList) (favourites : list Favourite) (favs : list Media) :
  (forall i, In i (map fav_id favourites) <-> In i (DebugPage.favIds favs)) ->
  (exists rest,
      map raw_mediaId (DebugPage.topOnly favs (DebugPage.allEntries lists))
      = map mediaId (topOnly favourites (engineList lists)) ++ rest)
  /\ (List.length (topOnly favourites (engineList lists)) <= 10)%nat
  /\ (List.length (DebugPage.topOnly favs (DebugPage.allEntries lists)) <= 50)%nat
  /\ List.length (usedFavs favourites)
     = Nat.min 15 (List.length favourites)
  /\ ((List.length (DebugPage.top50 (DebugPage.allEntries lists)) <= 25)%nat ->
      (List.length (DebugPage.topOnly favs (DebugPage.allEntries lists)) <= 10)%nat ->
      map raw_mediaId (DebugPage.topOnly favs (DebugPage.allEntries lists))
      = map mediaId (topOnly favourites (engineList lists))).
Proof.
  intros Hsame.
  rewrite engineList_allEntries, (topOnly_engineEntry _ favs _ Hsame).
  rewrite map_map.
  change (fun x => mediaId (engineEntry x)) with raw_mediaId.
  unfold DebugPage.topOnly, DebugPage.top50, Js.slice0.
  set (rated := filter (fun e => negb (DebugPage.isPlanning e)
                                 && (0 <? raw_score e))
                       (DebugPage.allEntries lists)).
  set (notFav := fun e => negb (Js.setHas Z.eqb (raw_mediaId e)
                                  (DebugPage.favIds favs))).
  split.
  { destruct (firstn_window_prefix notFav 10 25 50 rated) as [rest Hrest];
      [lia|].
    exists (map raw_mediaId rest). rewrite Hrest, map_app. reflexivity. }
  split.
  { rewrite length_map, length_firstn. lia. }
  split.
  { pose proof (filter_partition_length notFav (firstn 50 rated)) as Hp.
    rewrite length_firstn in Hp. lia. }
  split.
  { unfold usedFavs, Js.slice0, MAX_FAV_SOURCES. apply length_firstn. }
  intros H25 H10.
  assert (Hall : firstn 50 rated = firstn 25 rated).
  { rewrite length_firstn in H25.
    rewrite !firstn_all2 by lia. reflexivity. }
  rewrite Hall in *.
  rewrite (firstn_all2 (n := 10)) by exact H10. reflexivity.
Qed.

Lemma debug_sources_extend_engine_seeds_witness :
  (exists rest,
      map raw_mediaId
          (DebugPage.topOnly manyFavouriteDetails
             (DebugPage.allEntries ManyFavourites.lists))
      = map mediaId
            (topOnly ManyFavourites.favourites
               (engineList ManyFavourites.lists)) ++ rest)
  /\ List.length (topOnly ManyFavourites.favourites
                    (engineList ManyFavourites.lists)) = 9%nat
  /\ List.length (DebugPage.topOnly manyFavouriteDetails
                    (DebugPage.allEntries ManyFavourites.lists)) = 10%nat.
Proof.
  destruct (debug_sources_extend_engine_seeds ManyFavourites.lists
              ManyFavourites.favourites manyFavouriteDetails) as [H _].
  - intros i. reflexivity.
  - split; [exact H|]. split; reflexivity.
Defined.

(** ** [runAll] as a whole *)





(* ===================================================================== *)
(** * The two reads of a run *)
(* ===================================================================== *)

(** ** [Promise.all] *)

Lemma promiseAll_run {A B} first (a : M A) (b : M B) w oa w1 ob w2 :
  a w = (oa, w1) ->
  b w1 = (ob, w2) ->
  promiseAll first a b w
  = (match oa, ob with
     | Ok x, Ok y => Ok (x, y)
     | Throw e, Ok _ => Throw e
     | Ok _, Throw e => Throw e
     | Throw ea, Throw eb => Throw (if first then eb else ea)
     | _, _ => OutOfFuel
     end, w2).
Proof.
  intros Ha Hb. unfold promiseAll. rewrite Ha. cbn [fst snd]. rewrite Hb.
  reflexivity.
Qed.

Lemma promiseAll_returns {A B} first (a : M A) (b : M B) w x y :
  fst (promiseAll first a b w) = Ok (x, y) ->
  fst (a w) = Ok x /\ fst (b (snd (a w))) = Ok y.
Proof.
  unfold promiseAll. cbn [fst].
  destruct (fst (a w)) as [x'|ea|], (fst (b (snd (a w)))) as [y'|eb|];
    try discriminate.
  intros H. injection H as -> ->. split; reflexivity.
Qed.

Lemma promiseAll_expired {A B} first (a : M A) (b : M B) w :
  fst (promiseAll first a b w) = Throw TokenExpired ->
  fst (a w) = Throw TokenExpired \/ fst (b (snd (a w))) = Throw TokenExpired.
Proof.
  unfold promiseAll. cbn [fst].
  destruct (fst (a w)) as [x'|ea|], (fst (b (snd (a w)))) as [y'|eb|];
    try discriminate.
  - intros H. right. congruence.
  - intros H. left. congruence.
  - destruct first; intros H; [right | left]; congruence.
Qed.

(** ** The session under the two reads *)

Lemma expiresOnly_ret {A} (x : A) : expiresOnly (ret x).
Proof. intros w. repeat split. discriminate. Qed.

Lemma expiresOnly_throw {A} e : e <> TokenExpired -> expiresOnly (@throw A e).
Proof.
  intros He w. cbn [throw fst snd]. repeat split. congruence.
Qed.

Lemma expiresOnly_diverge {A} : expiresOnly (@diverge A).
Proof. intros w. repeat split. discriminate. Qed.

Lemma expiresOnly_gqlRequest {A} (srv : Server A) : expiresOnly (gqlRequest srv).
Proof.
  intros w. exact (gqlRequestFrom_session srv (S MAX_RETRIES) 0%nat w).
Qed.

Lemma expiresOnly_bind {A B} (m : M A) (k : A -> M B) :
  expiresOnly m -> (forall a, expiresOnly (k a)) -> expiresOnly (bind m k).
Proof.
  intros Hm Hk w. destruct (Hm w) as (Hw & Hexp & Hkept).
  unfold bind. destruct (m w) as [[a|e|] w1]; cbn [fst snd] in *.
  - destruct (Hk a w1) as (Hw' & Hexp' & Hkept').
    assert (Hauth : auth w1 = auth w) by (apply Hkept; discriminate).
    split; [congruence|]. split.
    + intros H. rewrite (Hexp' H). apply loggedOutFrom_kept, Hauth.
    + intros H. rewrite (Hkept' H). exact Hauth.
  - split; [exact Hw|].
    split; intros H; [apply Hexp | apply Hkept]; congruence.
  - split; [exact Hw|].
    split; intros H; [discriminate | apply Hkept; discriminate].
Qed.

Lemma expiresOnly_favouritesLoop fuel remote username :
  forall page results,
    expiresOnly (favouritesLoop fuel remote username page results).
Proof.
  induction fuel as [|fuel IH]; intros page results; cbn [favouritesLoop].
  - apply expiresOnly_diverge.
  - apply expiresOnly_bind; [apply expiresOnly_gqlRequest|].
    intros [[anime|]|].
    + destruct (hasNextPage anime); [apply IH | apply expiresOnly_ret].
    + apply expiresOnly_throw. discriminate.
    + apply expiresOnly_throw. discriminate.
Qed.

Lemma expiresOnly_fetchUserList remote username :
  expiresOnly (fetchUserList remote username).
Proof.
  unfold fetchUserList.
  apply expiresOnly_bind; [apply expiresOnly_gqlRequest|].
  intros [[lists|]|];
    [apply expiresOnly_ret | apply expiresOnly_throw; discriminate
     | apply expiresOnly_throw; discriminate].
Qed.

Lemma promiseAll_session {A B} first (a : M A) (b : M B) w :
  expiresOnly a -> expiresOnly b ->
  w_warned (snd (promiseAll first a b w)) = w_warned w
  /\ (fst (a w) = Throw TokenExpired
      \/ fst (b (snd (a w))) = Throw TokenExpired ->
      auth (snd (promiseAll first a b w)) = loggedOutFrom w)
  /\ (fst (a w) <> Throw TokenExpired ->
      fst (b (snd (a w))) <> Throw TokenExpired ->
      auth (snd (promiseAll first a b w)) = auth w).
Proof.
  intros Ha Hb.
  destruct (Ha w) as (Hwa & Hexpa & Hkepta).
  destruct (Hb (snd (a w))) as (Hwb & Hexpb & Hkeptb).
  unfold promiseAll. cbn [snd].
  split; [congruence|]. split.
  - intros _H.
    destruct (outcome_expired_dec (fst (a w))) as [Ea|Ea];
      destruct (outcome_expired_dec (fst (b (snd (a w))))) as [Eb|Eb].
    + rewrite (Hexpb Eb). apply loggedOutFrom_again, Hexpa, Ea.
    + rewrite (Hkeptb Eb). apply Hexpa, Ea.
    + rewrite (Hexpb Eb). apply loggedOutFrom_kept, Hkepta, Ea.
    + destruct _H; contradiction.
  - intros Ea Eb. rewrite (Hkeptb Eb). apply Hkepta, Ea.
Qed.

Lemma reads_session fuel remote username w :
  w_warned (snd (promiseAll (listRejectsFirst remote username)
                   (fetchAllFavourites fuel remote username)
                   (fetchUserList remote username) w))
  = w_warned w
  /\ (fst (fetchAllFavourites fuel remote username w) = Throw TokenExpired
      \/ fst (fetchUserList remote username w) = Throw TokenExpired ->
      auth (snd (promiseAll (listRejectsFirst remote username)
                   (fetchAllFavourites fuel remote username)
                   (fetchUserList remote username) w))
      = loggedOutFrom w)
  /\ (fst (fetchAllFavourites fuel remote username w) <> Throw TokenExpired ->
      fst (fetchUserList remote username w) <> Throw TokenExpired ->
      auth (snd (promiseAll (listRejectsFirst remote username)
                   (fetchAllFavourites fuel remote username)
                   (fetchUserList remote username) w))
      = auth w).
Proof.
  destruct (promiseAll_session (listRejectsFirst remote username)
              (fetchAllFavourites fuel remote username)
              (fetchUserList remote username) w)
    as (Hw & Hexp & Hkept).
  { unfold fetchAllFavourites. apply expiresOnly_favouritesLoop. }
  { apply expiresOnly_fetchUserList. }
  rewrite (oblivious_fetchUserList remote username
             (snd (fetchAllFavourites fuel remote username w)) w)
    in Hexp, Hkept.
  split; [exact Hw|]. split; assumption.
Qed.

(** A run that throws TOKEN_EXPIRED has logged out. *)
Lemma computeRecommendations_expired fuel remote username w :
  fst (computeRecommendations fuel remote username w) = Throw TokenExpired ->
  auth (snd (computeRecommendations fuel remote username w)) = loggedOutFrom w.
Proof.
  destruct (reads_session fuel remote username w) as (_ & Hexp & _).
  unfold computeRecommendations, bind.
  pose proof (promiseAll_expired (listRejectsFirst remote username)
                (fetchAllFavourites fuel remote username)
                (fetchUserList remote username) w) as Hcause.
  rewrite (oblivious_fetchUserList remote username
             (snd (fetchAllFavourites fuel remote username w)) w) in Hcause.
  destruct (promiseAll (listRejectsFirst remote username)
              (fetchAllFavourites fuel remote username)
              (fetchUserList remote username) w) as [[reads|e|] wP];
    cbn [fst snd] in *.
  - destruct (fanout_run remote (buildTasks (fst reads) (snd reads)) wP)
      as [w' Hf].
    rewrite Hf. cbn [fst ret]. discriminate.
  - intros He. apply Hexp, Hcause. congruence.
  - discriminate.
Qed.


(** X2.  What a run does to the session.  [computeRecommendations] only
    appends to the console warnings, and it leaves the token, the viewer and
    the storage as they were unless a request was answered "invalid token"
    (or 401 with errors): then the user is logged out.  The rejected request
    was one of the two reads, and then the run does not return and warns of
    nothing: it throws TOKEN_EXPIRED or, when the other read was rejected
    too and first, the error of that read, so that a run can fail with
    another error and yet have logged the user out.  Or it was a
    recommendation batch, whose TOKEN_EXPIRED is caught and only warned
    about, so that a run can return its results on a session it has logged
    out.  A run that throws TOKEN_EXPIRED has always logged out. *)
Theorem computeRecommendations_session
    (fuel : nat) (remote : Remote) (username : string) (w : World) :
  exists new,
    w_warned (snd (computeRecommendations fuel remote username w))
    = w_warned w ++ new
    /\ (auth (snd (computeRecommendations fuel remote username w)) = auth w
        \/ (auth (snd (computeRecommendations fuel remote username w))
            = loggedOutFrom w
            /\ ((fst (fetchAllFavourites fuel remote username w)
                 = Throw TokenExpired
                 \/ fst (fetchUserList remote username w) = Throw TokenExpired)
                \/ In TokenExpired new)))
    /\ (fst (computeRecommendations fuel remote username w) = Throw TokenExpired ->
        auth (snd (computeRecommendations fuel remote username w))
        = loggedOutFrom w)
    /\ (fst (fetchAllFavourites fuel remote username w) = Throw TokenExpired
        \/ fst (fetchUserList remote username w) = Throw TokenExpired ->
        auth (snd (computeRecommendations fuel remote username w))
        = loggedOutFrom w
        /\ new = []
        /\ forall results,
             fst (computeRecommendations fuel remote username w) <> Ok results)
    /\ (forall results,
           fst (computeRecommendations fuel remote username w) = Ok results ->
           auth (snd (computeRecommendations fuel remote username w)) = auth w
           \/ (auth (snd (computeRecommendations fuel remote username w))
               = loggedOutFrom w
               /\ In TokenExpired new)).
Proof.
  destruct (reads_session fuel remote username w) as (Hwarn & Hexp & Hkept).
  pose proof (computeRecommendations_expired fuel remote username w) as Hthrown.
  assert (Hreturns :
            forall reads,
              fst (promiseAll (listRejectsFirst remote username)
                     (fetchAllFavourites fuel remote username)
                     (fetchUserList remote username) w) = Ok reads ->
              fst (fetchAllFavourites fuel remote username w) = Ok (fst reads)
              /\ fst (fetchUserList remote username w) = Ok (snd reads)).
  { intros [x y] H. apply promiseAll_returns in H.
    rewrite (oblivious_fetchUserList remote username
               (snd (fetchAllFavourites fuel remote username w)) w) in H.
    exact H. }
  revert Hthrown. unfold computeRecommendations, bind.
  destruct (promiseAll (listRejectsFirst remote username)
              (fetchAllFavourites fuel remote username)
              (fetchUserList remote username) w) as [[reads|e|] wP];
    cbn [fst snd] in *; intros Hthrown.
  - destruct (Hreturns reads eq_refl) as [Hf Hl].
    assert (HwP : auth wP = auth w) by (apply Hkept; congruence).
    destruct (sessionEffect_forEachChunk remote
                (chunks (buildTasks (fst reads) (snd reads))) [] wP)
      as (new & Hnew & Hsess & _).
    destruct (fanout_run remote (buildTasks (fst reads) (snd reads)) wP)
      as [w' Hrun].
    unfold fanout in Hrun. fold (fanout remote (buildTasks (fst reads) (snd reads))).
    unfold fanout. rewrite Hrun in *. cbn [fst snd ret] in *.
    assert (Hcases : auth w' = auth w
                     \/ (auth w' = loggedOutFrom w /\ In TokenExpired new)).
    { destruct Hsess as [Hk|[Hout [Hbad|Hin]]].
      - left. congruence.
      - discriminate Hbad.
      - right. split; [|exact Hin].
        rewrite Hout. apply loggedOutFrom_kept, HwP. }
    exists new. split; [congruence|].
    split.
    { destruct Hcases as [Hk|[Hout Hin]]; [left; exact Hk|].
      right. split; [exact Hout | right; exact Hin]. }
    split; [discriminate|].
    split.
    { intros [H|H]; rewrite H in *; discriminate. }
    intros results _. exact Hcases.
  - exists []. rewrite app_nil_r.
    split; [exact Hwarn|].
    split.
    { destruct (outcome_expired_dec (fst (fetchAllFavourites fuel remote username w)))
        as [Ef|Ef].
      - right. split; [apply Hexp; left; exact Ef | left; left; exact Ef].
      - destruct (outcome_expired_dec (fst (fetchUserList remote username w)))
          as [El|El].
        + right. split; [apply Hexp; right; exact El | left; right; exact El].
        + left. apply Hkept; assumption. }
    split; [exact Hthrown|].
    split.
    { intros Hread. split; [apply Hexp, Hread|].
      split; [reflexivity | discriminate]. }
    intros results H. discriminate H.
  - exists []. rewrite app_nil_r.
    split; [exact Hwarn|].
    split.
    { destruct (outcome_expired_dec (fst (fetchAllFavourites fuel remote username w)))
        as [Ef|Ef].
      - right. split; [apply Hexp; left; exact Ef | left; left; exact Ef].
      - destruct (outcome_expired_dec (fst (fetchUserList remote username w)))
          as [El|El].
        + right. split; [apply Hexp; right; exact El | left; right; exact El].
        + left. apply Hkept; assumption. }
    split; [discriminate|].
    split.
    { intros Hread. split; [apply Hexp, Hread|].
      split; [reflexivity | discriminate]. }
    intros results H. discriminate H.
Qed.

(** A run whose second batch is answered "invalid token" returns the
    results of the first batch on a session that is gone; a run for an
    unknown user whose list read is answered "invalid token" throws
    "introuvable", warns of nothing, and the session is gone as well. *)
Lemma computeRecommendations_session_witness :
  (exists r,
      fst (computeRecommendations 3 remoteExpiring "alice" signedIn) = Ok [r])
  /\ auth (snd (computeRecommendations 3 remoteExpiring "alice" signedIn))
     = (None, None, ["anilistUsername"])
  /\ w_warned (snd (computeRecommendations 3 remoteExpiring "alice" signedIn))
     = [TokenExpired]
  /\ fst (computeRecommendations 3 (remoteUnknownExpired false) "bob" signedIn)
     = Throw (UserNotFound "bob")
  /\ auth (snd (computeRecommendations 3 (remoteUnknownExpired false) "bob"
                  signedIn))
     = (None, None, ["anilistUsername"])
  /\ w_warned (snd (computeRecommendations 3 (remoteUnknownExpired false) "bob"
                      signedIn))
     = [].
Proof.
  destruct (computeRecommendations_session 3 remoteExpiring "alice" signedIn)
    as (new & Hw & [Hk|[Hout _]] & _).
  - vm_compute in Hk. discriminate Hk.
  - destruct (computeRecommendations_session 3 (remoteUnknownExpired false)
                "bob" signedIn)
      as (new' & Hw' & _ & _ & Hread & _).
    destruct Hread as (Hout' & Hnew' & _); [right; vm_compute; reflexivity|].
    split; [eexists; vm_compute; reflexivity|].
    split; [rewrite Hout; reflexivity|].
    split; [vm_compute; reflexivity|].
    split; [vm_compute; reflexivity|].
    split; [rewrite Hout'; reflexivity|].
    rewrite Hw', Hnew'. reflexivity.
Defined.


(** ** Failures of the reads and of the batches *)

Lemma gqlRequest_fetches {A} (srv : Server A) w :
  (S (w_fetches w) <= w_fetches (snd (gqlRequest srv w)))%nat.
Proof.
  destruct (gqlRequestFrom_budget srv (S MAX_RETRIES) 0%nat w)
    as (n & _ & Hf & _); [reflexivity | apply Nat.le_0_l |].
  fold (gqlRequest srv) in Hf. rewrite Hf. lia.
Qed.

Lemma favouritesLoop_fetches fuel remote username :
  forall page results w,
    (w_fetches w + Nat.min 1 fuel
     <= w_fetches (snd (favouritesLoop fuel remote username page results w)))%nat.
Proof.
  induction fuel as [|fuel IH]; intros page results w.
  - cbn [favouritesLoop diverge snd Nat.min]. lia.
  - cbn [favouritesLoop]. unfold bind.
    pose proof (gqlRequest_fetches (favouritesServer remote username page) w)
      as Hg.
    destruct (gqlRequest (favouritesServer remote username page) w)
      as [[[[anime|]|]|e|] w1]; cbn [fst snd] in *;
      try (cbn [throw ret snd]; lia).
    destruct (hasNextPage anime).
    + specialize (IH (S page) (results ++ map favouriteOfNode (nodes anime)) w1).
      lia.
    + cbn [ret snd]. lia.
Qed.

Lemma fetchUserList_fetches remote username w :
  (S (w_fetches w) <= w_fetches (snd (fetchUserList remote username w)))%nat.
Proof.
  unfold fetchUserList, bind.
  pose proof (gqlRequest_fetches (listServer remote username) w) as Hg.
  destruct (gqlRequest (listServer remote username) w)
    as [[[[lists|]|]|e|] w1]; cbn [fst snd throw ret] in *; lia.
Qed.

Lemma fetchUserList_total remote username w :
  fst (fetchUserList remote username w) <> OutOfFuel.
Proof.
  unfold fetchUserList, bind.
  pose proof (gqlRequest_total (listServer remote username) w) as Hg.
  destruct (gqlRequest (listServer remote username) w)
    as [[[[lists|]|]|e|] w1]; cbn [fst snd throw ret] in *;
    try discriminate. contradiction.
Qed.

Lemma computeRecommendations_fetches fuel remote username w :
  (1 <= fuel)%nat ->
  (w_fetches w + 2
   <= w_fetches (snd (computeRecommendations fuel remote username w)))%nat.
Proof.
  intros Hfuel.
  pose proof (favouritesLoop_fetches fuel remote username 1%nat [] w) as Hf.
  fold (fetchAllFavourites fuel remote username) in Hf.
  pose proof (fetchUserList_fetches remote username
                (snd (fetchAllFavourites fuel remote username w))) as Hl.
  assert (Hreads : (w_fetches w + 2
                    <= w_fetches
                         (snd (promiseAll (listRejectsFirst remote username)
                                 (fetchAllFavourites fuel remote username)
                                 (fetchUserList remote username) w)))%nat).
  { unfold promiseAll. cbn [snd]. lia. }
  unfold computeRecommendations, bind.
  destruct (promiseAll (listRejectsFirst remote username)
              (fetchAllFavourites fuel remote username)
              (fetchUserList remote username) w) as [[reads|e|] wP];
    cbn [fst snd] in *; try exact Hreads.
  pose proof (forEachChunk_fetches remote
                (chunks (buildTasks (fst reads) (snd reads))) [] wP) as Hc.
  fold (fanout remote (buildTasks (fst reads) (snd reads))) in Hc.
  destruct (fanout remote (buildTasks (fst reads) (snd reads)) wP)
    as [[sm|e|] w']; cbn [fst snd ret] in *; lia.
Qed.

(** C7.  A recommendation batch whose call throws is logged with
    [console.warn] and skipped: its seeds list nothing, and the loop goes
    on with the remaining chunks from the same score map.  The fan-out is
    that loop over the chunks of the tasks; it never throws and returns the
    aggregate of what the batches listed, so once the favourites and the
    list are read the run returns the results built from that score map.
    The two reads are started together and both run to their end.  When one
    of them throws and the other returns, the run throws that error; when
    both throw, the run throws the error that arrives first.  In each case
    the recommendation batches are never asked for: the run ends in the
    world the two reads left.  Every run sends at least the two read
    requests. *)
Theorem batch_failures_are_isolated
    (fuel : nat) (remote : Remote) (username : string) (w : World) :
  (forall chunk rest sm e w0 w',
      gqlRequest (recommendationsServer remote (map task_mediaId chunk)) w0
      = (Throw e, w') ->
      processChunk remote chunk sm w0 = (Ok sm, warned e w')
      /\ forEachChunk remote (chunk :: rest) sm w0
         = forEachChunk remote rest sm (warned e w')
      /\ listedChunk remote chunk = map (fun task => (task, [])) chunk)
  /\ (forall tasks w0,
         fanout remote tasks w0 = forEachChunk remote (chunks tasks) [] w0
         /\ exists w',
              fanout remote tasks w0
              = (Ok (aggregate (hitsOf (listed remote tasks)) []), w'))
  /\ (forall favourites w1 userList w2,
         fetchAllFavourites fuel remote username w = (Ok favourites, w1) ->
         fetchUserList remote username w1 = (Ok userList, w2) ->
         exists scoreMap w3,
           fanout remote (buildTasks favourites userList) w2
           = (Ok scoreMap, w3)
           /\ computeRecommendations fuel remote username w
              = (Ok (finalResults userList scoreMap), w3))
  /\ (forall e w1 userList w2,
         fetchAllFavourites fuel remote username w = (Throw e, w1) ->
         fetchUserList remote username w1 = (Ok userList, w2) ->
         computeRecommendations fuel remote username w = (Throw e, w2))
  /\ (forall favourites w1 e w2,
         fetchAllFavourites fuel remote username w = (Ok favourites, w1) ->
         fetchUserList remote username w1 = (Throw e, w2) ->
         computeRecommendations fuel remote username w = (Throw e, w2))
  /\ (forall e1 w1 e2 w2,
         fetchAllFavourites fuel remote username w = (Throw e1, w1) ->
         fetchUserList remote username w1 = (Throw e2, w2) ->
         computeRecommendations fuel remote username w
         = (Throw (if listRejectsFirst remote username then e2 else e1), w2))
  /\ (forall w1, fst (fetchUserList remote username w1) <> OutOfFuel)
  /\ ((1 <= fuel)%nat ->
      (w_fetches w + 1
       <= w_fetches (snd (fetchAllFavourites fuel remote username w)))%nat
      /\ (w_fetches (snd (fetchAllFavourites fuel remote username w)) + 1
          <= w_fetches
               (snd (fetchUserList remote username
                       (snd (fetchAllFavourites fuel remote username w)))))%nat
      /\ (w_fetches w + 2
          <= w_fetches (snd (computeRecommendations fuel remote username w)))%nat).
Proof.
  assert (Hreads : forall oa w1 ob w2,
             fetchAllFavourites fuel remote username w = (oa, w1) ->
             fetchUserList remote username w1 = (ob, w2) ->
             promiseAll (listRejectsFirst remote username)
               (fetchAllFavourites fuel remote username)
               (fetchUserList remote username) w
             = (match oa, ob with
                | Ok x, Ok y => Ok (x, y)
                | Throw e, Ok _ => Throw e
                | Ok _, Throw e => Throw e
                | Throw ea, Throw eb =>
                    Throw (if listRejectsFirst remote username then eb else ea)
                | _, _ => OutOfFuel
                end, w2))
    by (intros oa w1 ob w2 Ha Hb; exact (promiseAll_run _ _ _ _ _ _ _ _ Ha Hb)).
  split; [|split; [|split; [|split; [|split; [|split; [|split]]]]]].
  - intros chunk rest sm e w0 w' H. split; [|split].
    + apply processChunk_failed, H.
    + cbn [forEachChunk]. unfold bind at 1.
      rewrite (processChunk_failed _ _ _ _ _ _ H). reflexivity.
    + unfold listedChunk, outcome.
      rewrite (oblivious_gqlRequest _ freshWorld w0), H. reflexivity.
  - intros tasks w0. split; [reflexivity|]. apply fanout_run.
  - intros favourites w1 userList w2 Hf Hl.
    destruct (fanout_run remote (buildTasks favourites userList) w2) as [w3 H].
    do 2 eexists. split; [exact H|].
    unfold computeRecommendations, bind.
    rewrite (Hreads _ _ _ _ Hf Hl). cbn [fst snd]. rewrite H. reflexivity.
  - intros e w1 userList w2 Hf Hl.
    unfold computeRecommendations, bind.
    rewrite (Hreads _ _ _ _ Hf Hl). reflexivity.
  - intros favourites w1 e w2 Hf Hl.
    unfold computeRecommendations, bind.
    rewrite (Hreads _ _ _ _ Hf Hl). reflexivity.
  - intros e1 w1 e2 w2 Hf Hl.
    unfold computeRecommendations, bind.
    rewrite (Hreads _ _ _ _ Hf Hl). reflexivity.
  - intros w1. apply fetchUserList_total.
  - intros Hfuel.
    pose proof (favouritesLoop_fetches fuel remote username 1%nat [] w) as Hf.
    fold (fetchAllFavourites fuel remote username) in Hf.
    split; [lia|].
    split.
    + pose proof (fetchUserList_fetches remote username
                    (snd (fetchAllFavourites fuel remote username w))).
      lia.
    + apply computeRecommendations_fetches, Hfuel.
Qed.

(** On the sample catalogue behind a rate-limiting recommendation server the
    only batch fails and the run still returns.  For an unknown user the run
    throws after both reads were sent.  When the user is unknown and the
    token of the list read is rejected, the run throws the error that
    arrives first. *)
Lemma batch_failures_are_isolated_witness :
  (exists results w3,
      computeRecommendations 5 Sample.remoteLimited "alice" freshWorld
      = (Ok results, w3))
  /\ computeRecommendations 5 Sample.remoteUnknown "bob" freshWorld
     = (Throw (UserNotFound "bob"), fetched (fetched freshWorld))
  /\ fst (computeRecommendations 5 (remoteUnknownExpired false) "bob" freshWorld)
     = Throw (UserNotFound "bob")
  /\ fst (computeRecommendations 5 (remoteUnknownExpired true) "bob" freshWorld)
     = Throw TokenExpired
  /\ w_fetches (snd (computeRecommendations 5 (remoteUnknownExpired true) "bob"
                       freshWorld))
     = 2%nat.
Proof.
  split; [|split; [|split; [|split]]].
  - destruct (batch_failures_are_isolated 5 Sample.remoteLimited "alice" freshWorld)
      as (_ & _ & H & _).
    destruct (H Sample.favourites (fetched freshWorld)
                Sample.userList (fetched (fetched freshWorld)))
      as (sm & w3 & _ & Hrun); [vm_compute; reflexivity.. |].
    eauto.
  - destruct (batch_failures_are_isolated 5 Sample.remoteUnknown "bob" freshWorld)
      as (_ & _ & _ & H & _).
    apply (H _ (fetched freshWorld) Sample.userList); vm_compute; reflexivity.
  - destruct (batch_failures_are_isolated 5 (remoteUnknownExpired false) "bob"
                freshWorld) as (_ & _ & _ & _ & _ & H & _).
    rewrite (H (UserNotFound "bob") (fetched freshWorld) TokenExpired
               (fetched (fetched freshWorld)));
      vm_compute; reflexivity.
  - destruct (batch_failures_are_isolated 5 (remoteUnknownExpired true) "bob"
                freshWorld) as (_ & _ & _ & _ & _ & H & _).
    rewrite (H (UserNotFound "bob") (fetched freshWorld) TokenExpired
               (fetched (fetched freshWorld)));
      vm_compute; reflexivity.
  - vm_compute. reflexivity.
Defined.

(* ===================================================================== *)
(** * App._run and the cache *)
(* ===================================================================== *)








(** ** A run that ends in TOKEN_EXPIRED *)


Lemma loggedOut_no_authKey w w' k :
  auth w' = loggedOutFrom w -> authKey k = true -> hasKey k w' = false.
Proof.
  unfold auth, loggedOutFrom, hasKey. intros H Hk.
  injection H as _ _ Hs. rewrite Hs. clear Hs.
  induction (w_storage w) as [|x l IH]; [reflexivity|].
  cbn [filter]. destruct (authKey x) eqn:Hx; cbn [negb]; [exact IH|].
  cbn [existsb]. rewrite IH, orb_false_r.
  destruct (String.eqb_spec k x) as [->|]; [congruence | reflexivity].
Qed.

(** X24.  A run that ends on the "session expired" screen has logged the
    user out and has dropped the cached results together with the stored
    token and viewer: the next unforced run cannot be served from the
    cache.  A run that ends with "no recommendation" or with another error
    stores nothing. *)
Theorem App_run_expired
    (fuel : nat) (remote : Remote) (clock : Clock) (writable forceRefresh : bool)
    (username : string) (st : AppState) :
  (fst (App_run fuel remote clock writable forceRefresh username st)
   = SessionExpired ->
   isLoggedIn (app_world (snd (App_run fuel remote clock writable forceRefresh
                                 username st))) = false
   /\ storedCache (snd (App_run fuel remote clock writable forceRefresh
                          username st)) = None
   /\ hasKey "anilistToken"
        (app_world (snd (App_run fuel remote clock writable forceRefresh
                           username st))) = false
   /\ hasKey "anilistViewer"
        (app_world (snd (App_run fuel remote clock writable forceRefresh
                           username st))) = false
   /\ forall username',
        loadCache username'
          (storedCache (snd (App_run fuel remote clock writable forceRefresh
                               username st))) = None)
  /\ ((forall results stale,
          fst (App_run fuel remote clock writable forceRefresh username st)
          <> Results results stale) ->
      recoCache (snd (App_run fuel remote clock writable forceRefresh
                        username st))
      = recoCache st).
Proof.
  unfold App_run.
  destruct (negb (Js.truthy (Some username))).
  { split; [discriminate | reflexivity]. }
  cbn [app_world recoCache].
  set (w1 := if writable then storeKey "anilistUsername" (app_world st)
             else app_world st).
  destruct (if forceRefresh then None
            else loadCache username
                   (storedCache {| app_world := w1; recoCache := recoCache st |}))
    as [cached|].
  { split; [discriminate | reflexivity]. }
  pose proof (computeRecommendations_expired fuel remote username w1) as Hout.
  destruct (computeRecommendations fuel remote username w1) as [o w] eqn:Hc.
  cbn [fst snd] in Hout.
  destruct o as [[|r rest]|e|].
  - split; [discriminate | reflexivity].
  - split; [discriminate|].
    intros Hdiff. exfalso. exact (Hdiff _ _ eq_refl).
  - destruct e; try (split; [discriminate | reflexivity]).
    split; [|reflexivity].
    intros _. specialize (Hout eq_refl). cbn [fst snd app_world].
    split; [exact (loggedOut_not_loggedIn _ _ Hout)|].
    assert (Hcache : storedCache {| app_world := w; recoCache := recoCache st |}
                     = None).
    { unfold storedCache. cbn [app_world].
      rewrite (loggedOut_no_authKey _ _ "recoCache" Hout eq_refl). reflexivity. }
    split; [exact Hcache|].
    split; [exact (loggedOut_no_authKey _ _ "anilistToken" Hout eq_refl)|].
    split; [exact (loggedOut_no_authKey _ _ "anilistViewer" Hout eq_refl)|].
    intros username'. rewrite Hcache. reflexivity.
  - split; [discriminate | reflexivity].
Qed.

(** A forced run on a rejected token ends on the "session expired" screen
    and the results that were cached are gone. *)
Lemma App_run_expired_witness :
  option_map cache_username (storedCache cachedApp) = Some "alice"
  /\ fst (App_run 3 remoteRejecting noon true true "alice" cachedApp)
     = SessionExpired
  /\ storedCache (snd (App_run 3 remoteRejecting noon true true "alice"
                         cachedApp)) = None
  /\ isLoggedIn (app_world (snd (App_run 3 remoteRejecting noon true true
                                   "alice" cachedApp))) = false.
Proof.
  destruct (App_run_expired 3 remoteRejecting noon true true "alice" cachedApp)
    as [Hexpired _].
  destruct (Hexpired eq_refl) as (Hout & Hcache & _).
  split; [reflexivity|].
  split; [reflexivity|].
  split; [exact Hcache | exact Hout].
Defined.


(** [getTitle] of the debug page names a title as the popup names a
    favourite, and never returns the empty string. *)
Lemma getTitle_favourite (m : Media) :
  DebugPage.getTitle m
  = fav_title (favouriteOfNode {| node_id := id m; node_title := m_title m |})
  /\ DebugPage.getTitle m <> "".
Proof.
  split; [reflexivity|].
  unfold DebugPage.getTitle, Js.orDefault, Js.or, Js.truthy, hashId.
  destruct (english (m_title m)) as [[|c s]|];
    destruct (romaji (m_title m)) as [[|c' s']|]; discriminate.
Qed.
